(** * A feed-forward network trainer written with numpy: model and properties

    The notebook builds a binary classifier from matrix primitives:
    [init_params], [model_forward_propagation], [compute_cost],
    [model_backward_propagation], [update_parameters], [epoch_train],
    [train_nn] and [predict].  This file embeds those functions and proves
    properties of them.

    Conventions of the embedding.
    - A numpy float64 is an element of [R]: arithmetic is exact, there is no
      rounding, no infinity and no NaN.  Where numpy divides an array by
      zero and goes on with a warning, the model goes on with the value that
      [R] gives to the quotient; no property below depends on it.
    - A 2-D array is a [matrix]: its shape and a function from indices to
      entries (only the entries inside the shape are meaningful).  A 1-D
      array, such as the labels [y], is a [vector].
    - A Python exception is [Raise e]; a normal return is [Ok v].
    - The parameter arrays are mutable objects that several names point to
      ([weights], [best_weights], the caches); they live in a [heap] and the
      Python lists hold references to them.
    - The random source [np.random] is a stream of draws, passed in and out.
    - [print] calls are left out and [verbose] is [False], as in every call
      that [train_nn] makes by default.  (With [verbose=True] the backward
      pass prints [g_derivative.shape]; for an activation name that the
      dispatch does not know, [g_derivative] is the integer 1 and that print
      raises AttributeError.  The functions below are the ones with
      [verbose=False].) *)

From Stdlib Require Import String Bool ZArith Reals Lra Psatz Arith Lia List.
Import ListNotations.

Open Scope R_scope.

(** ** Exceptions *)

Inductive exn : Type :=
| ValueError
| IndexError
| AssertionError
| ZeroDivisionError
| TypeError.

Inductive result (A : Type) : Type :=
| Ok (a : A)
| Raise (e : exn).

Arguments Ok {A} a.
Arguments Raise {A} e.

Definition bind {A B : Type} (c : result A) (k : A -> result B) : result B :=
  match c with
  | Ok a => k a
  | Raise e => Raise e
  end.

Declare Scope py_scope.
Delimit Scope py_scope with py.
Notation "x <- c ;; k" := (bind c (fun x => k))
  (at level 61, c at next level, right associativity) : py_scope.
Notation "' p <- c ;; k" := (bind c (fun x => let p := x in k))
  (at level 61, p pattern, c at next level, right associativity) : py_scope.
Open Scope py_scope.

(** [assert cond] *)
Definition py_assert (cond : bool) : result unit :=
  if cond then Ok tt else Raise AssertionError.

(** [l[i]] on a Python list, for [0 <= i]. *)
Definition getitem {A : Type} (l : list A) (i : nat) : result A :=
  match nth_error l i with
  | Some a => Ok a
  | None => Raise IndexError
  end.

(** [for i in range(start, start + n): s = body(i, s)] *)
Fixpoint for_from {S : Type} (start n : nat) (body : nat -> S -> result S)
  (s : S) : result S :=
  match n with
  | O => Ok s
  | Datatypes.S n' => s' <- body start s ;; for_from (Datatypes.S start) n' body s'
  end.

Definition for_range {S : Type} (n : nat) (body : nat -> S -> result S)
  (s : S) : result S :=
  for_from 0 n body s.

(** ** numpy arrays *)

Record matrix : Type := mk_matrix {
  nrows : nat;
  ncols : nat;
  entry : nat -> nat -> R
}.

Record vector : Type := mk_vector {
  vlen : nat;
  vnth : nat -> R
}.

Definition shape (M : matrix) : nat * nat := (nrows M, ncols M).

Definition shape_eqb (s t : nat * nat) : bool :=
  Nat.eqb (fst s) (fst t) && Nat.eqb (snd s) (snd t).

(** Sum of [f 0 .. f (n-1)]. *)
Fixpoint sum_upto (n : nat) (f : nat -> R) : R :=
  match n with
  | O => 0
  | S n' => sum_upto n' f + f n'
  end.

(** [np.sum(M)] *)
Definition sum_all (M : matrix) : R :=
  sum_upto (nrows M) (fun i => sum_upto (ncols M) (fun j => entry M i j)).

(** [np.sum(v)] *)
Definition vsum (v : vector) : R := sum_upto (vlen v) (vnth v).

(** The length two axes broadcast to, or [ValueError]. *)
Definition bdim (a b : nat) : result nat :=
  if Nat.eqb a b then Ok a
  else if Nat.eqb a 1 then Ok b
  else if Nat.eqb b 1 then Ok a
  else Raise ValueError.

(** The index read on an axis of length [d] when the result index is [i]. *)
Definition bidx (d i : nat) : nat := if Nat.eqb d 1 then O else i.

(** An elementwise binary operation on two 2-D arrays, with broadcasting. *)
Definition map2 (f : R -> R -> R) (A B : matrix) : result matrix :=
  r <- bdim (nrows A) (nrows B) ;;
  c <- bdim (ncols A) (ncols B) ;;
  Ok (mk_matrix r c
        (fun i j => f (entry A (bidx (nrows A) i) (bidx (ncols A) j))
                      (entry B (bidx (nrows B) i) (bidx (ncols B) j)))).

(** The same on two 1-D arrays. *)
Definition vmap2 (f : R -> R -> R) (u v : vector) : result vector :=
  n <- bdim (vlen u) (vlen v) ;;
  Ok (mk_vector n (fun i => f (vnth u (bidx (vlen u) i)) (vnth v (bidx (vlen v) i)))).

(** A 1-D array of shape (n,) against a 2-D array: the 1-D array is read as
    shape (1, n). *)
Definition as_row (v : vector) : matrix :=
  mk_matrix 1 (vlen v) (fun _ j => vnth v j).

(** An elementwise unary operation, or an operation with a Python scalar. *)
Definition mmap (f : R -> R) (M : matrix) : matrix :=
  mk_matrix (nrows M) (ncols M) (fun i j => f (entry M i j)).

Definition vmap (f : R -> R) (v : vector) : vector :=
  mk_vector (vlen v) (fun i => f (vnth v i)).

(** [np.dot(A, B)] on 2-D arrays. *)
Definition dot (A B : matrix) : result matrix :=
  if Nat.eqb (ncols A) (nrows B)
  then Ok (mk_matrix (nrows A) (ncols B)
             (fun i j => sum_upto (ncols A) (fun k => entry A i k * entry B k j)))
  else Raise ValueError.

(** [M.T] *)
Definition transpose (M : matrix) : matrix :=
  mk_matrix (ncols M) (nrows M) (fun i j => entry M j i).

(** [np.sum(M, axis = 1, keepdims = True)] *)
Definition sum_axis1 (M : matrix) : matrix :=
  mk_matrix (nrows M) 1 (fun i _ => sum_upto (ncols M) (fun j => entry M i j)).

(** [np.mean(M)] *)
Definition mean (M : matrix) : R :=
  sum_all M / INR (nrows M * ncols M).

(** [np.zeros(shape = (r, c))] *)
Definition zeros (r c : nat) : matrix := mk_matrix r c (fun _ _ => 0).

(** [np.clip(x, lo, hi)], which is [minimum(maximum(x, lo), hi)]. *)
Definition clip (lo hi x : R) : R := Rmin (Rmax x lo) hi.

(** [M[0]]: the first row, as a 1-D array. *)
Definition row0 (M : matrix) : result vector :=
  if Nat.eqb (nrows M) 0 then Raise IndexError
  else Ok (mk_vector (ncols M) (fun j => entry M O j)).

(** [y.reshape(shape)] of a 1-D array, in row-major order. *)
Definition reshape (y : vector) (s : nat * nat) : result matrix :=
  if Nat.eqb (vlen y) (fst s * snd s)
  then Ok (mk_matrix (fst s) (snd s) (fun i j => vnth y (i * snd s + j)%nat))
  else Raise ValueError.

(** [M[i, j] = v] *)
Definition setitem (M : matrix) (i j : nat) (v : R) : result matrix :=
  if Nat.ltb i (nrows M) && Nat.ltb j (ncols M)
  then Ok (mk_matrix (nrows M) (ncols M)
             (fun i' j' => if Nat.eqb i' i && Nat.eqb j' j then v else entry M i' j'))
  else Raise IndexError.

(** [M[i, j]] *)
Definition getentry (M : matrix) (i j : nat) : result R :=
  if Nat.ltb i (nrows M) && Nat.ltb j (ncols M)
  then Ok (entry M i j)
  else Raise IndexError.

(** [a -= b] on an array: [b] must broadcast to the shape of [a]. *)
Definition isub (a b : matrix) : result matrix :=
  r <- map2 Rminus a b ;;
  if shape_eqb (shape r) (shape a) then Ok r else Raise ValueError.

(** ** Activation functions *)

Definition sigmoid (Z : matrix) : matrix :=
  mmap (fun z => 1 / (1 + exp (- z))) Z.

Definition tanh (Z : matrix) : matrix := mmap Rtrigo_def.tanh Z.

Definition relu (Z : matrix) : matrix := mmap (fun z => Rmax 0 z) Z.

Definition tanh_derivative (Z : matrix) : matrix :=
  let a := tanh Z in
  mmap (fun x => 1 - x ^ 2) a.

Definition sigmoid_derivative (Z : matrix) : matrix :=
  let a := sigmoid Z in
  mmap (fun x => x * (1 - x)) a.

(** [Z > 0 * 1] is [Z > 0]: a boolean array, whose [True] counts as 1 and
    whose [False] counts as 0 in the product that uses it. *)
Definition relu_derivative (Z : matrix) : matrix :=
  mmap (fun z => if Rgt_dec z 0 then 1 else 0) Z.

(** ** Parameter arrays and the random source

    The arrays in [weights] and [biases] are updated in place by
    [update_parameters], and the forward pass stores them (not copies) in its
    caches.  They live in a [heap]; a Python list of such arrays is a list of
    references.  Such a list is filled by [init_params] and never changes
    afterwards: [weights[i] -= ...] changes the array and puts the same array
    back in its slot. *)

Definition ref := nat.
Definition heap := list matrix.

Definition alloc (h : heap) (M : matrix) : ref * heap :=
  (length h, h ++ [M]).

(** Reading through a reference.  A reference outside the heap does not occur
    in a run that starts from [init_params]. *)
Definition load (h : heap) (r : ref) : result matrix :=
  match nth_error h r with
  | Some M => Ok M
  | None => Raise IndexError
  end.

Fixpoint store (h : heap) (r : ref) (M : matrix) : heap :=
  match h, r with
  | [], _ => []
  | _ :: t, O => M :: t
  | x :: t, S r' => x :: store t r' M
  end.

(** The state of [np.random]: the standard-normal draws still to come. *)
Definition rng := nat -> R.

(** The largest dimension and the largest byte count of a numpy array: the
    largest signed 64-bit integer. *)
Definition max_intp : Z := (2 ^ 63 - 1)%Z.

(** The shapes [(m, n)] that numpy refuses, with ValueError, for an array of
    float64: a negative dimension, a dimension above [max_intp], or a byte
    count above [max_intp].  The byte count is 8 times the product of the
    dimensions that are not 0.  (An array that is allowed but does not fit
    in the memory at hand is a MemoryError of the machine, which is not
    modelled.) *)
Definition shape_refused (m n : Z) : bool :=
  (m <? 0)%Z || (n <? 0)%Z || (max_intp <? m)%Z || (max_intp <? n)%Z ||
  (max_intp <? 8 * (if (m =? 0)%Z then 1 else m) * (if (n =? 0)%Z then 1 else n))%Z.

(** [np.random.randn(m, n)] *)
Definition randn (m n : Z) (g : rng) : result (matrix * rng) :=
  if shape_refused m n then Raise ValueError
  else
    let r := Z.to_nat m in
    let c := Z.to_nat n in
    Ok (mk_matrix r c (fun i j => g (i * c + j)%nat),
        fun k => g (k + r * c)%nat).

Definition init_random_weights (m n : Z) (g : rng) : result (matrix * rng) :=
  '(M, g') <- randn m n g ;;
  Ok (mmap (fun x => x / sqrt (IZR n)) M, g').

Definition init_zeros (m : Z) : result matrix :=
  if shape_refused m 1 then Raise ValueError else Ok (zeros (Z.to_nat m) 1).

(** [shape == (m, n)] for Python integers [m] and [n]. *)
Definition shape_is (M : matrix) (m n : Z) : bool :=
  Z.eqb (Z.of_nat (nrows M)) m && Z.eqb (Z.of_nat (ncols M)) n.

Record init_state : Type := mk_init_state {
  i_weights : list ref;
  i_biases : list ref;
  i_heap : heap;
  i_rng : rng
}.

(** One turn of the loop of [init_params]; [i] counts from 0 and [l = i + 1]. *)
Definition init_params_body (layer_units : list Z) (i : nat) (s : init_state)
  : result init_state :=
  let l := S i in
  m <- getitem layer_units l ;;
  n <- getitem layer_units (l - 1) ;;
  '(W, g') <- init_random_weights m n (i_rng s) ;;
  let '(rw, h1) := alloc (i_heap s) W in
  b <- init_zeros m ;;
  let '(rb, h2) := alloc h1 b in
  let weights := i_weights s ++ [rw] in
  let biases := i_biases s ++ [rb] in
  wi <- getitem weights i ;;
  Wi <- load h2 wi ;;
  _ <- py_assert (shape_is Wi m n) ;;
  bi <- getitem biases i ;;
  Bi <- load h2 bi ;;
  _ <- py_assert (shape_is Bi m 1) ;;
  Ok (mk_init_state weights biases h2 g').

Definition init_params (layer_units : list Z) (h : heap) (g : rng)
  : result init_state :=
  for_range (length layer_units - 1) (init_params_body layer_units)
    (mk_init_state [] [] h g).

(** ** Forward propagation *)

Definition linear_forward (A W b : matrix) : result matrix :=
  WA <- dot W A ;;
  Z <- map2 Rplus WA b ;;
  _ <- py_assert (shape_eqb (shape Z) (nrows W, ncols A)) ;;
  Ok Z.

Definition activation_function (Z : matrix) (activation : string) : matrix :=
  if String.eqb activation "sigmoid" then sigmoid Z
  else if String.eqb activation "relu" then relu Z
  else if String.eqb activation "tanh" then tanh Z
  else Z.

Definition forward_propagation (A_prev W b : matrix) (activation : string)
  : result (matrix * matrix) :=
  Z <- linear_forward A_prev W b ;;
  let A := activation_function Z activation in
  Ok (A, Z).

(** The dictionary [activation_functions], with its two keys. *)
Record activations : Type := mk_activations {
  hidden : string;
  output : string
}.

(** The dictionary [caches]: four lists that grow together.  ['A_prev'] and
    ['Z'] hold arrays made by the forward pass; ['W'] and ['b'] hold the
    parameter arrays themselves. *)
Record caches : Type := mk_caches {
  c_A_prev : list matrix;
  c_W : list ref;
  c_b : list ref;
  c_Z : list matrix
}.

Definition model_forward_body (h : heap) (weights biases : list ref)
  (activation_functions : activations) (L i : nat) (s : matrix * caches)
  : result (matrix * caches) :=
  let '(A, cs) := s in
  let A_prev := A in
  W <- getitem weights i ;;
  b <- getitem biases i ;;
  let activation :=
    if negb (Nat.eqb i (L - 1)) then hidden activation_functions
    else output activation_functions in
  Wv <- load h W ;;
  bv <- load h b ;;
  '(A', Z) <- forward_propagation A_prev Wv bv activation ;;
  Ok (A', mk_caches (c_A_prev cs ++ [A_prev]) (c_W cs ++ [W])
                    (c_b cs ++ [b]) (c_Z cs ++ [Z])).

Definition model_forward_propagation (h : heap) (X : matrix)
  (weights biases : list ref) (activation_functions : activations)
  : result (matrix * caches) :=
  let A := X in
  let L := length weights in
  for_range L (model_forward_body h weights biases activation_functions L)
    (A, mk_caches [] [] [] []).

(** ** Cost *)

Definition epsilon : R := 1e-15.

Definition compute_cost (y : vector) (y_pred : matrix) : result R :=
  let m := vlen y in
  p <- row0 y_pred ;;
  let p := vmap (clip epsilon (1 - epsilon)) p in
  if Nat.eqb m 0 then Raise ZeroDivisionError
  else
    t1 <- vmap2 Rmult y (vmap ln p) ;;
    t2 <- vmap2 Rmult (vmap (fun v => 1 - v) y) (vmap (fun v => ln (1 - v)) p) ;;
    s <- vmap2 Rplus t1 t2 ;;
    Ok ((-1 / INR m) * vsum s).

(** [for W in weights: regularization_term += np.sum(np.square(W))] *)
Fixpoint regularization_sum (h : heap) (weights : list ref) (acc : R) : result R :=
  match weights with
  | [] => Ok acc
  | w :: rest =>
      W <- load h w ;;
      regularization_sum h rest (acc + sum_all (mmap (fun x => x * x) W))
  end.

Definition compute_cost_regularization (h : heap) (y : vector) (y_pred : matrix)
  (weights : list ref) (lambda_reg : R) : result R :=
  let m := vlen y in
  let p := mmap (clip epsilon (1 - epsilon)) y_pred in
  t1 <- map2 Rmult (as_row y) (mmap ln p) ;;
  t2 <- map2 Rmult (as_row (vmap (fun v => 1 - v) y)) (mmap (fun v => ln (1 - v)) p) ;;
  s <- map2 Rplus t1 t2 ;;
  let cost := - mean s in
  regularization_term <- regularization_sum h weights 0 ;;
  if Nat.eqb (2 * m) 0 then Raise ZeroDivisionError
  else Ok (cost + (lambda_reg / INR (2 * m)) * regularization_term).

(** ** Backward propagation *)

(** What [derivative_activation] returns: an array, or the Python number 1. *)
Inductive operand : Type :=
| Scalar (r : R)
| Array (M : matrix).

(** [dA * g] *)
Definition mul_operand (dA : matrix) (g : operand) : result matrix :=
  match g with
  | Scalar r => Ok (mmap (fun x => x * r) dA)
  | Array G => map2 Rmult dA G
  end.

Definition linear_backward (dA : matrix) (m : nat) (g_derivative : operand)
  (A_prev W b : matrix) (lambda_reg : option R)
  : result (matrix * matrix * matrix) :=
  dZ <- mul_operand dA g_derivative ;;
  dW <- match lambda_reg with
        | None =>
            d <- dot dZ (transpose A_prev) ;;
            Ok (mmap (fun x => x * 1 / INR m) d)
        | Some lam =>
            d <- dot dZ (transpose A_prev) ;;
            t <- map2 Rplus d (mmap (fun x => lam * x) W) ;;
            Ok (mmap (fun x => x * 1 / INR m) t)
        end ;;
  let db := mmap (fun x => x * 1 / INR m) (sum_axis1 dZ) in
  dA_prev <- dot (transpose W) dZ ;;
  _ <- py_assert (shape_eqb (shape dA_prev) (shape A_prev)) ;;
  _ <- py_assert (shape_eqb (shape dW) (shape W)) ;;
  _ <- py_assert (shape_eqb (shape db) (shape b)) ;;
  Ok (dA_prev, dW, db).

Definition derivative_activation (Z : matrix) (activation : string) : operand :=
  if String.eqb activation "sigmoid" then Array (sigmoid_derivative Z)
  else if String.eqb activation "relu" then Array (relu_derivative Z)
  else if String.eqb activation "tanh" then Array (tanh_derivative Z)
  else Scalar 1.

(** The three lists of gradients, each filled with [insert(0, ...)]. *)
Record gradients : Type := mk_gradients {
  gradients_A_prev : list matrix;
  gradients_W : list matrix;
  gradients_b : list matrix
}.

(** One turn of the loop of [model_backward_propagation]: [i] counts from 0
    and [j] walks [reversed(range(L))].  The name [dA] is assigned once,
    before the loop, and every turn starts from it. *)
Definition model_backward_body (h : heap) (cs : caches)
  (activation_functions : activations) (lambda_reg : option R)
  (L m : nat) (dA : matrix) (i : nat) (gs : gradients) : result gradients :=
  let j := (L - 1 - i)%nat in
  let activation :=
    if Nat.eqb i 0 then output activation_functions
    else hidden activation_functions in
  Z <- getitem (c_Z cs) j ;;
  A_prev <- getitem (c_A_prev cs) j ;;
  W <- getitem (c_W cs) j ;;
  b <- getitem (c_b cs) j ;;
  let dA_prev := dA in
  let g_derivative := derivative_activation Z activation in
  Wv <- load h W ;;
  bv <- load h b ;;
  '(dA_prev', dW, db) <-
     linear_backward dA_prev m g_derivative A_prev Wv bv lambda_reg ;;
  Ok (mk_gradients (dA_prev' :: gradients_A_prev gs)
                   (dW :: gradients_W gs)
                   (db :: gradients_b gs)).

(** The error signal at the output, from the clipped predictions. *)
Definition output_error (y A : matrix) : result matrix :=
  q1 <- map2 Rdiv y A ;;
  q2 <- map2 Rdiv (mmap (fun v => 1 - v) y) (mmap (fun a => 1 - a) A) ;;
  d <- map2 Rminus q1 q2 ;;
  Ok (mmap Ropp d).

Definition model_backward_propagation (h : heap) (A : matrix) (y : vector)
  (weights biases : list ref) (cs : caches)
  (activation_functions : activations) (lambda_reg : option R)
  : result gradients :=
  let L := length weights in
  y <- reshape y (shape A) ;;
  let m := nrows y in
  let A := mmap (clip epsilon (1 - epsilon)) A in
  dA <- output_error y A ;;
  for_range L
    (model_backward_body h cs activation_functions lambda_reg L m dA)
    (mk_gradients [] [] []).

(** ** Parameter update *)

Definition update_parameters_body (weights biases : list ref)
  (gradients_W gradients_b : list matrix) (learning_rate : R)
  (i : nat) (h : heap) : result heap :=
  w <- getitem weights i ;;
  W <- load h w ;;
  gW <- getitem gradients_W i ;;
  W' <- isub W (mmap (fun x => learning_rate * x) gW) ;;
  let h1 := store h w W' in
  b <- getitem biases i ;;
  B <- load h1 b ;;
  gb <- getitem gradients_b i ;;
  B' <- isub B (mmap (fun x => learning_rate * x) gb) ;;
  Ok (store h1 b B').

(** Returns the lists it was given; the arrays they hold have changed. *)
Definition update_parameters (h : heap) (weights biases : list ref)
  (gradients_W gradients_b : list matrix) (learning_rate : R)
  : result (list ref * list ref * heap) :=
  let L := length weights in
  h' <- for_range L
          (update_parameters_body weights biases gradients_W gradients_b
             learning_rate) h ;;
  Ok (weights, biases, h').

(** ** One epoch *)

Record epoch_result : Type := mk_epoch_result {
  e_weights : list ref;
  e_biases : list ref;
  e_cost : R;
  e_caches : caches;
  e_heap : heap
}.

(** [epoch_train(..., verbose=False, ...)].  The flag is handed to the two
    passes, which print nothing when it is [False]; its default here is
    [True] (see the conventions at the top for what the prints do then). *)
Definition epoch_train (h : heap) (X : matrix) (y : vector)
  (activation_functions : activations) (learning_rate : R)
  (weights biases : list ref) (lambda_reg : option R) : result epoch_result :=
  '(A, cs) <- model_forward_propagation h X weights biases activation_functions ;;
  cost <- match lambda_reg with
          | None => compute_cost y A
          | Some _ => compute_cost_regularization h y A weights 0.01
          end ;;
  gs <- model_backward_propagation h A y weights biases cs
          activation_functions lambda_reg ;;
  '(weights', biases', h') <-
     update_parameters h weights biases (gradients_W gs) (gradients_b gs)
       learning_rate ;;
  Ok (mk_epoch_result weights' biases' cost cs h').

(** ** The training loop *)

Record train_state : Type := mk_train_state {
  t_weights : list ref;
  t_biases : list ref;
  t_costs : list R;
  t_best_cost : R;
  t_best_weights : option (list ref);
  t_best_biases : option (list ref);
  t_best_iteration : nat;
  t_heap : heap
}.

Definition train_body (X : matrix) (y : vector)
  (activation_functions : activations) (learning_rate : R)
  (lambda_reg : option R) (i : nat) (s : train_state) : result train_state :=
  e <- epoch_train (t_heap s) X y activation_functions learning_rate
         (t_weights s) (t_biases s) lambda_reg ;;
  let weights := e_weights e in
  let biases := e_biases e in
  let cost := e_cost e in
  let '(best_cost, best_iteration, best_weights, best_biases) :=
    if Rgt_dec (t_best_cost s) cost
    then (cost, (i + 1)%nat, Some weights, Some biases)
    else (t_best_cost s, t_best_iteration s, t_best_weights s, t_best_biases s) in
  Ok (mk_train_state weights biases (t_costs s ++ [cost])
        best_cost best_weights best_biases best_iteration (e_heap e)).

(** The state of [train_nn] after [init_params] and [epochs] turns of its
    loop. *)
Definition train_loop (h : heap) (g : rng) (X : matrix) (y : vector)
  (layer_units : list Z) (activation_functions : activations)
  (learning_rate : R) (epochs : nat) (lambda_reg : option R)
  : result train_state :=
  p <- init_params layer_units h g ;;
  for_range epochs
    (train_body X y activation_functions learning_rate lambda_reg)
    (mk_train_state (i_weights p) (i_biases p) [] 1 None None 0 (i_heap p)).

(** The dictionary [best_parameters]. *)
Record parameters : Type := mk_parameters {
  p_weights : option (list ref);
  p_biases : option (list ref)
}.

(** [train_nn] returns [best_parameters] and [costs]; the heap it leaves is
    where the caller finds the arrays of [best_parameters]. *)
Definition train_nn (h : heap) (g : rng) (X : matrix) (y : vector)
  (layer_units : list Z) (activation_functions : activations)
  (learning_rate : R) (num_iteration : Z) (lambda_reg : option R)
  : result (parameters * list R * heap) :=
  s <- train_loop h g X y layer_units activation_functions learning_rate
         (Z.to_nat num_iteration) lambda_reg ;;
  Ok (mk_parameters (t_best_weights s) (t_best_biases s), t_costs s, t_heap s).

(** ** Prediction *)

Definition predict_body (probs : matrix) (i : nat) (p : matrix) : result matrix :=
  v <- getentry probs 0 i ;;
  if Rgt_dec v 0.5 then setitem p 0 i 1 else setitem p 0 i 0.

(** [parameters['weights']] as the forward pass uses it: [len(None)] raises
    [TypeError]. *)
Definition the_weights (l : option (list ref)) : result (list ref) :=
  match l with
  | Some refs => Ok refs
  | None => Raise TypeError
  end.

(** [parameters['biases']] as the forward pass uses it: it is only indexed,
    once per layer, and [None[i]] raises [TypeError]. *)
Definition the_biases (L : nat) (l : option (list ref)) : result (list ref) :=
  match l with
  | Some refs => Ok refs
  | None => if Nat.eqb L 0 then Ok [] else Raise TypeError
  end.

Definition predict (h : heap) (X : matrix) (y : vector) (params : parameters)
  (activation_functions : activations) : result matrix :=
  let m := ncols X in
  let p := zeros 1 m in
  let best_weights := p_weights params in
  let best_biases := p_biases params in
  ws <- the_weights best_weights ;;
  bs <- the_biases (length ws) best_biases ;;
  '(probs, _) <- model_forward_propagation h X ws bs activation_functions ;;
  for_range (ncols probs) (predict_body probs) p.

(** [l[i]] for any Python integer [i]: negative indices count from the end. *)
Definition py_index {A : Type} (l : list A) (i : Z) : result A :=
  if (0 <=? i)%Z then getitem l (Z.to_nat i)
  else if (- Z.of_nat (length l) <=? i)%Z
       then getitem l (Z.to_nat (Z.of_nat (length l) + i))
       else Raise IndexError.

(** ** Shapes declared by a LayerSpec *)

(** The parameter arrays behind [weights] and [biases] have the shapes that
    the unit counts [units[0..L]] declare: layer [l + 1] has a weight array of
    shape (units[l + 1], units[l]) and a bias array of shape
    (units[l + 1], 1). *)
Definition shaped (h : heap) (units : list nat) (weights biases : list ref)
  : Prop :=
  length units = S (length weights) /\
  length biases = length weights /\
  forall l, (l < length weights)%nat ->
    exists w b W B,
      nth_error weights l = Some w /\ nth_error biases l = Some b /\
      load h w = Ok W /\ load h b = Ok B /\
      shape W = (nth (S l) units O, nth l units O) /\
      shape B = (nth (S l) units O, 1%nat).

(** The four cache lists hold [n] entries each. *)
Definition caches_length (cs : caches) (n : nat) : Prop :=
  length (c_A_prev cs) = n /\ length (c_W cs) = n /\
  length (c_b cs) = n /\ length (c_Z cs) = n.

(** The cache entry at position [l] belongs to layer [l + 1]: it holds the
    parameter arrays of that layer and arrays of the declared shapes, for a
    batch of [m] columns. *)
Definition cache_entry_shaped (h : heap) (units : list nat)
  (weights biases : list ref) (m : nat) (cs : caches) (l : nat) : Prop :=
  exists Ap w b W B Z,
    nth_error (c_A_prev cs) l = Some Ap /\ nth_error (c_W cs) l = Some w /\
    nth_error (c_b cs) l = Some b /\ nth_error (c_Z cs) l = Some Z /\
    nth_error weights l = Some w /\ nth_error biases l = Some b /\
    load h w = Ok W /\ load h b = Ok B /\
    shape Ap = (nth l units O, m) /\
    shape W = (nth (S l) units O, nth l units O) /\
    shape B = (nth (S l) units O, 1%nat) /\
    shape Z = (nth (S l) units O, m).

(** The names that [activation_function] and [derivative_activation] know. *)
Definition known_activation (activation : string) : Prop :=
  activation = "sigmoid"%string \/ activation = "relu"%string \/
  activation = "tanh"%string.

(** Two heaps hold arrays of the same shapes at the same references. *)
Definition same_shapes (h h' : heap) : Prop := map shape h = map shape h'.

(** The gradient lists hold one array per layer, of the shape of that layer's
    weight array and bias array. *)
Definition gradients_shaped (units : list nat) (L : nat) (gs : gradients) : Prop :=
  length (gradients_W gs) = L /\ length (gradients_b gs) = L /\
  forall l, (l < L)%nat ->
    exists dW db,
      nth_error (gradients_W gs) l = Some dW /\
      nth_error (gradients_b gs) l = Some db /\
      shape dW = (nth (S l) units O, nth l units O) /\
      shape db = (nth (S l) units O, 1%nat).

(** Between the heaps [h] and [h'], layer [l + 1] has taken one gradient
    step: its weight array W has become W - learning_rate * dW and its bias
    array b has become b - learning_rate * db, entry by entry, for the
    gradients dW and db at position [l] of [gs], which have the shapes of W
    and b. *)
Definition gradient_step (h h' : heap) (weights biases : list ref)
  (gs : gradients) (learning_rate : R) (l : nat) : Prop :=
  exists w b W B dW db W' B',
    nth_error weights l = Some w /\ nth_error biases l = Some b /\
    nth_error (gradients_W gs) l = Some dW /\
    nth_error (gradients_b gs) l = Some db /\
    load h w = Ok W /\ load h b = Ok B /\
    load h' w = Ok W' /\ load h' b = Ok B' /\
    shape dW = shape W /\ shape db = shape B /\
    shape W' = shape W /\ shape B' = shape B /\
    (forall i j, (i < nrows W)%nat -> (j < ncols W)%nat ->
       entry W' i j = entry W i j - learning_rate * entry dW i j) /\
    (forall i j, (i < nrows B)%nat -> (j < ncols B)%nat ->
       entry B' i j = entry B i j - learning_rate * entry db i j).

(** What the best-so-far fields of the training loop record, after [i]
    turns. *)
Definition best_inv (i : nat) (s : train_state) : Prop :=
  length (t_costs s) = i /\
  (t_best_iteration s = 0%nat ->
   t_best_cost s = 1 /\ t_best_weights s = None /\ t_best_biases s = None /\
   forall c, In c (t_costs s) -> 1 <= c) /\
  ((1 <= t_best_iteration s)%nat ->
   (t_best_iteration s <= i)%nat /\
   nth_error (t_costs s) (t_best_iteration s - 1) = Some (t_best_cost s) /\
   t_best_weights s = Some (t_weights s) /\
   t_best_biases s = Some (t_biases s)) /\
  (forall c, In c (t_costs s) -> t_best_cost s <= c).

(** ** A small network

    One layer with two inputs and one unit, on a batch of three samples. *)

Definition ex_W : matrix := mk_matrix 1 2 (fun _ _ => 1 / 2).
Definition ex_b : matrix := zeros 1 1.
Definition ex_heap : heap := [ex_W; ex_b].
Definition ex_X : matrix := mk_matrix 2 3 (fun i j => INR (i + j)).
Definition ex_y : vector := mk_vector 3 (fun i => INR (i mod 2)).
Definition ex_acts : activations := mk_activations "relu" "sigmoid".

(** A random source that only draws zeros, and an empty heap. *)
Definition ex_rng : rng := fun _ => 0.
Definition ex_empty : heap := [].

(** ** A network with one weight

    One layer from one input to one unit, one sample whose feature is 1, and
    an output activation name that the dispatch does not know. *)

Definition one_X : matrix := mk_matrix 1 1 (fun _ _ => 1).
Definition one_y (y0 : R) : vector := mk_vector 1 (fun _ => y0).
Definition one_acts : activations := mk_activations "relu" "linear".
Definition one_heap (w b : R) : heap :=
  [mk_matrix 1 1 (fun _ _ => w); mk_matrix 1 1 (fun _ _ => b)].

(** A random source that only draws 2. *)
Definition two_rng : rng := fun _ => 2.

(** The same network on a batch of two samples, both labelled 1. *)
Definition pair_X : matrix := mk_matrix 1 2 (fun _ _ => 1).
Definition pair_y : vector := mk_vector 2 (fun _ => 1).

(** ** The loss as the specification writes it *)

(** Binary cross-entropy of the clamped predictions in the first row of [A],
    over the [m] labels of [y]. *)
Definition cross_entropy (y : vector) (A : matrix) : R :=
  - (1 / INR (vlen y)) *
  sum_upto (vlen y)
    (fun i =>
       vnth y i * ln (clip epsilon (1 - epsilon) (entry A 0 i)) +
       (1 - vnth y i) * ln (1 - clip epsilon (1 - epsilon) (entry A 0 i))).

(** The sum over all layers of the sum of the squared weights. *)
Fixpoint sum_squares (Ws : list matrix) : R :=
  match Ws with
  | [] => 0
  | W :: rest => sum_all (mmap (fun x => x * x) W) + sum_squares rest
  end.

(** Cross-entropy plus (lambda / (2 m)) times the squared weights. *)
Definition regularized_loss (lambda_reg : R) (y : vector) (A : matrix)
  (Ws : list matrix) : R :=
  cross_entropy y A + (lambda_reg / (2 * INR (vlen y))) * sum_squares Ws.

(** ** A network with a hidden layer

    One input, a hidden layer of two units and one output unit, all
    parameters zero; the hidden activation name is one that the dispatch does
    not know. *)

Definition deep_heap : heap := [zeros 2 1; zeros 2 1; zeros 1 2; zeros 1 1].
Definition deep_weights : list ref := [0%nat; 2%nat].
Definition deep_biases : list ref := [1%nat; 3%nat].
Definition deep_units : list nat := [1%nat; 2%nat; 1%nat].
Definition deep_acts : activations := mk_activations "identity" "sigmoid".

(** The number of draws that [init_params] takes from the random source for
    the layers before layer [l + 1]. *)
Fixpoint draws_before (layer_units : list Z) (l : nat) : nat :=
  match l with
  | O => O
  | S k =>
      (draws_before layer_units k +
       Z.to_nat (nth (S k) layer_units 0%Z) * Z.to_nat (nth k layer_units 0%Z))%nat
  end.

(** A random source whose draw at position k is k. *)
Definition count_rng : rng := fun k => INR k.

(** * Properties *)

(** ** Loops *)

Section ForLoops.
Context {S : Type}.
Variable body : nat -> S -> result S.

(** A loop whose turns all succeed and keep an invariant succeeds and ends
    in a state that satisfies it. *)
Lemma for_from_total (Inv : nat -> S -> Prop) :
  forall n start s,
    Inv start s ->
    (forall i t, (start <= i < start + n)%nat -> Inv i t ->
                 exists t', body i t = Ok t' /\ Inv (Datatypes.S i) t') ->
    exists s', for_from start n body s = Ok s' /\ Inv (start + n)%nat s'.
Proof.
  induction n as [|n IH]; intros start s Hs Hstep; simpl.
  - exists s. rewrite Nat.add_0_r. auto.
  - destruct (Hstep start s) as [t [Hb Ht]]; [lia | assumption |].
    rewrite Hb. simpl.
    destruct (IH (Datatypes.S start) t Ht) as [s' [Hr Hi]].
    + intros i u Hi Hu. apply Hstep; [lia | assumption].
    + exists s'. split; [assumption|].
      replace (start + Datatypes.S n)%nat with (Datatypes.S start + n)%nat by lia.
      assumption.
Qed.

(** A loop that ends normally ends in a state that satisfies every
    invariant of its turns. *)
Lemma for_from_partial (Inv : nat -> S -> Prop) :
  forall n start s s',
    Inv start s ->
    (forall i t t', (start <= i < start + n)%nat -> Inv i t ->
                    body i t = Ok t' -> Inv (Datatypes.S i) t') ->
    for_from start n body s = Ok s' ->
    Inv (start + n)%nat s'.
Proof.
  induction n as [|n IH]; intros start s s' Hs Hstep Hrun; simpl in Hrun.
  - inversion Hrun; subst. rewrite Nat.add_0_r. assumption.
  - destruct (body start s) as [t|e] eqn:Hb; simpl in Hrun; [|discriminate].
    replace (start + Datatypes.S n)%nat with (Datatypes.S start + n)%nat by lia.
    apply (IH (Datatypes.S start) t s'); [| |assumption].
    + apply (Hstep start s t); [lia | assumption | assumption].
    + intros i u u' Hi Hu Hbu. apply (Hstep i u u'); [lia | assumption | assumption].
Qed.

Lemma for_from_S :
  forall n start s,
    for_from start (Datatypes.S n) body s =
    (t <- body start s ;; for_from (Datatypes.S start) n body t).
Proof. reflexivity. Qed.

(** A loop is its first turns followed by the rest. *)
Lemma for_from_app :
  forall a b start s,
    for_from start (a + b) body s =
    (t <- for_from start a body s ;; for_from (start + a)%nat b body t).
Proof.
  induction a as [|a IH]; intros b start s.
  - simpl. rewrite Nat.add_0_r. reflexivity.
  - change (Datatypes.S a + b)%nat with (Datatypes.S (a + b)).
    rewrite !for_from_S.
    destruct (body start s) as [t|e]; cbn [bind]; [|reflexivity].
    rewrite IH. replace (Datatypes.S start + a)%nat with (start + Datatypes.S a)%nat by lia.
    reflexivity.
Qed.

(** One more turn. *)
Lemma for_from_snoc :
  forall n start s,
    for_from start (Datatypes.S n) body s =
    (t <- for_from start n body s ;; body (start + n)%nat t).
Proof.
  induction n as [|n IH]; intros start s.
  - simpl. rewrite Nat.add_0_r. destruct (body start s); reflexivity.
  - rewrite for_from_S. rewrite (for_from_S n start).
    destruct (body start s) as [t|e]; cbn [bind]; [|reflexivity].
    rewrite IH.
    replace (Datatypes.S start + n)%nat with (start + Datatypes.S n)%nat by lia.
    reflexivity.
Qed.

End ForLoops.

(** ** Exceptions and array shapes *)

Lemma bind_ok {A B : Type} (c : result A) (k : A -> result B) (b : B) :
  bind c k = Ok b -> exists a, c = Ok a /\ k a = Ok b.
Proof.
  destruct c as [a|e]; simpl; intros H; [|discriminate].
  exists a. auto.
Qed.

Lemma py_assert_ok (c : bool) (u : unit) : py_assert c = Ok u -> c = true.
Proof. destruct c; simpl; [reflexivity | discriminate]. Qed.

Lemma shape_eqb_eq (s t : nat * nat) : shape_eqb s t = true <-> s = t.
Proof.
  destruct s as [a b], t as [c d]. unfold shape_eqb. simpl.
  rewrite andb_true_iff, !Nat.eqb_eq. split.
  - intros [-> ->]. reflexivity.
  - intros H. inversion H. auto.
Qed.

Lemma shape_eqb_refl (s : nat * nat) : shape_eqb s s = true.
Proof. apply shape_eqb_eq. reflexivity. Qed.

(** Takes a hypothesis [c1 ;; c2 ;; ... = Ok v] apart. *)
Ltac inv_ok H :=
  repeat match type of H with
  | bind _ _ = Ok _ =>
      let a := fresh "a" in
      let Ha := fresh "Ha" in
      apply bind_ok in H; destruct H as [a [Ha H]]
  | (let '(_, _) := ?p in _) = Ok _ => destruct p
  | Ok _ = Ok _ => inversion H; subst; clear H
  end.

(** Reads [shape M = (r, c)] as two equations. *)
Ltac shape_eqs H Hr Hc :=
  pose proof (f_equal fst H) as Hr; pose proof (f_equal snd H) as Hc;
  cbn [fst snd shape] in Hr, Hc.

Lemma bdim_same (a : nat) : bdim a a = Ok a.
Proof. unfold bdim. rewrite Nat.eqb_refl. reflexivity. Qed.

Lemma bdim_1_r (a : nat) : bdim a 1 = Ok a.
Proof.
  unfold bdim. destruct (Nat.eqb_spec a 1) as [->|_]; [reflexivity|].
  reflexivity.
Qed.

Lemma bdim_1_l (b : nat) : bdim 1 b = Ok b.
Proof.
  unfold bdim. destruct (Nat.eqb_spec 1 b) as [<-|_]; reflexivity.
Qed.

Lemma shape_mmap (f : R -> R) (M : matrix) : shape (mmap f M) = shape M.
Proof. reflexivity. Qed.

Lemma dot_shape (A B : matrix) :
  ncols A = nrows B ->
  exists C, dot A B = Ok C /\ shape C = (nrows A, ncols B).
Proof.
  intros H. unfold dot. rewrite H, Nat.eqb_refl.
  eexists. split; reflexivity.
Qed.

Lemma map2_shape_same (f : R -> R -> R) (A B : matrix) :
  shape A = shape B ->
  exists C, map2 f A B = Ok C /\ shape C = shape A.
Proof.
  unfold shape. intros H. inversion H as [[Hr Hc]].
  unfold map2. rewrite <- Hr, <- Hc, !bdim_same. simpl.
  eexists. split; reflexivity.
Qed.

Lemma activation_function_shape (Z : matrix) (activation : string) :
  shape (activation_function Z activation) = shape Z.
Proof.
  unfold activation_function.
  destruct (String.eqb activation "sigmoid"); [reflexivity|].
  destruct (String.eqb activation "relu"); [reflexivity|].
  destruct (String.eqb activation "tanh"); reflexivity.
Qed.

Lemma activation_function_ncols (Z : matrix) (activation : string) :
  ncols (activation_function Z activation) = ncols Z.
Proof.
  pose proof (activation_function_shape Z activation) as H.
  inversion H. reflexivity.
Qed.

(** A linear step that does not raise yields the asserted shape. *)
Lemma linear_forward_ok (A W b Z : matrix) :
  linear_forward A W b = Ok Z -> shape Z = (nrows W, ncols A).
Proof.
  unfold linear_forward. intros H. inv_ok H.
  apply py_assert_ok in Ha1. apply shape_eqb_eq in Ha1. assumption.
Qed.

(** A linear step on operands of matching shapes does not raise. *)
Lemma linear_forward_total (A W b : matrix) :
  ncols W = nrows A -> shape b = (nrows W, 1%nat) ->
  exists Z, linear_forward A W b = Ok Z /\ shape Z = (nrows W, ncols A).
Proof.
  intros HW Hb. unfold linear_forward.
  destruct (dot_shape W A HW) as [C [-> HC]]. cbn [bind].
  inversion HC as [[Hr Hc]]. inversion Hb as [[Hbr Hbc]].
  unfold map2. rewrite Hr, Hbr, Hc, Hbc, bdim_same, bdim_1_r. cbn [bind].
  unfold shape at 1. cbn [nrows ncols]. rewrite shape_eqb_refl. cbn [py_assert bind].
  eexists. split; reflexivity.
Qed.

Lemma getitem_ok {A : Type} (l : list A) (i : nat) (a : A) :
  getitem l i = Ok a <-> nth_error l i = Some a.
Proof.
  unfold getitem. destruct (nth_error l i); split; intros H;
    inversion H; reflexivity.
Qed.

Lemma nth_error_snoc_lt {A : Type} (l : list A) (x : A) (i : nat) :
  (i < length l)%nat -> nth_error (l ++ [x]) i = nth_error l i.
Proof. intros H. apply nth_error_app1. assumption. Qed.

Lemma nth_error_snoc_eq {A : Type} (l : list A) (x : A) :
  nth_error (l ++ [x]) (length l) = Some x.
Proof. rewrite nth_error_app2, Nat.sub_diag by lia. reflexivity. Qed.

(** ** The array model on small inputs *)

Example bdim_stretches : bdim 3 1 = Ok 3%nat /\ bdim 1 4 = Ok 4%nat.
Proof. split; reflexivity. Qed.

Example bdim_mismatch : bdim 2 3 = Raise ValueError.
Proof. reflexivity. Qed.

Example dot_mismatch : dot (zeros 2 3) (zeros 2 3) = Raise ValueError.
Proof. reflexivity. Qed.

Example bias_broadcasts :
  exists Z, linear_forward ex_X ex_W ex_b = Ok Z /\ shape Z = (1%nat, 3%nat).
Proof. eexists. split; reflexivity. Qed.

Example py_index_last : py_index [1%Z; 2%Z; 3%Z] (-1) = Ok 3%Z.
Proof. reflexivity. Qed.

Example py_index_out_of_range : py_index [1%Z; 2%Z; 3%Z] (-4) = Raise IndexError.
Proof. reflexivity. Qed.

Example row0_of_empty : row0 (zeros 0 3) = Raise IndexError.
Proof. reflexivity. Qed.

(** ** Forward propagation *)

Section Forward.
Variables (h : heap) (units : list nat) (weights biases : list ref).
Variables (acts : activations) (m : nat).
Hypothesis Hshaped : shaped h units weights biases.

Let fwd_inv (i : nat) (s : matrix * caches) : Prop :=
  shape (fst s) = (nth i units O, m) /\
  caches_length (snd s) i /\
  forall l, (l < i)%nat ->
    cache_entry_shaped h units weights biases m (snd s) l.

Lemma model_forward_body_step (i : nat) (s : matrix * caches) :
  (i < length weights)%nat -> fwd_inv i s ->
  exists s',
    model_forward_body h weights biases acts (length weights) i s = Ok s' /\
    fwd_inv (S i) s'.
Proof.
  intros Hi [HA [[L1 [L2 [L3 L4]]] Hcs]]. destruct s as [A cs]. simpl in *.
  destruct Hshaped as [_ [_ Hl]].
  destruct (Hl i Hi) as [w [b [W [B [Hw [Hb [HW [HB [SW SB]]]]]]]]].
  rewrite (proj2 (getitem_ok _ _ _) Hw), (proj2 (getitem_ok _ _ _) Hb).
  cbn [bind]. rewrite HW, HB. cbn [bind].
  inversion SW as [[SWr SWc]]. inversion HA as [[HAr HAc]].
  destruct (linear_forward_total A W B) as [Z [HZ SZ]].
  { rewrite SWc, HAr. reflexivity. }
  { rewrite SB, SWr. reflexivity. }
  unfold forward_propagation. rewrite HZ. cbn [bind].
  eexists. split; [reflexivity|]. unfold fwd_inv. simpl.
  split; [|split].
  - rewrite activation_function_shape, SZ, SWr, HAc. reflexivity.
  - unfold caches_length. simpl. rewrite !length_app. simpl. lia.
  - intros l Hlt. destruct (Nat.eq_dec l i) as [->|Hne].
    + exists A, w, b, W, B, Z. simpl.
      rewrite <- L1 at 1. rewrite <- L2 at 1. rewrite <- L3 at 1. rewrite <- L4 at 1.
      rewrite !nth_error_snoc_eq. rewrite SZ, SWr, HAc.
      repeat split; auto.
    + assert (Hl' : (l < i)%nat) by lia.
      destruct (Hcs l Hl') as [Ap [w' [b' [W' [B' [Z' E]]]]]].
      exists Ap, w', b', W', B', Z'. simpl.
      rewrite !nth_error_snoc_lt by lia. exact E.
Qed.

Lemma model_forward_total (X : matrix) :
  shape X = (nth 0 units O, m) ->
  exists A cs,
    model_forward_propagation h X weights biases acts = Ok (A, cs) /\
    fwd_inv (length weights) (A, cs).
Proof.
  intros HX. unfold model_forward_propagation, for_range.
  destruct (for_from_total
              (model_forward_body h weights biases acts (length weights))
              fwd_inv (length weights) 0 (X, mk_caches [] [] [] []))
    as [[A cs] [Hrun Hinv]].
  - unfold fwd_inv, caches_length. simpl. repeat split; auto. intros l Hl. lia.
  - intros i t Hi Ht. apply model_forward_body_step; [lia | assumption].
  - exists A, cs. split; assumption.
Qed.
End Forward.

(** A forward pass that does not raise keeps the number of columns. *)
Lemma model_forward_ncols (h : heap) (X : matrix) (weights biases : list ref)
  (acts : activations) (A : matrix) (cs : caches) :
  model_forward_propagation h X weights biases acts = Ok (A, cs) ->
  ncols A = ncols X.
Proof.
  unfold model_forward_propagation, for_range. intros H.
  apply (for_from_partial
           (model_forward_body h weights biases acts (length weights))
           (fun _ s => ncols (fst s) = ncols X)
           (length weights) 0 (X, mk_caches [] [] [] []) (A, cs)); auto.
  intros i [A1 c1] [A2 c2] _ Hinv Hb. simpl in *.
  inv_ok Hb.
  match goal with
  | H : forward_propagation _ _ _ _ = Ok _ |- _ =>
      unfold forward_propagation in H; inv_ok H
  end.
  match goal with
  | H : linear_forward _ _ _ = Ok _ |- _ =>
      apply linear_forward_ok in H; inversion H as [[Hr Hc]]
  end.
  simpl. rewrite activation_function_ncols, Hc. assumption.
Qed.

(** C8: for unit counts units[0..L], parameter arrays of the shapes they
    declare and an input of shape (units[0], m), the forward pass returns an
    output of shape (units[L], m) and one cache entry per layer, in layer
    order: the entry of layer l holds A_prev of shape (units[l-1], m), the
    weight array of shape (units[l], units[l-1]), the bias array of shape
    (units[l], 1) and Z of shape (units[l], m). *)
Theorem forward_pass_shapes (h : heap) (units : list nat)
  (weights biases : list ref) (acts : activations) (m : nat) (X : matrix) :
  shaped h units weights biases ->
  shape X = (nth 0 units O, m) ->
  exists A cs,
    model_forward_propagation h X weights biases acts = Ok (A, cs) /\
    shape A = (nth (length weights) units O, m) /\
    caches_length cs (length weights) /\
    forall l, (l < length weights)%nat ->
      cache_entry_shaped h units weights biases m cs l.
Proof.
  intros Hs HX.
  destruct (model_forward_total h units weights biases acts m Hs X HX)
    as [A [cs [Hrun [HA [Hlen Hcs]]]]].
  exists A, cs. simpl in *. auto.
Qed.

Lemma ex_shaped : shaped ex_heap [2; 1]%nat [0%nat] [1%nat].
Proof.
  split; [reflexivity|]. split; [reflexivity|].
  intros l Hl. destruct l as [|l]; [|simpl in Hl; lia].
  exists 0%nat, 1%nat, ex_W, ex_b. repeat split; reflexivity.
Qed.

Lemma forward_pass_shapes_witness :
  exists A cs,
    model_forward_propagation ex_heap ex_X [0%nat] [1%nat] ex_acts = Ok (A, cs) /\
    shape A = (1%nat, 3%nat) /\
    caches_length cs 1 /\
    forall l, (l < 1)%nat ->
      cache_entry_shaped ex_heap [2; 1]%nat [0%nat] [1%nat] 3 cs l.
Proof.
  apply (forward_pass_shapes ex_heap [2; 1]%nat [0%nat] [1%nat] ex_acts 3 ex_X).
  - exact ex_shaped.
  - reflexivity.
Defined.

(** ** Prediction *)

Lemma predict_body_step (probs : matrix) (n : nat) (i : nat) (p : matrix) :
  (0 < nrows probs)%nat -> (i < ncols probs)%nat -> ncols probs = n ->
  shape p = (1%nat, n) ->
  exists p',
    predict_body probs i p = Ok p' /\
    shape p' = (1%nat, n) /\
    (entry probs 0 i > 0.5 -> entry p' 0 i = 1) /\
    (~ entry probs 0 i > 0.5 -> entry p' 0 i = 0) /\
    (forall k, k <> i -> entry p' 0 k = entry p 0 k).
Proof.
  intros Hr Hi Hn Hp. inversion Hp as [[Hpr Hpc]].
  unfold predict_body, getentry.
  replace (Nat.ltb 0 (nrows probs)) with true by (symmetry; apply Nat.ltb_lt; lia).
  replace (Nat.ltb i (ncols probs)) with true by (symmetry; apply Nat.ltb_lt; lia).
  cbn [andb bind]. unfold setitem. rewrite Hpr, Hpc.
  replace (Nat.ltb 0 1) with true by reflexivity.
  replace (Nat.ltb i n) with true by (symmetry; apply Nat.ltb_lt; lia).
  cbn [andb].
  destruct (Rgt_dec (entry probs 0 i) 0.5) as [Hgt|Hle];
    (eexists; split; [reflexivity|]; cbn [shape nrows ncols entry];
     cbn [Nat.eqb andb]; rewrite Nat.eqb_refl;
     split; [reflexivity|]; split; [|split];
     [ intros; tauto || reflexivity
     | intros; tauto || reflexivity
     | intros k Hk; replace (Nat.eqb k i) with false
         by (symmetry; apply Nat.eqb_neq; assumption); reflexivity ]).
Qed.

(** C6: when the forward pass yields a probability array with a first row,
    [predict] returns an array of shape (1, m), for m the number of columns
    of X, whose entry at column i is 1 when the probability at column i is
    greater than 0.5 and 0 when it is not. *)
Theorem predict_threshold (h : heap) (X : matrix) (y : vector)
  (ws bs : list ref) (acts : activations) (probs : matrix) (cs : caches) :
  model_forward_propagation h X ws bs acts = Ok (probs, cs) ->
  (0 < nrows probs)%nat ->
  exists p,
    predict h X y (mk_parameters (Some ws) (Some bs)) acts = Ok p /\
    shape p = (1%nat, ncols X) /\
    forall i, (i < ncols X)%nat ->
      (entry probs 0 i > 0.5 -> entry p 0 i = 1) /\
      (~ entry probs 0 i > 0.5 -> entry p 0 i = 0).
Proof.
  intros Hf Hr. pose proof (model_forward_ncols _ _ _ _ _ _ _ Hf) as Hc.
  unfold predict. cbn [p_weights p_biases the_weights the_biases bind].
  rewrite Hf. cbn [bind]. unfold for_range.
  destruct (for_from_total (predict_body probs)
              (fun i p => shape p = (1%nat, ncols X) /\
                 forall k, (k < i)%nat ->
                   (entry probs 0 k > 0.5 -> entry p 0 k = 1) /\
                   (~ entry probs 0 k > 0.5 -> entry p 0 k = 0))
              (ncols probs) 0 (zeros 1 (ncols X)))
    as [p [Hrun [Hs Hp]]].
  - split; [reflexivity|]. intros k Hk. lia.
  - intros i t Hi [Hts Ht].
    destruct (predict_body_step probs (ncols X) i t) as [t' [E [S' [P1 [P0 Pk]]]]];
      [assumption | lia | assumption | assumption |].
    exists t'. split; [assumption|]. split; [assumption|].
    intros k Hk. destruct (Nat.eq_dec k i) as [->|Hne].
    + split; assumption.
    + rewrite (Pk k Hne). apply Ht. lia.
  - exists p. split; [assumption|]. split; [assumption|].
    intros i Hi. apply Hp. simpl. lia.
Qed.

Lemma predict_threshold_witness :
  exists probs p,
    predict ex_heap ex_X ex_y (mk_parameters (Some [0%nat]) (Some [1%nat]))
      ex_acts = Ok p /\
    shape p = (1%nat, 3%nat) /\
    forall i, (i < 3)%nat ->
      (entry probs 0 i > 0.5 -> entry p 0 i = 1) /\
      (~ entry probs 0 i > 0.5 -> entry p 0 i = 0).
Proof.
  eexists.
  eapply (predict_threshold ex_heap ex_X ex_y [0%nat] [1%nat] ex_acts).
  - reflexivity.
  - simpl. lia.
Defined.

(** C10: the array returned by [predict] is the same for any two label
    arguments y. *)
Theorem predict_ignores_labels (h : heap) (X : matrix) (y1 y2 : vector)
  (params : parameters) (acts : activations) :
  predict h X y1 params acts = predict h X y2 params acts.
Proof. reflexivity. Qed.

(** ** Activation dispatch *)

(** C7: for an activation name other than sigmoid, relu and tanh, the forward
    dispatch returns Z itself and the derivative dispatch returns the number
    1; neither can raise. *)
Theorem unknown_activation_is_identity (Z : matrix) (activation : string) :
  activation <> "sigmoid"%string ->
  activation <> "relu"%string ->
  activation <> "tanh"%string ->
  activation_function Z activation = Z /\
  derivative_activation Z activation = Scalar 1.
Proof.
  intros Hs Hr Ht. unfold activation_function, derivative_activation.
  apply String.eqb_neq in Hs, Hr, Ht. rewrite Hs, Hr, Ht. split; reflexivity.
Qed.

Lemma unknown_activation_is_identity_witness :
  activation_function (zeros 2 3) "linear" = zeros 2 3 /\
  derivative_activation (zeros 2 3) "linear" = Scalar 1.
Proof.
  apply (unknown_activation_is_identity (zeros 2 3) "linear");
    intros H; discriminate H.
Defined.

(** ** Parameter initialization *)

Lemma load_alloc_new (h : heap) (M : matrix) :
  load (snd (alloc h M)) (fst (alloc h M)) = Ok M.
Proof. unfold load, alloc. simpl. rewrite nth_error_snoc_eq. reflexivity. Qed.

Lemma load_alloc_old (h : heap) (M N : matrix) (r : ref) :
  load h r = Ok N -> load (snd (alloc h M)) r = Ok N.
Proof.
  unfold load, alloc. simpl. destruct (nth_error h r) eqn:E; [|discriminate].
  intros H. rewrite nth_error_app1; [rewrite E; assumption|].
  apply nth_error_Some. rewrite E. discriminate.
Qed.

Lemma shape_refused_false (m n : Z) :
  shape_refused m n = false ->
  (0 <= m)%Z /\ (0 <= n)%Z /\ shape_refused m 1 = false.
Proof.
  unfold shape_refused, max_intp. intros H.
  apply orb_false_iff in H. destruct H as [H H5].
  apply orb_false_iff in H. destruct H as [H H4].
  apply orb_false_iff in H. destruct H as [H H3].
  apply orb_false_iff in H. destruct H as [H1 H2].
  apply Z.ltb_ge in H1, H2, H3, H4, H5.
  split; [assumption|]. split; [assumption|].
  rewrite !orb_false_iff. cbn [Z.eqb].
  repeat split; apply Z.ltb_ge; try lia.
  destruct (m =? 0)%Z; [lia|].
  destruct (n =? 0)%Z eqn:En; [lia|].
  apply Z.eqb_neq in En. nia.
Qed.

Lemma shape_refused_negative (m n : Z) :
  (m < 0 \/ n < 0)%Z -> shape_refused m n = true.
Proof.
  intros H. unfold shape_refused.
  destruct (Z.ltb_spec m 0); [reflexivity|].
  destruct (Z.ltb_spec n 0); [reflexivity|]. lia.
Qed.

Lemma randn_ok (m n : Z) (g : rng) :
  shape_refused m n = false ->
  exists M g', randn m n g = Ok (M, g') /\ shape M = (Z.to_nat m, Z.to_nat n).
Proof.
  intros H. unfold randn. rewrite H. eexists. eexists. split; reflexivity.
Qed.

Lemma randn_refused (m n : Z) (g : rng) :
  shape_refused m n = true -> randn m n g = Raise ValueError.
Proof. intros H. unfold randn. rewrite H. reflexivity. Qed.

Lemma randn_negative (m n : Z) (g : rng) :
  (m < 0 \/ n < 0)%Z -> randn m n g = Raise ValueError.
Proof. intros H. apply randn_refused. apply shape_refused_negative. exact H. Qed.

(** [np.random.randn] returns exactly for the shapes that numpy does not
    refuse. *)
Lemma randn_returns_iff (m n : Z) (g : rng) :
  (exists M g', randn m n g = Ok (M, g')) <-> shape_refused m n = false.
Proof.
  split.
  - intros [M [g' H]]. unfold randn in H.
    destruct (shape_refused m n); [discriminate|reflexivity].
  - intros H. destruct (randn_ok m n g H) as [M [g' [E _]]]. exists M, g'. exact E.
Qed.

(** A loop stops with the exception of the first turn that raises, when the
    turns before it either go through or raise the same exception. *)
Lemma for_from_raises {T : Type} (body : nat -> T -> result T)
  (Inv : nat -> T -> Prop) (e : exn) (k : nat) :
  (forall t, body k t = Raise e) ->
  forall n start s,
    (start <= k < start + n)%nat ->
    Inv start s ->
    (forall i t, (start <= i < k)%nat -> Inv i t ->
       (exists t', body i t = Ok t' /\ Inv (S i) t') \/ body i t = Raise e) ->
    for_from start n body s = Raise e.
Proof.
  intros Hbad n. induction n as [|n IH]; intros start s Hk Hs Hstep; [lia|].
  rewrite for_from_S.
  destruct (Nat.eq_dec start k) as [->|Hne].
  - rewrite Hbad. reflexivity.
  - destruct (Hstep start s) as [[t' [E I]]|E]; [lia | assumption | |].
    + rewrite E. cbn [bind]. apply IH; [lia | assumption |].
      intros i t Hi. apply Hstep. lia.
    + rewrite E. reflexivity.
Qed.

(** Every turn of a loop that ends normally has ended normally. *)
Lemma for_from_turn {T : Type} (body : nat -> T -> result T) (n start : nat)
  (s s' : T) (k : nat) :
  for_from start n body s = Ok s' ->
  (start <= k < start + n)%nat ->
  exists t t', body k t = Ok t'.
Proof.
  revert start s. induction n as [|n IH]; intros start s H Hk; [lia|].
  rewrite for_from_S in H. apply bind_ok in H. destruct H as [t1 [Hb Hr]].
  destruct (Nat.eq_dec k start) as [->|Hne].
  - exists s, t1. exact Hb.
  - apply (IH (S start) t1); [exact Hr | lia].
Qed.

Section InitParams.
Variable layer_units : list Z.

Let unit_at (l : nat) : nat := Z.to_nat (nth l layer_units 0%Z).

Let init_inv (i : nat) (s : init_state) : Prop :=
  length (i_weights s) = i /\ length (i_biases s) = i /\
  forall l, (l < i)%nat ->
    exists w b W B,
      nth_error (i_weights s) l = Some w /\
      nth_error (i_biases s) l = Some b /\
      load (i_heap s) w = Ok W /\ load (i_heap s) b = Ok B /\
      shape W = (unit_at (S l), unit_at l) /\
      shape B = (unit_at (S l), 1%nat) /\
      forall r c, entry B r c = 0.

Lemma getitem_nth (l : nat) :
  (l < length layer_units)%nat ->
  getitem layer_units l = Ok (nth l layer_units 0%Z).
Proof.
  intros H. apply getitem_ok. apply nth_error_nth'. assumption.
Qed.

(** A turn goes through when numpy accepts the shape of the weight array;
    the bias array is then accepted too, and the two assertions hold. *)
Lemma init_params_body_ok (i : nat) (s : init_state) :
  (S i < length layer_units)%nat ->
  shape_refused (nth (S i) layer_units 0%Z) (nth i layer_units 0%Z) = false ->
  init_inv i s ->
  exists s', init_params_body layer_units i s = Ok s' /\ init_inv (S i) s'.
Proof.
  intros Hi Hacc [Lw [Lb Hl]]. unfold init_params_body.
  destruct (shape_refused_false _ _ Hacc) as [Hm [Hn Hacc1]].
  rewrite (getitem_nth (S i)) by lia. cbn [bind].
  replace (S i - 1)%nat with i by lia.
  rewrite (getitem_nth i) by lia. cbn [bind].
  unfold init_random_weights.
  destruct (randn_ok _ _ (i_rng s) Hacc) as [M [g' [-> SM]]]. cbn [bind].
  set (W := mmap (fun x => x / sqrt (IZR (nth i layer_units 0%Z))) M).
  pose proof (load_alloc_new (i_heap s) W) as LW.
  destruct (alloc (i_heap s) W) as [rw h1] eqn:E1. simpl in LW.
  unfold init_zeros. rewrite Hacc1. cbn [bind].
  set (B := zeros (Z.to_nat (nth (S i) layer_units 0%Z)) 1).
  pose proof (load_alloc_new h1 B) as LB.
  pose proof (load_alloc_old h1 B W rw LW) as LW2.
  destruct (alloc h1 B) as [rb h2] eqn:E2. simpl in LB, LW2.
  assert (Gw : getitem (i_weights s ++ [rw]) i = Ok rw)
    by (apply getitem_ok; rewrite <- Lw; apply nth_error_snoc_eq).
  assert (Gb : getitem (i_biases s ++ [rb]) i = Ok rb)
    by (apply getitem_ok; rewrite <- Lb; apply nth_error_snoc_eq).
  rewrite Gw. cbn [bind]. rewrite LW2. cbn [bind].
  assert (SW : shape W = (unit_at (S i), unit_at i)) by exact SM.
  assert (SWr : nrows W = unit_at (S i)) by exact (f_equal fst SW).
  assert (SWc : ncols W = unit_at i) by exact (f_equal snd SW).
  assert (A1 : shape_is W (nth (S i) layer_units 0%Z) (nth i layer_units 0%Z) = true).
  { unfold shape_is. rewrite SWr, SWc. unfold unit_at. rewrite !Z2Nat.id by assumption.
    rewrite !Z.eqb_refl. reflexivity. }
  assert (A2 : shape_is B (nth (S i) layer_units 0%Z) 1 = true).
  { unfold shape_is, B. simpl. rewrite Z2Nat.id by assumption.
    rewrite Z.eqb_refl. reflexivity. }
  rewrite A1. cbn [py_assert bind]. rewrite Gb. cbn [bind]. rewrite LB. cbn [bind].
  rewrite A2. cbn [py_assert bind].
  eexists. split; [reflexivity|]. unfold init_inv. cbn [i_weights i_biases i_heap].
  rewrite !length_app. simpl. split; [lia|]. split; [lia|].
  intros l Hlt. destruct (Nat.eq_dec l i) as [->|Hne].
  - exists rw, rb, W, B.
    apply getitem_ok in Gw, Gb. repeat split; auto.
  - destruct (Hl l) as [w [b [W0 [B0 [H1 [H2 [H3 [H4 H5]]]]]]]]; [lia|].
    exists w, b, W0, B0. rewrite !nth_error_snoc_lt by lia.
    split; [assumption|]. split; [assumption|].
    split.
    { pose proof (load_alloc_old h1 B W0 w) as P. rewrite E2 in P. apply P.
      pose proof (load_alloc_old (i_heap s) W W0 w H3) as Q. rewrite E1 in Q. exact Q. }
    split; [|assumption].
    pose proof (load_alloc_old h1 B B0 b) as P. rewrite E2 in P. apply P.
    pose proof (load_alloc_old (i_heap s) W B0 b H4) as Q. rewrite E1 in Q. exact Q.
Qed.

Lemma init_params_body_refused (i : nat) (s : init_state) :
  (S i < length layer_units)%nat ->
  shape_refused (nth (S i) layer_units 0%Z) (nth i layer_units 0%Z) = true ->
  init_params_body layer_units i s = Raise ValueError.
Proof.
  intros Hi Hneg. unfold init_params_body.
  rewrite (getitem_nth (S i)) by lia. cbn [bind].
  replace (S i - 1)%nat with i by lia.
  rewrite (getitem_nth i) by lia. cbn [bind].
  unfold init_random_weights. rewrite randn_refused by assumption. reflexivity.
Qed.

Lemma init_params_body_negative (i : nat) (s : init_state) :
  (S i < length layer_units)%nat ->
  (nth i layer_units 0 < 0 \/ nth (S i) layer_units 0 < 0)%Z ->
  init_params_body layer_units i s = Raise ValueError.
Proof.
  intros Hi Hneg. apply init_params_body_refused; [assumption|].
  apply shape_refused_negative. tauto.
Qed.

(** The loop runs through when numpy accepts the shape of every layer's
    weight array. *)
Lemma init_params_total (h : heap) (g : rng) :
  (forall l, (S l < length layer_units)%nat ->
     shape_refused (nth (S l) layer_units 0%Z) (nth l layer_units 0%Z) = false) ->
  exists s, init_params layer_units h g = Ok s /\
            init_inv (length layer_units - 1) s.
Proof.
  intros Hall. unfold init_params, for_range.
  destruct (for_from_total (init_params_body layer_units) init_inv
              (length layer_units - 1) 0
              (mk_init_state [] [] h g)) as [s [Hrun Hinv]].
  - unfold init_inv. simpl. repeat split; auto. intros l Hl. lia.
  - intros i t Hi Ht. apply init_params_body_ok; try assumption; [lia|].
    apply Hall. lia.
  - exists s. split; assumption.
Qed.

Lemma init_params_raises (h : heap) (g : rng) :
  (2 <= length layer_units)%nat ->
  (exists u, In u layer_units /\ (u < 0)%Z) ->
  init_params layer_units h g = Raise ValueError.
Proof.
  intros Hlen [u [Hin Hu]].
  destruct (In_nth _ _ 0%Z Hin) as [p [Hp Hneg]].
  (* the turn that reads the negative count *)
  set (k := (p - 1)%nat).
  assert (Hk : (S k < length layer_units)%nat) by (unfold k; lia).
  assert (Hbad : (nth k layer_units 0 < 0 \/ nth (S k) layer_units 0 < 0)%Z).
  { destruct p as [|p]; [left; simpl in k; subst k; lia|].
    right. unfold k. replace (S (S p - 1))%nat with (S p) by lia. lia. }
  unfold init_params, for_range.
  apply (for_from_raises (init_params_body layer_units) init_inv ValueError k).
  - intros t. apply init_params_body_negative; assumption.
  - lia.
  - unfold init_inv. simpl. repeat split; auto. intros l Hl. lia.
  - intros i t Hi Ht.
    destruct (shape_refused (nth (S i) layer_units 0%Z) (nth i layer_units 0%Z)) eqn:E.
    + right. apply init_params_body_refused; [lia | exact E].
    + left. apply init_params_body_ok; [lia | exact E | exact Ht].
Qed.
End InitParams.

(** A unit count of 2^63 is refused, one of 0 is not. *)
Example init_params_refuses_huge_count :
  init_params [(2 ^ 63)%Z; 1%Z] ex_empty ex_rng = Raise ValueError /\
  init_params [1%Z; (2 ^ 63)%Z] ex_empty ex_rng = Raise ValueError /\
  init_params [(2 ^ 60)%Z; 1%Z] ex_empty ex_rng = Raise ValueError /\
  exists s, init_params [0%Z; 3%Z] ex_empty ex_rng = Ok s.
Proof.
  split; [reflexivity|]. split; [reflexivity|]. split; [reflexivity|].
  eexists. reflexivity.
Qed.

(** What one turn of the loop of [init_params] does when it does not raise. *)
Lemma init_params_body_inv (layer_units : list Z) (i : nat) (s s' : init_state) :
  init_params_body layer_units i s = Ok s' ->
  let m := nth (S i) layer_units 0%Z in
  let n := nth i layer_units 0%Z in
  (0 <= m)%Z /\ (0 <= n)%Z /\
  i_weights s' = i_weights s ++ [length (i_heap s)] /\
  i_biases s' = i_biases s ++ [S (length (i_heap s))] /\
  i_heap s' =
    i_heap s ++
    [mmap (fun x => x / sqrt (IZR n))
       (mk_matrix (Z.to_nat m) (Z.to_nat n)
          (fun r c => i_rng s (r * Z.to_nat n + c)%nat));
     zeros (Z.to_nat m) 1] /\
  i_rng s' = (fun k => i_rng s (k + Z.to_nat m * Z.to_nat n)%nat).
Proof.
  unfold init_params_body, init_random_weights, randn, init_zeros, alloc.
  intros H.
  apply bind_ok in H. destruct H as [m [Hm H]].
  apply bind_ok in H. destruct H as [n [Hn H]].
  apply getitem_ok in Hm, Hn. replace (S i - 1)%nat with i in Hn by lia.
  apply (nth_error_nth _ _ 0%Z) in Hm. apply (nth_error_nth _ _ 0%Z) in Hn.
  rewrite Hm, Hn. cbv zeta.
  destruct (shape_refused m n) eqn:Eacc; [discriminate|].
  destruct (shape_refused_false m n Eacc) as [Em [En Eacc1]].
  cbn [bind] in H. rewrite Eacc1 in H. cbn [bind] in H.
  inv_ok H. cbn [i_weights i_biases i_heap i_rng].
  rewrite length_app, <- app_assoc. cbn [length app].
  replace (length (i_heap s) + 1)%nat with (S (length (i_heap s))) by lia.
  repeat split; auto.
Qed.

(** The layout that [init_params] leaves: where the new arrays are, what they
    hold and how far the random source has moved. *)
Lemma init_params_layout (layer_units : list Z) (h : heap) (g : rng)
  (s : init_state) :
  init_params layer_units h g = Ok s ->
  let L := (length layer_units - 1)%nat in
  length (i_heap s) = (length h + 2 * L)%nat /\
  (forall r M, nth_error h r = Some M -> nth_error (i_heap s) r = Some M) /\
  i_weights s = map (fun l => (length h + 2 * l)%nat) (seq 0 L) /\
  i_biases s = map (fun l => (length h + 2 * l + 1)%nat) (seq 0 L) /\
  (forall k, i_rng s k = g (k + draws_before layer_units L)%nat) /\
  forall l, (l < L)%nat ->
    exists W,
      nth_error (i_heap s) (length h + 2 * l) = Some W /\
      nth_error (i_heap s) (length h + 2 * l + 1)
        = Some (zeros (Z.to_nat (nth (S l) layer_units 0%Z)) 1) /\
      shape W = (Z.to_nat (nth (S l) layer_units 0%Z),
                 Z.to_nat (nth l layer_units 0%Z)) /\
      forall r c,
        entry W r c =
        g (draws_before layer_units l +
           (r * Z.to_nat (nth l layer_units 0%Z) + c))%nat /
        sqrt (IZR (nth l layer_units 0%Z)).
Proof.
  intros H L. unfold init_params, for_range in H. fold L in H.
  apply (for_from_partial (init_params_body layer_units)
           (fun i t =>
              length (i_heap t) = (length h + 2 * i)%nat /\
              (forall r M, nth_error h r = Some M ->
                           nth_error (i_heap t) r = Some M) /\
              i_weights t = map (fun l => (length h + 2 * l)%nat) (seq 0 i) /\
              i_biases t = map (fun l => (length h + 2 * l + 1)%nat) (seq 0 i) /\
              (forall k, i_rng t k = g (k + draws_before layer_units i)%nat) /\
              forall l, (l < i)%nat ->
                exists W,
                  nth_error (i_heap t) (length h + 2 * l) = Some W /\
                  nth_error (i_heap t) (length h + 2 * l + 1)
                    = Some (zeros (Z.to_nat (nth (S l) layer_units 0%Z)) 1) /\
                  shape W = (Z.to_nat (nth (S l) layer_units 0%Z),
                             Z.to_nat (nth l layer_units 0%Z)) /\
                  forall r c,
                    entry W r c =
                    g (draws_before layer_units l +
                       (r * Z.to_nat (nth l layer_units 0%Z) + c))%nat /
                    sqrt (IZR (nth l layer_units 0%Z)))
           L 0 (mk_init_state [] [] h g) s); [| |exact H].
  - cbn [i_heap i_weights i_biases i_rng seq map draws_before].
    split; [lia|]. split; [auto|]. split; [reflexivity|]. split; [reflexivity|].
    split; [intros k; rewrite Nat.add_0_r; reflexivity|]. intros l Hl. lia.
  - intros i t t' _ [Hlen [Hold [Hw [Hb [Hg Hl]]]]] Hbody.
    destruct (init_params_body_inv layer_units i t t' Hbody)
      as [Hm [Hn [Ew [Eb [Eh Er]]]]].
    rewrite Ew, Eb, Eh, Er, Hw, Hb, Hlen. rewrite !seq_S, !map_app. cbn [map Nat.add].
    split; [rewrite length_app; cbn [length]; lia|].
    split.
    { intros r M HM. rewrite nth_error_app1; [apply Hold; exact HM|].
      assert (r < length h)%nat by (apply nth_error_Some; rewrite HM; discriminate).
      lia. }
    split; [reflexivity|].
    split; [f_equal; f_equal; lia|].
    split.
    { intros k. rewrite Hg. cbn [draws_before]. f_equal. lia. }
    intros l Hlt. destruct (Nat.eq_dec l i) as [->|Hne].
    + eexists. rewrite !nth_error_app2 by lia.
      replace (length h + 2 * i - length (i_heap t))%nat with 0%nat by lia.
      replace (length h + 2 * i + 1 - length (i_heap t))%nat with 1%nat by lia.
      cbn [nth_error]. split; [reflexivity|]. split; [reflexivity|].
      split; [reflexivity|]. intros r c. cbn [entry mmap]. rewrite Hg.
      f_equal. f_equal. lia.
    + destruct (Hl l) as [W [N1 [N2 [SW EW]]]]; [lia|].
      exists W. rewrite !nth_error_app1 by lia. repeat split; assumption.
Qed.

Lemma load_nth_error (h : heap) (r : ref) (M : matrix) :
  load h r = Ok M <-> nth_error h r = Some M.
Proof.
  unfold load. destruct (nth_error h r); split; intros H; inversion H; reflexivity.
Qed.

Lemma nth_map_to_nat (l : nat) (units : list Z) :
  nth l (map Z.to_nat units) O = Z.to_nat (nth l units 0%Z).
Proof. exact (map_nth Z.to_nat units 0%Z l). Qed.

(** The arrays that [init_params] returns have the shapes that the unit
    counts declare. *)
Lemma init_params_gives_shaped (layer_units : list Z) (h : heap) (g : rng)
  (p : init_state) :
  (1 <= length layer_units)%nat ->
  init_params layer_units h g = Ok p ->
  length (i_weights p) = (length layer_units - 1)%nat /\
  shaped (i_heap p) (map Z.to_nat layer_units) (i_weights p) (i_biases p).
Proof.
  intros Hne Hp.
  destruct (init_params_layout layer_units h g p Hp) as [_ [_ [Hw [Hb [_ Hl]]]]].
  assert (Lw : length (i_weights p) = (length layer_units - 1)%nat)
    by (rewrite Hw, length_map, length_seq; reflexivity).
  assert (Lb : length (i_biases p) = (length layer_units - 1)%nat)
    by (rewrite Hb, length_map, length_seq; reflexivity).
  split; [exact Lw|].
  split; [rewrite length_map; lia|]. split; [lia|].
  intros l Hlt. rewrite Lw in Hlt.
  destruct (Hl l Hlt) as [W [N1 [N2 [SW _]]]].
  exists (length h + 2 * l)%nat, (length h + 2 * l + 1)%nat, W,
         (zeros (Z.to_nat (nth (S l) layer_units 0%Z)) 1).
  rewrite Hw, Hb, !nth_map_to_nat.
  split; [rewrite nth_error_map, nth_error_seq;
          replace (Nat.ltb l (length layer_units - 1)) with true
            by (symmetry; apply Nat.ltb_lt; lia); reflexivity|].
  split; [rewrite nth_error_map, nth_error_seq;
          replace (Nat.ltb l (length layer_units - 1)) with true
            by (symmetry; apply Nat.ltb_lt; lia); reflexivity|].
  split; [apply load_nth_error; exact N1|].
  split; [apply load_nth_error; exact N2|].
  split; [exact SW|]. reflexivity.
Qed.

(** No array occurs twice in the lists that [init_params] returns. *)
Lemma init_params_refs_nodup (layer_units : list Z) (h : heap) (g : rng)
  (p : init_state) :
  init_params layer_units h g = Ok p ->
  NoDup (i_weights p ++ i_biases p).
Proof.
  intros Hp.
  destruct (init_params_layout layer_units h g p Hp) as [_ [_ [Hw [Hb _]]]].
  rewrite Hw, Hb. apply NoDup_app.
  - apply NoDup_map_NoDup_ForallPairs; [|apply seq_NoDup].
    intros x y _ _ E. lia.
  - apply NoDup_map_NoDup_ForallPairs; [|apply seq_NoDup].
    intros x y _ _ E. lia.
  - intros a Ha Hb'. apply in_map_iff in Ha, Hb'.
    destruct Ha as [x [<- _]]. destruct Hb' as [y [E _]]. lia.
Qed.

(** C4, as the claim states it, fails: a LayerSpec with one entry, and one
    with a unit count of 0, are initialized without any exception. *)
Lemma init_params_accepts_invalid_spec :
  init_params [3%Z] ex_empty ex_rng = Ok (mk_init_state [] [] ex_empty ex_rng) /\
  (exists s, init_params [2%Z; 0%Z] ex_empty ex_rng = Ok s) /\
  ~ (forall layer_units h g,
       ((length layer_units < 2)%nat \/
        exists u, In u layer_units /\ (u <= 0)%Z) ->
       exists e, init_params layer_units h g = Raise e).
Proof.
  split; [reflexivity|]. split.
  - destruct (init_params_total [2%Z; 0%Z] ex_empty ex_rng) as [s [Hs _]].
    + intros l Hl. destruct l as [|l]; [reflexivity | simpl in Hl; lia].
    + exists s. exact Hs.
  - intros H. destruct (H [3%Z] ex_empty ex_rng) as [e He].
    + left. simpl. lia.
    + discriminate He.
Qed.

(** C4, amended: [init_params] checks nothing before it creates the arrays.
    A LayerSpec with fewer than 2 entries is initialized to empty weight and
    bias lists, without any exception.  A LayerSpec with at least 2 entries,
    one of them negative, raises ValueError.  For a LayerSpec of length L+1
    such that [np.random.randn] returns for the shape (units[l], units[l-1])
    of every layer (a unit count of 0 is such a shape; a count of 2^63 or
    more is not), [init_params] returns L weight arrays of shape
    (units[l], units[l-1]) and L bias arrays of shape (units[l], 1) that hold
    only zeros: the bias arrays are created too and no assertion fails.  And
    whenever [init_params] returns, every unit count that a layer uses is at
    least 0 and [np.random.randn] accepted every layer's shape. *)
Theorem init_params_contract (layer_units : list Z) (h : heap) (g : rng) :
  ((length layer_units < 2)%nat ->
   init_params layer_units h g = Ok (mk_init_state [] [] h g)) /\
  ((2 <= length layer_units)%nat ->
   (exists u, In u layer_units /\ (u < 0)%Z) ->
   init_params layer_units h g = Raise ValueError) /\
  ((forall l g0, (S l < length layer_units)%nat ->
      exists M g1,
        randn (nth (S l) layer_units 0%Z) (nth l layer_units 0%Z) g0
          = Ok (M, g1)) ->
   exists s,
     init_params layer_units h g = Ok s /\
     length (i_weights s) = (length layer_units - 1)%nat /\
     length (i_biases s) = (length layer_units - 1)%nat /\
     forall l, (l < length layer_units - 1)%nat ->
       exists w b W B,
         nth_error (i_weights s) l = Some w /\
         nth_error (i_biases s) l = Some b /\
         load (i_heap s) w = Ok W /\ load (i_heap s) b = Ok B /\
         shape W = (Z.to_nat (nth (S l) layer_units 0%Z),
                    Z.to_nat (nth l layer_units 0%Z)) /\
         shape B = (Z.to_nat (nth (S l) layer_units 0%Z), 1%nat) /\
         forall r c, entry B r c = 0) /\
  (forall s, init_params layer_units h g = Ok s ->
     forall l g0, (S l < length layer_units)%nat ->
       (0 <= nth l layer_units 0)%Z /\ (0 <= nth (S l) layer_units 0)%Z /\
       exists M g1,
         randn (nth (S l) layer_units 0%Z) (nth l layer_units 0%Z) g0
           = Ok (M, g1)).
Proof.
  split; [|split; [|split]].
  - intros Hlen. unfold init_params, for_range.
    replace (length layer_units - 1)%nat with 0%nat by lia. reflexivity.
  - apply init_params_raises.
  - intros Hall.
    destruct (init_params_total layer_units h g) as [s [Hs Hinv]].
    + intros l Hl. apply (randn_returns_iff _ _ g). apply Hall. exact Hl.
    + exists s. split; [exact Hs|]. exact Hinv.
  - intros s Hs l g0 Hl. unfold init_params, for_range in Hs.
    destruct (for_from_turn (init_params_body layer_units) _ 0 _ s l Hs)
      as [t [t' Ht]]; [lia|].
    destruct (shape_refused (nth (S l) layer_units 0%Z) (nth l layer_units 0%Z))
      eqn:E.
    + rewrite init_params_body_refused in Ht by assumption. discriminate Ht.
    + destruct (shape_refused_false _ _ E) as [Hm [Hn _]].
      split; [exact Hn|]. split; [exact Hm|].
      apply randn_returns_iff. exact E.
Qed.

Lemma init_params_contract_witness :
  exists s,
    init_params [2%Z; 1%Z] ex_empty ex_rng = Ok s /\
    length (i_weights s) = 1%nat /\
    length (i_biases s) = 1%nat /\
    forall l, (l < 1)%nat ->
      exists w b W B,
        nth_error (i_weights s) l = Some w /\
        nth_error (i_biases s) l = Some b /\
        load (i_heap s) w = Ok W /\ load (i_heap s) b = Ok B /\
        shape W = (Z.to_nat (nth (S l) [2%Z; 1%Z] 0%Z),
                   Z.to_nat (nth l [2%Z; 1%Z] 0%Z)) /\
        shape B = (Z.to_nat (nth (S l) [2%Z; 1%Z] 0%Z), 1%nat) /\
        forall r c, entry B r c = 0.
Proof.
  apply (proj1 (proj2 (proj2 (init_params_contract [2%Z; 1%Z] ex_empty ex_rng)))).
  intros l g0 Hl. destruct l as [|l]; [|simpl in Hl; lia].
  eexists. eexists. reflexivity.
Defined.

(** ** The heap under updates *)

Lemma same_shapes_refl (h : heap) : same_shapes h h.
Proof. reflexivity. Qed.

Lemma same_shapes_trans (h1 h2 h3 : heap) :
  same_shapes h1 h2 -> same_shapes h2 h3 -> same_shapes h1 h3.
Proof. unfold same_shapes. intros -> ->. reflexivity. Qed.

Lemma load_same_shapes (h h' : heap) (r : ref) (M : matrix) :
  same_shapes h h' -> load h r = Ok M ->
  exists M', load h' r = Ok M' /\ shape M' = shape M.
Proof.
  unfold same_shapes, load. intros Hs Hl.
  destruct (nth_error h r) as [M0|] eqn:E; [|discriminate].
  inversion Hl; subst M0.
  pose proof (nth_error_map shape r h) as P1.
  pose proof (nth_error_map shape r h') as P2.
  rewrite Hs, P2, E in P1. simpl in P1.
  destruct (nth_error h' r) as [M'|]; simpl in P1; [|discriminate].
  exists M'. split; [reflexivity|]. congruence.
Qed.

Lemma store_same_shapes (h : heap) (r : ref) (M M' : matrix) :
  load h r = Ok M -> shape M' = shape M -> same_shapes h (store h r M').
Proof.
  unfold same_shapes, load. revert r.
  induction h as [|x t IH]; intros r Hl HS; [reflexivity|].
  destruct r as [|r]; simpl in *.
  - inversion Hl; subst. rewrite HS. reflexivity.
  - f_equal. apply IH; assumption.
Qed.

Lemma shaped_same_shapes (h h' : heap) (units : list nat)
  (weights biases : list ref) :
  same_shapes h h' -> shaped h units weights biases ->
  shaped h' units weights biases.
Proof.
  intros Hs [L1 [L2 Hl]]. split; [assumption|]. split; [assumption|].
  intros l Hlt. destruct (Hl l Hlt) as [w [b [W [B [Hw [Hb [HW [HB [SW SB]]]]]]]]].
  destruct (load_same_shapes h h' w W Hs HW) as [W' [HW' SW']].
  destruct (load_same_shapes h h' b B Hs HB) as [B' [HB' SB']].
  exists w, b, W', B'. rewrite SW', SB'. repeat split; assumption.
Qed.

Lemma isub_total (a b : matrix) :
  shape b = shape a -> exists r, isub a b = Ok r /\ shape r = shape a.
Proof.
  intros H. unfold isub.
  destruct (map2_shape_same Rminus a b (eq_sym H)) as [C [-> HC]].
  cbn [bind]. rewrite HC, shape_eqb_refl. exists C. split; [reflexivity | assumption].
Qed.

(** ** Cost *)

Lemma compute_cost_total (y : vector) (A : matrix) (m : nat) :
  shape A = (1%nat, m) -> vlen y = m -> (0 < m)%nat ->
  exists c, compute_cost y A = Ok c.
Proof.
  intros HA Hy Hm. inversion HA as [[Hr Hc]].
  unfold compute_cost, row0. rewrite Hr. simpl Nat.eqb. cbn [bind].
  replace (Nat.eqb (vlen y) 0) with false by (symmetry; apply Nat.eqb_neq; lia).
  unfold vmap2. cbn [vlen vmap]. rewrite Hy, Hc, bdim_same. cbn [bind vlen].
  rewrite bdim_same. cbn [bind]. eexists. reflexivity.
Qed.

Lemma regularization_sum_total (h : heap) (weights : list ref) :
  (forall w, In w weights -> exists W, load h w = Ok W) ->
  forall acc, exists r, regularization_sum h weights acc = Ok r.
Proof.
  induction weights as [|w rest IH]; intros Hall acc; simpl.
  - exists acc. reflexivity.
  - destruct (Hall w (or_introl eq_refl)) as [W ->]. cbn [bind].
    apply IH. intros w' Hin. apply Hall. right. assumption.
Qed.

Lemma compute_cost_regularization_total (h : heap) (y : vector) (A : matrix)
  (weights : list ref) (lam : R) (m : nat) :
  shape A = (1%nat, m) -> vlen y = m -> (0 < m)%nat ->
  (forall w, In w weights -> exists W, load h w = Ok W) ->
  exists c, compute_cost_regularization h y A weights lam = Ok c.
Proof.
  intros HA Hy Hm Hall. inversion HA as [[Hr Hc]].
  unfold compute_cost_regularization, map2.
  cbn [nrows ncols as_row mmap vmap vlen]. rewrite Hr, Hc, Hy, !bdim_same.
  cbn [bind nrows ncols]. rewrite !bdim_same. cbn [bind].
  destruct (regularization_sum_total h weights Hall 0) as [r ->]. cbn [bind].
  replace (Nat.eqb (2 * m) 0) with false by (symmetry; apply Nat.eqb_neq; lia).
  eexists. reflexivity.
Qed.

(** ** Backward propagation *)

Lemma derivative_activation_cases (Z : matrix) (activation : string) :
  derivative_activation Z activation = Scalar 1 \/
  exists G, derivative_activation Z activation = Array G /\ shape G = shape Z.
Proof.
  unfold derivative_activation.
  destruct (String.eqb activation "sigmoid");
    [right; eexists; split; reflexivity|].
  destruct (String.eqb activation "relu");
    [right; eexists; split; reflexivity|].
  destruct (String.eqb activation "tanh");
    [right; eexists; split; reflexivity|].
  left. reflexivity.
Qed.

Lemma derivative_activation_known (Z : matrix) (activation : string) :
  known_activation activation ->
  exists G, derivative_activation Z activation = Array G /\ shape G = shape Z.
Proof.
  intros [-> | [-> | ->]]; eexists; split; reflexivity.
Qed.

Lemma mul_operand_total (dA Z : matrix) (activation : string) (u m : nat) :
  shape dA = (1%nat, m) -> shape Z = (u, m) ->
  u = 1%nat \/ known_activation activation ->
  exists dZ, mul_operand dA (derivative_activation Z activation) = Ok dZ /\
             shape dZ = (u, m).
Proof.
  intros HdA HZ Hcase.
  assert (Harr : forall G, shape G = shape Z ->
            exists dZ, map2 Rmult dA G = Ok dZ /\ shape dZ = (u, m)).
  { intros G HG. rewrite HZ in HG. inversion HG as [[Gr Gc]].
    inversion HdA as [[Ar Ac]]. unfold map2.
    rewrite Ar, Ac, Gr, Gc, bdim_1_l, bdim_same. cbn [bind].
    eexists. split; reflexivity. }
  destruct Hcase as [-> | Hk].
  - destruct (derivative_activation_cases Z activation) as [-> | [G [-> HG]]].
    + simpl. eexists. split; [reflexivity|]. exact HdA.
    + simpl. apply Harr. assumption.
  - destruct (derivative_activation_known Z activation Hk) as [G [-> HG]].
    simpl. apply Harr. assumption.
Qed.

Lemma linear_backward_total (dA : matrix) (mm : nat) (g : operand)
  (A_prev W b : matrix) (lam : option R) (u v m : nat) :
  (exists dZ, mul_operand dA g = Ok dZ /\ shape dZ = (u, m)) ->
  shape A_prev = (v, m) -> shape W = (u, v) -> shape b = (u, 1%nat) ->
  exists dA_prev dW db,
    linear_backward dA mm g A_prev W b lam = Ok (dA_prev, dW, db) /\
    shape dA_prev = (v, m) /\ shape dW = (u, v) /\ shape db = (u, 1%nat).
Proof.
  intros [dZ [HdZ SdZ]] HA HW Hb. unfold linear_backward.
  rewrite HdZ. cbn [bind].
  shape_eqs SdZ Zr Zc. shape_eqs HA Ar Ac.
  shape_eqs HW Wr Wc. shape_eqs Hb Br Bc.
  destruct (dot_shape dZ (transpose A_prev)) as [d [Hd Sd]];
    [simpl; rewrite Zc, Ac; reflexivity|].
  simpl in Sd. rewrite Zr, Ar in Sd.
  destruct (dot_shape (transpose W) dZ) as [p [Hp Sp]];
    [simpl; rewrite Wr, Zr; reflexivity|].
  simpl in Sp. rewrite Wc, Zc in Sp.
  assert (HdW : exists dW,
    match lam with
    | Some lam0 =>
        d0 <- dot dZ (transpose A_prev) ;;
        t <- map2 Rplus d0 (mmap (fun x => lam0 * x) W) ;;
        Ok (mmap (fun x => x * 1 / INR mm) t)
    | None =>
        d0 <- dot dZ (transpose A_prev) ;;
        Ok (mmap (fun x => x * 1 / INR mm) d0)
    end = Ok dW /\ shape dW = (u, v)).
  { destruct lam as [lam0|]; rewrite Hd; cbn [bind].
    - destruct (map2_shape_same Rplus d (mmap (fun x => lam0 * x) W)) as [t [-> St]].
      + rewrite shape_mmap, Sd, HW. reflexivity.
      + cbn [bind]. eexists. split; [reflexivity|].
        rewrite shape_mmap, St, Sd. reflexivity.
    - eexists. split; [reflexivity|]. rewrite shape_mmap. exact Sd. }
  destruct HdW as [dW [-> SdW]]. cbn [bind]. rewrite Hp. cbn [bind].
  rewrite Sp, HA, SdW, HW, shape_mmap.
  assert (Sdb : shape (sum_axis1 dZ) = (u, 1%nat)) by (unfold shape; simpl; rewrite Zr; reflexivity).
  rewrite Sdb, Hb, !shape_eqb_refl. cbn [py_assert bind].
  exists p, dW. eexists. split; [reflexivity|].
  repeat split; assumption.
Qed.

Section Backward.
Variables (h : heap) (units : list nat) (weights biases : list ref).
Variables (acts : activations) (lam : option R) (m mm : nat).
Variables (cs : caches) (dA : matrix).
Let L := length weights.
Hypothesis Hcaches :
  forall l, (l < L)%nat -> cache_entry_shaped h units weights biases m cs l.
Hypothesis Hlast : nth L units O = 1%nat.
Hypothesis Hknown : known_activation (hidden acts).
Hypothesis HdA : shape dA = (1%nat, m).

Let bwd_inv (i : nat) (gs : gradients) : Prop :=
  length (gradients_W gs) = i /\ length (gradients_b gs) = i /\
  forall k, (k < i)%nat ->
    exists dW db,
      nth_error (gradients_W gs) k = Some dW /\
      nth_error (gradients_b gs) k = Some db /\
      shape dW = (nth (S (L - i + k)) units O, nth (L - i + k) units O) /\
      shape db = (nth (S (L - i + k)) units O, 1%nat).

Lemma model_backward_body_step (i : nat) (gs : gradients) :
  (i < L)%nat -> bwd_inv i gs ->
  exists gs',
    model_backward_body h cs acts lam L mm dA i gs = Ok gs' /\
    bwd_inv (S i) gs'.
Proof.
  intros Hi [Lw [Lb Hk]].
  destruct (Hcaches (L - 1 - i)%nat) as
    [Ap [w [b [W [B [Z [CA [CW [CB [CZ [_ [_ [HW [HB [SA [SW [SB SZ]]]]]]]]]]]]]]]]];
    [lia|].
  unfold model_backward_body.
  rewrite (proj2 (getitem_ok _ _ _) CZ), (proj2 (getitem_ok _ _ _) CA),
          (proj2 (getitem_ok _ _ _) CW), (proj2 (getitem_ok _ _ _) CB).
  cbn [bind]. rewrite HW, HB. cbn [bind].
  destruct (linear_backward_total dA mm
              (derivative_activation Z
                 (if Nat.eqb i 0 then output acts else hidden acts))
              Ap W B lam
              (nth (S (L - 1 - i)) units O) (nth (L - 1 - i) units O) m)
    as [dAp [dW [db [Hlb [S1 [S2 S3]]]]]]; try assumption.
  { apply mul_operand_total; try assumption.
    destruct (Nat.eqb_spec i 0) as [->|Hne].
    - left. replace (S (L - 1 - 0)) with L by lia. exact Hlast.
    - right. exact Hknown. }
  rewrite Hlb. cbn [bind]. eexists. split; [reflexivity|].
  unfold bwd_inv. simpl. split; [lia|]. split; [lia|].
  intros k Hlt. destruct k as [|k].
  - exists dW, db. simpl.
    replace (L - S i + 0)%nat with (L - 1 - i)%nat by lia. auto.
  - destruct (Hk k) as [dW' [db' [E1 [E2 [E3 E4]]]]]; [lia|].
    exists dW', db'. simpl.
    replace (L - S i + S k)%nat with (L - i + k)%nat by lia. auto.
Qed.

Lemma model_backward_loop_total :
  exists gs,
    for_range L (model_backward_body h cs acts lam L mm dA)
      (mk_gradients [] [] []) = Ok gs /\
    gradients_shaped units L gs.
Proof.
  unfold for_range.
  destruct (for_from_total (model_backward_body h cs acts lam L mm dA)
              bwd_inv L 0 (mk_gradients [] [] [])) as [gs [Hrun Hinv]].
  - unfold bwd_inv. simpl. repeat split; auto. intros k Hk. lia.
  - intros i t Hi Ht. apply model_backward_body_step; [lia | assumption].
  - exists gs. split; [assumption|]. destruct Hinv as [Lw [Lb Hk]]. simpl in *.
    split; [assumption|]. split; [assumption|].
    intros l Hl. destruct (Hk l Hl) as [dW [db [E1 [E2 [E3 E4]]]]].
    exists dW, db. replace (L - L + l)%nat with l in * by lia. auto.
Qed.
End Backward.

Lemma output_error_total (y A : matrix) :
  shape y = shape A ->
  exists dA, output_error y A = Ok dA /\ shape dA = shape A.
Proof.
  intros H. unfold output_error.
  destruct (map2_shape_same Rdiv y A H) as [q1 [-> S1]]. cbn [bind].
  destruct (map2_shape_same Rdiv (mmap (fun v => 1 - v) y) (mmap (fun a => 1 - a) A))
    as [q2 [-> S2]]; [rewrite !shape_mmap; exact H|]. cbn [bind].
  rewrite shape_mmap in S2.
  destruct (map2_shape_same Rminus q1 q2) as [d [-> Sd]]; [congruence|]. cbn [bind].
  eexists. split; [reflexivity|]. rewrite shape_mmap. congruence.
Qed.

Lemma model_backward_total (h : heap) (units : list nat)
  (weights biases : list ref) (acts : activations) (lam : option R) (m : nat)
  (cs : caches) (A : matrix) (y : vector) :
  (forall l, (l < length weights)%nat ->
     cache_entry_shaped h units weights biases m cs l) ->
  nth (length weights) units O = 1%nat ->
  known_activation (hidden acts) ->
  shape A = (1%nat, m) -> vlen y = m ->
  exists gs,
    model_backward_propagation h A y weights biases cs acts lam = Ok gs /\
    gradients_shaped units (length weights) gs.
Proof.
  intros Hcs Hlast Hk HA Hy. unfold model_backward_propagation.
  unfold reshape. rewrite HA. cbn [fst snd]. rewrite Hy, Nat.mul_1_l, Nat.eqb_refl.
  cbn [bind nrows].
  match goal with
  | |- context [output_error ?yy ?AA] =>
      destruct (output_error_total yy AA) as [dA [HdA SdA]]
  end.
  { rewrite shape_mmap, HA. reflexivity. }
  rewrite HdA. cbn [bind]. rewrite shape_mmap in SdA. rewrite HA in SdA.
  apply (model_backward_loop_total h units weights biases acts lam m 1 cs dA);
    assumption.
Qed.

(** ** Parameter update *)

Section Update.
Variables (h0 : heap) (units : list nat) (weights biases : list ref).
Variables (gs : gradients) (lr : R).
Let L := length weights.
Hypothesis Hshaped : shaped h0 units weights biases.
Hypothesis Hgs : gradients_shaped units L gs.

Lemma update_parameters_body_step (i : nat) (h : heap) :
  (i < L)%nat -> same_shapes h0 h ->
  exists h',
    update_parameters_body weights biases (gradients_W gs) (gradients_b gs)
      lr i h = Ok h' /\
    same_shapes h0 h'.
Proof.
  intros Hi Hs.
  pose proof (shaped_same_shapes h0 h units weights biases Hs Hshaped) as [_ [_ Hl]].
  destruct (Hl i Hi) as [w [b [W [B [Hw [Hb [HW [HB [SW SB]]]]]]]]].
  destruct Hgs as [_ [_ Hg]].
  destruct (Hg i Hi) as [dW [db [GW [GB [SdW Sdb]]]]].
  unfold update_parameters_body.
  rewrite (proj2 (getitem_ok _ _ _) Hw). cbn [bind]. rewrite HW. cbn [bind].
  rewrite (proj2 (getitem_ok _ _ _) GW). cbn [bind].
  destruct (isub_total W (mmap (fun x => lr * x) dW)) as [W' [-> SW']];
    [rewrite shape_mmap; congruence|].
  cbn [bind]. rewrite (proj2 (getitem_ok _ _ _) Hb). cbn [bind].
  pose proof (store_same_shapes h w W W' HW SW') as Hs1.
  destruct (load_same_shapes h (store h w W') b B Hs1 HB) as [B1 [HB1 SB1]].
  rewrite HB1. cbn [bind].
  rewrite (proj2 (getitem_ok _ _ _) GB). cbn [bind].
  destruct (isub_total B1 (mmap (fun x => lr * x) db)) as [B' [-> SB']];
    [rewrite shape_mmap; congruence|].
  cbn [bind]. eexists. split; [reflexivity|].
  apply (same_shapes_trans h0 h); [assumption|].
  apply (same_shapes_trans h (store h w W')); [assumption|].
  apply (store_same_shapes _ b B1 B'); assumption.
Qed.

Lemma update_parameters_total :
  exists h',
    update_parameters h0 weights biases (gradients_W gs) (gradients_b gs) lr
      = Ok (weights, biases, h') /\
    same_shapes h0 h'.
Proof.
  unfold update_parameters, for_range.
  destruct (for_from_total
              (update_parameters_body weights biases (gradients_W gs)
                 (gradients_b gs) lr)
              (fun _ h => same_shapes h0 h) L 0 h0) as [h' [Hrun Hinv]].
  - apply same_shapes_refl.
  - intros i t Hi Ht. apply update_parameters_body_step; [lia | assumption].
  - fold L. rewrite Hrun. cbn [bind]. exists h'. split; [reflexivity | assumption].
Qed.
End Update.

(** ** One epoch *)

(** An epoch on parameters of the declared shapes, for a network with one
    output unit and a label per column, does not raise; it hands back the
    lists it was given and keeps the shape of every array. *)
Lemma epoch_train_total (h : heap) (units : list nat)
  (weights biases : list ref) (acts : activations) (lam : option R) (lr : R)
  (m : nat) (X : matrix) (y : vector) :
  shaped h units weights biases ->
  nth (length weights) units O = 1%nat ->
  known_activation (hidden acts) ->
  shape X = (nth 0 units O, m) -> vlen y = m -> (0 < m)%nat ->
  exists e,
    epoch_train h X y acts lr weights biases lam = Ok e /\
    e_weights e = weights /\ e_biases e = biases /\
    same_shapes h (e_heap e).
Proof.
  intros Hs Hlast Hk HX Hy Hm.
  destruct (model_forward_total h units weights biases acts m Hs X HX)
    as [A [cs [Hf [SA [_ Hcs]]]]].
  cbn [fst snd] in SA, Hcs. rewrite Hlast in SA.
  unfold epoch_train. rewrite Hf. cbn [bind].
  assert (Hcost : exists c,
    match lam with
    | Some _ => compute_cost_regularization h y A weights 0.01
    | None => compute_cost y A
    end = Ok c).
  { destruct lam.
    - apply (compute_cost_regularization_total h y A weights 0.01 m); try assumption.
      intros w Hin. apply In_nth_error in Hin. destruct Hin as [l Hl].
      destruct Hs as [_ [_ Hall]].
      destruct (Hall l) as [w' [b [W [B [Hw [_ [HW _]]]]]]].
      + apply nth_error_Some. rewrite Hl. discriminate.
      + exists W. congruence.
    - apply (compute_cost_total y A m); assumption. }
  destruct Hcost as [c ->]. cbn [bind].
  destruct (model_backward_total h units weights biases acts lam m cs A y)
    as [gs [-> Hgs]]; try assumption.
  cbn [bind].
  destruct (update_parameters_total h units weights biases gs lr Hs Hgs)
    as [h' [-> Hh']].
  cbn [bind]. eexists. split; [reflexivity|]. simpl. auto.
Qed.

(** ** The training loop *)

Section TrainBody.
Variables (X : matrix) (y : vector) (acts : activations) (lr : R).
Variable lam : option R.

Let body := train_body X y acts lr lam.

(** What one turn of the loop does to the state. *)
Lemma train_body_ok (i : nat) (s s' : train_state) :
  body i s = Ok s' ->
  exists e,
    epoch_train (t_heap s) X y acts lr (t_weights s) (t_biases s) lam = Ok e /\
    t_weights s' = e_weights e /\ t_biases s' = e_biases e /\
    t_heap s' = e_heap e /\
    t_costs s' = t_costs s ++ [e_cost e] /\
    ((t_best_cost s > e_cost e /\
      t_best_cost s' = e_cost e /\ t_best_iteration s' = (i + 1)%nat /\
      t_best_weights s' = Some (e_weights e) /\
      t_best_biases s' = Some (e_biases e)) \/
     (~ t_best_cost s > e_cost e /\
      t_best_cost s' = t_best_cost s /\
      t_best_iteration s' = t_best_iteration s /\
      t_best_weights s' = t_best_weights s /\
      t_best_biases s' = t_best_biases s)).
Proof.
  unfold body, train_body. intros H. apply bind_ok in H. destruct H as [e [He H]].
  exists e. split; [assumption|].
  destruct (Rgt_dec (t_best_cost s) (e_cost e)) as [Hgt|Hle];
    inversion H; subst; simpl; repeat split; auto.
  - left. repeat split; auto.
  - right. repeat split; auto.
Qed.

(** The loss history only grows, by one entry per turn. *)
Lemma train_costs_grow (n start : nat) (s s' : train_state) :
  for_from start n body s = Ok s' ->
  exists ext, t_costs s' = t_costs s ++ ext /\ length ext = n.
Proof.
  intros H.
  assert (P : exists ext, t_costs s' = t_costs s ++ ext /\
                          length ext = (start + n - start)%nat).
  { apply (for_from_partial body
             (fun i t => exists ext, t_costs t = t_costs s ++ ext /\
                                     length ext = (i - start)%nat)
             n start s s'); [| |assumption].
    - exists []. rewrite app_nil_r, Nat.sub_diag. auto.
    - intros i t t' Hi [ext [E L]] Hb.
      destruct (train_body_ok i t t' Hb) as [e [_ [_ [_ [_ [Hc _]]]]]].
      exists (ext ++ [e_cost e]). rewrite Hc, E, app_assoc, length_app.
      cbn [length]. split; [reflexivity | lia]. }
  destruct P as [ext [E L]]. exists ext. split; [assumption | lia].
Qed.

(** The best loss never grows. *)
Lemma train_best_cost_decreases (n start : nat) (s s' : train_state) :
  for_from start n body s = Ok s' -> t_best_cost s' <= t_best_cost s.
Proof.
  intros H.
  apply (for_from_partial body (fun _ t => t_best_cost t <= t_best_cost s)
           n start s s'); [lra | | assumption].
  intros i t t' _ Ht Hb. cbv beta in *.
  destruct (train_body_ok i t t' Hb) as [e [_ [_ [_ [_ [_ Hbest]]]]]].
  destruct Hbest as [[Hgt [E _]] | [_ [E _]]]; rewrite E; lra.
Qed.

Lemma train_body_best_inv (i : nat) (s s' : train_state) :
  (forall e, epoch_train (t_heap s) X y acts lr (t_weights s) (t_biases s) lam
             = Ok e -> e_weights e = t_weights s /\ e_biases e = t_biases s) ->
  best_inv i s -> body i s = Ok s' -> best_inv (S i) s'.
Proof.
  intros Hsame [Hlen [H0 [H1 Hmin]]] Hb.
  destruct (train_body_ok i s s' Hb) as [e [He [Ew [Eb [_ [Ec Hbest]]]]]].
  destruct (Hsame e He) as [Sw Sb].
  unfold best_inv. rewrite Ec, length_app. simpl.
  split; [lia|].
  destruct Hbest as [[Hgt [E1 [E2 [E3 E4]]]] | [Hle [E1 [E2 [E3 E4]]]]];
    rewrite E1, E2, E3, E4.
  - split; [intros K; lia|]. split.
    + intros _. split; [lia|]. replace (i + 1 - 1)%nat with (length (t_costs s)) by lia.
      rewrite nth_error_snoc_eq, Ew, Eb. auto.
    + intros c Hin. apply in_app_or in Hin. destruct Hin as [Hin|[<-|[]]]; [|lra].
      specialize (Hmin c Hin). lra.
  - split; [|split].
    + intros K. destruct (H0 K) as [B1 [B2 [B3 B4]]]. repeat split; auto.
      intros c Hin. apply in_app_or in Hin. destruct Hin as [Hin|[<-|[]]].
      * apply B4. assumption.
      * rewrite B1 in Hle. lra.
    + intros K. destruct (H1 K) as [B1 [B2 [B3 B4]]]. split; [lia|].
      rewrite nth_error_snoc_lt by lia. rewrite Ew, Eb, Sw, Sb. auto.
    + intros c Hin. apply in_app_or in Hin. destruct Hin as [Hin|[<-|[]]].
      * apply Hmin. assumption.
      * lra.
Qed.
End TrainBody.

(** An epoch hands back the very lists it was given. *)
Lemma epoch_train_same_lists (h : heap) (X : matrix) (y : vector)
  (acts : activations) (lr : R) (weights biases : list ref) (lam : option R)
  (e : epoch_result) :
  epoch_train h X y acts lr weights biases lam = Ok e ->
  e_weights e = weights /\ e_biases e = biases.
Proof.
  unfold epoch_train, update_parameters. intros H. inv_ok H.
  match goal with
  | H : bind _ _ = Ok _ |- _ => inv_ok H
  end.
  split; reflexivity.
Qed.

Section TrainLoop.
Variables (h : heap) (g : rng) (X : matrix) (y : vector).
Variables (layer_units : list Z) (acts : activations) (lr : R).
Variable lam : option R.

Lemma train_loop_best_inv (N : nat) (s : train_state) :
  train_loop h g X y layer_units acts lr N lam = Ok s -> best_inv N s.
Proof.
  unfold train_loop, for_range. intros H. apply bind_ok in H.
  destruct H as [p [_ H]].
  eapply (for_from_partial (train_body X y acts lr lam) best_inv N 0);
    [| |exact H].
  - unfold best_inv. simpl. repeat split; auto; try (intros; lia);
      try (intros c []).
  - intros i t t' _ Ht Hb.
    apply (train_body_best_inv X y acts lr lam i t t'); try assumption.
    intros e He. apply (epoch_train_same_lists _ _ _ _ _ _ _ _ _ He).
Qed.

(** A run of [k] epochs, when a longer run ends normally. *)
Lemma train_loop_prefix (N k : nat) (s : train_state) :
  (k <= N)%nat ->
  train_loop h g X y layer_units acts lr N lam = Ok s ->
  exists t, train_loop h g X y layer_units acts lr k lam = Ok t /\
            for_from k (N - k) (train_body X y acts lr lam) t = Ok s.
Proof.
  unfold train_loop, for_range. intros Hk H.
  destruct (init_params layer_units h g) as [p|e]; cbn [bind] in *; [|discriminate].
  replace N with (k + (N - k))%nat in H by lia.
  rewrite for_from_app in H. apply bind_ok in H. destruct H as [t [Ht H]].
  exists t. split; [assumption|]. exact H.
Qed.

Variable p0 : init_state.
Hypothesis Hinit : init_params layer_units h g = Ok p0.
Hypothesis Hlast : nth (length layer_units - 1) layer_units 0%Z = 1%Z.
Hypothesis Hknown : known_activation (hidden acts).
Hypothesis HX : shape X = (Z.to_nat (nth 0 layer_units 0%Z), vlen y).
Hypothesis Hy : (0 < vlen y)%nat.

Lemma layer_units_nonempty : (1 <= length layer_units)%nat.
Proof.
  destruct (Nat.eq_dec (length layer_units) 0) as [E|E]; [|lia].
  apply length_zero_iff_nil in E. rewrite E in Hlast. discriminate Hlast.
Qed.

Lemma init_params_shaped :
  length (i_weights p0) = (length layer_units - 1)%nat /\
  shaped (i_heap p0) (map Z.to_nat layer_units) (i_weights p0) (i_biases p0).
Proof.
  apply (init_params_gives_shaped layer_units h g p0 layer_units_nonempty Hinit).
Qed.

Lemma train_loop_total (N : nat) :
  exists s, train_loop h g X y layer_units acts lr N lam = Ok s.
Proof.
  destruct init_params_shaped as [Lw Hs]. set (p := p0) in *.
  unfold train_loop, for_range. rewrite Hinit. fold p. cbn [bind].
  destruct (for_from_total (train_body X y acts lr lam)
              (fun _ t => t_weights t = i_weights p /\
                          t_biases t = i_biases p /\
                          same_shapes (i_heap p) (t_heap t))
              N 0
              (mk_train_state (i_weights p) (i_biases p) [] 1 None None 0
                 (i_heap p))) as [s [Hrun _]].
  - simpl. repeat split; auto.
  - intros i t _ [Ew [Eb Hsh]].
    destruct (epoch_train_total (t_heap t) (map Z.to_nat layer_units)
                (i_weights p) (i_biases p) acts lam lr (vlen y) X y)
      as [e [He [E1 [E2 E3]]]]; try assumption; try reflexivity.
    + apply (shaped_same_shapes (i_heap p)); assumption.
    + rewrite Lw, nth_map_to_nat, Hlast. reflexivity.
    + rewrite nth_map_to_nat. exact HX.
    + unfold train_body. rewrite Ew, Eb, He. cbn [bind].
      destruct (Rgt_dec (t_best_cost t) (e_cost e));
        (eexists; split; [reflexivity|]; simpl; repeat split; auto;
         apply (same_shapes_trans _ (t_heap t)); assumption).
  - exists s. assumption.
Qed.
End TrainLoop.

(** C5, amended: the best loss recorded by the training loop never grows
    from one epoch to a later one; at the end of the run, when some epoch was
    recorded as best (best_iteration is at least 1),
    loss_history[best_iteration-1] is the best loss; and when none was
    (best_iteration is 0), the best loss is still the initial 1.0 and every
    recorded loss is at least 1.0. *)
Theorem best_loss_tracking (h : heap) (g : rng) (X : matrix) (y : vector)
  (layer_units : list Z) (acts : activations) (lr : R) (lam : option R) :
  (forall j k sj sk,
     (j <= k)%nat ->
     train_loop h g X y layer_units acts lr j lam = Ok sj ->
     train_loop h g X y layer_units acts lr k lam = Ok sk ->
     t_best_cost sk <= t_best_cost sj) /\
  (forall N s,
     train_loop h g X y layer_units acts lr N lam = Ok s ->
     ((1 <= t_best_iteration s)%nat ->
      py_index (t_costs s) (Z.of_nat (t_best_iteration s) - 1)
        = Ok (t_best_cost s)) /\
     (t_best_iteration s = 0%nat ->
      t_best_cost s = 1 /\ forall c, In c (t_costs s) -> 1 <= c)).
Proof.
  split.
  - intros j k sj sk Hjk Hj Hk.
    destruct (train_loop_prefix h g X y layer_units acts lr lam k j sk Hjk Hk)
      as [t [Ht Hrest]].
    rewrite Hj in Ht. inversion Ht; subst t.
    apply (train_best_cost_decreases X y acts lr lam _ _ _ _ Hrest).
  - intros N s Hs.
    pose proof (train_loop_best_inv _ _ _ _ _ _ _ _ _ _ Hs) as [Hlen [H0 [H1 _]]].
    split.
    + intros Hpos. destruct (H1 Hpos) as [Hle [Hnth _]].
      unfold py_index.
      replace (0 <=? Z.of_nat (t_best_iteration s) - 1)%Z with true
        by (symmetry; apply Z.leb_le; lia).
      replace (Z.to_nat (Z.of_nat (t_best_iteration s) - 1))
        with (t_best_iteration s - 1)%nat by lia.
      apply getitem_ok. exact Hnth.
    + intros Hz. destruct (H0 Hz) as [B1 [_ [_ B4]]]. split; assumption.
Qed.

Lemma best_loss_tracking_witness :
  exists s,
    train_loop ex_empty two_rng one_X (one_y 1) [1%Z; 1%Z] one_acts 1 2 None
      = Ok s /\
    ((1 <= t_best_iteration s)%nat ->
     py_index (t_costs s) (Z.of_nat (t_best_iteration s) - 1)
       = Ok (t_best_cost s)) /\
    (t_best_iteration s = 0%nat ->
     t_best_cost s = 1 /\ forall c, In c (t_costs s) -> 1 <= c).
Proof.
  assert (Hi : exists p, init_params [1%Z; 1%Z] ex_empty two_rng = Ok p)
    by (eexists; reflexivity).
  destruct Hi as [p Hi].
  destruct (train_loop_total ex_empty two_rng one_X (one_y 1) [1%Z; 1%Z]
              one_acts 1 None p Hi) with (N := 2%nat) as [s Hs].
  - reflexivity.
  - right. left. reflexivity.
  - reflexivity.
  - simpl. lia.
  - exists s. split; [exact Hs|].
    apply (proj2 (best_loss_tracking ex_empty two_rng one_X (one_y 1)
                    [1%Z; 1%Z] one_acts 1 None) 2%nat s Hs).
Defined.

(** ** Runs of the network with one weight *)

Lemma epsilon_bounds : 0 < epsilon < 1 / 3.
Proof. unfold epsilon. lra. Qed.

Lemma exp_minus_one_bounds : 1 / 3 <= exp (Ropp 1) < 1 / 2.
Proof.
  rewrite exp_Ropp. pose proof exp_le_3 as H3.
  pose proof (exp_ineq1 1 R1_neq_R0) as H2.
  split.
  - apply Rmult_le_reg_r with (exp 1); [lra|]. rewrite Rinv_l by lra. lra.
  - apply Rmult_lt_reg_r with (exp 1); [lra|]. rewrite Rinv_l by lra. lra.
Qed.

Lemma loss_below_one (x : R) : 1 / 2 <= x -> - ln x < 1.
Proof.
  intros H. pose proof exp_minus_one_bounds as [_ B].
  assert (L : ln (exp (Ropp 1)) < ln x)
    by (apply ln_increasing; [apply exp_pos | lra]).
  rewrite ln_exp in L. lra.
Qed.

Lemma loss_above_one (x : R) : 0 < x < 1 / 3 -> 1 < - ln x.
Proof.
  intros H. pose proof exp_minus_one_bounds as [B _].
  assert (L : ln x < ln (exp (Ropp 1))) by (apply ln_increasing; lra).
  rewrite ln_exp in L. lra.
Qed.

Lemma clip_high (lo hi x : R) : lo <= hi -> hi <= x -> clip lo hi x = hi.
Proof.
  intros H1 H2. unfold clip.
  rewrite Rmax_left by lra. rewrite Rmin_right by lra. reflexivity.
Qed.

Lemma clip_saturated (w b : R) :
  1 <= w + b -> clip epsilon (1 - epsilon) (0 + w * 1 + b) = 1 - epsilon.
Proof.
  intros H. pose proof epsilon_bounds. apply clip_high; lra.
Qed.

(** One epoch of the network with one weight, on a sample labelled [y0]. *)
Lemma one_epoch (fw fb : nat -> nat -> R) (y0 lr : R) (lam : option R) :
  let p := clip epsilon (1 - epsilon) (0 + fw O O * 1 + fb O O) in
  exists c cs fw' fb',
    epoch_train [mk_matrix 1 1 fw; mk_matrix 1 1 fb] one_X (one_y y0) one_acts
      lr [0%nat] [1%nat] lam
    = Ok (mk_epoch_result [0%nat] [1%nat] c cs
            [mk_matrix 1 1 fw'; mk_matrix 1 1 fb']) /\
    c = - (y0 * ln p + (1 - y0) * ln (1 - p)) +
        match lam with
        | None => 0
        | Some _ => 0.01 / 2 * (fw O O * fw O O)
        end /\
    fw' O O = fw O O -
              lr * (- (y0 / p - (1 - y0) / (1 - p)) +
                    match lam with None => 0 | Some l => l * fw O O end) /\
    fb' O O = fb O O - lr * (- (y0 / p - (1 - y0) / (1 - p))).
Proof.
  intros p. destruct lam as [l|].
  - do 4 eexists. split; [reflexivity|]. cbn. unfold mean, sum_all. cbn.
    fold p. unfold Rdiv. rewrite !Rinv_1. replace (1 + 1) with 2 by lra.
    repeat split; ring.
  - do 4 eexists. split; [reflexivity|]. cbn.
    fold p. unfold Rdiv. rewrite !Rinv_1. repeat split; ring.
Qed.

Lemma train_loop_S (h : heap) (g : rng) (X : matrix) (y : vector)
  (layer_units : list Z) (acts : activations) (lr : R) (lam : option R)
  (n : nat) :
  train_loop h g X y layer_units acts lr (S n) lam =
  (s <- train_loop h g X y layer_units acts lr n lam ;;
   train_body X y acts lr lam n s).
Proof.
  unfold train_loop, for_range.
  destruct (init_params layer_units h g) as [p|e]; cbn [bind]; [|reflexivity].
  rewrite for_from_snoc. reflexivity.
Qed.

Lemma train_body_runs (X : matrix) (y : vector) (acts : activations) (lr : R)
  (lam : option R) (i : nat) (s : train_state) (e : epoch_result) :
  epoch_train (t_heap s) X y acts lr (t_weights s) (t_biases s) lam = Ok e ->
  exists s', train_body X y acts lr lam i s = Ok s'.
Proof.
  intros H. unfold train_body. rewrite H. cbn [bind].
  destruct (Rgt_dec (t_best_cost s) (e_cost e)); eexists; reflexivity.
Qed.

(** A turn of the training loop on the network with one weight. *)
Lemma one_train_body (y0 lr : R) (i : nat) (s : train_state)
  (fw fb : nat -> nat -> R) :
  t_heap s = [mk_matrix 1 1 fw; mk_matrix 1 1 fb] ->
  t_weights s = [0%nat] -> t_biases s = [1%nat] ->
  let p := clip epsilon (1 - epsilon) (0 + fw O O * 1 + fb O O) in
  let c := - (y0 * ln p + (1 - y0) * ln (1 - p)) in
  exists s' fw' fb',
    train_body one_X (one_y y0) one_acts lr None i s = Ok s' /\
    t_heap s' = [mk_matrix 1 1 fw'; mk_matrix 1 1 fb'] /\
    t_weights s' = [0%nat] /\ t_biases s' = [1%nat] /\
    t_costs s' = t_costs s ++ [c] /\
    fw' O O = fw O O + lr * (y0 / p - (1 - y0) / (1 - p)) /\
    fb' O O = fb O O + lr * (y0 / p - (1 - y0) / (1 - p)) /\
    ((t_best_cost s > c /\ t_best_cost s' = c /\
      t_best_iteration s' = (i + 1)%nat /\ t_best_weights s' = Some [0%nat]) \/
     (~ t_best_cost s > c /\ t_best_cost s' = t_best_cost s /\
      t_best_iteration s' = t_best_iteration s /\
      t_best_weights s' = t_best_weights s)).
Proof.
  intros Hh Hw Hb p c.
  destruct (one_epoch fw fb y0 lr None) as [c0 [cs [fw' [fb' [He [Ec [Ew Eb]]]]]]].
  fold p in Ec, Ew, Eb. rewrite Rplus_0_r in Ec. fold c in Ec. subst c0.
  assert (He' : epoch_train (t_heap s) one_X (one_y y0) one_acts lr
                  (t_weights s) (t_biases s) None
                = Ok (mk_epoch_result [0%nat] [1%nat] c cs
                        [mk_matrix 1 1 fw'; mk_matrix 1 1 fb']))
    by (rewrite Hh, Hw, Hb; exact He).
  destruct (train_body_runs _ _ _ _ _ i s _ He') as [s' Hs'].
  destruct (train_body_ok _ _ _ _ _ i s s' Hs')
    as [e [He2 [E1 [E2 [E3 [E4 Hbest]]]]]].
  rewrite He' in He2. inversion He2; subst e. cbn in *.
  exists s', fw', fb'. repeat split; try assumption.
  - rewrite Ew. lra.
  - rewrite Eb. lra.
  - destruct Hbest as [[B1 [B2 [B3 [B4 _]]]] | [B1 [B2 [B3 [B4 _]]]]];
      [left | right]; repeat split; assumption.
Qed.

Lemma one_init :
  exists fw fb g',
    init_params [1%Z; 1%Z] ex_empty two_rng
    = Ok (mk_init_state [0%nat] [1%nat]
            [mk_matrix 1 1 fw; mk_matrix 1 1 fb] g') /\
    fw O O = 2 /\ fb O O = 0.
Proof.
  do 3 eexists. split; [reflexivity|]. cbn. unfold two_rng.
  rewrite sqrt_1. split; lra.
Qed.

(** A turn on the sample labelled 1, with learning rate 1, when the output
    is already clamped to [1 - epsilon]. *)
Lemma one_train_body_saturated (i : nat) (s : train_state)
  (fw fb : nat -> nat -> R) :
  t_heap s = [mk_matrix 1 1 fw; mk_matrix 1 1 fb] ->
  t_weights s = [0%nat] -> t_biases s = [1%nat] ->
  1 <= fw O O + fb O O ->
  let c := - ln (1 - epsilon) in
  exists s' fw' fb',
    train_body one_X (one_y 1) one_acts 1 None i s = Ok s' /\
    t_heap s' = [mk_matrix 1 1 fw'; mk_matrix 1 1 fb'] /\
    t_weights s' = [0%nat] /\ t_biases s' = [1%nat] /\
    t_costs s' = t_costs s ++ [c] /\
    fw' O O = fw O O + / (1 - epsilon) /\
    fb' O O = fb O O + / (1 - epsilon) /\
    ((t_best_cost s > c /\ t_best_cost s' = c /\
      t_best_iteration s' = (i + 1)%nat /\ t_best_weights s' = Some [0%nat]) \/
     (~ t_best_cost s > c /\ t_best_cost s' = t_best_cost s /\
      t_best_iteration s' = t_best_iteration s /\
      t_best_weights s' = t_best_weights s)).
Proof.
  intros Hh Hw Hb Hsat c.
  destruct (one_train_body 1 1 i s fw fb Hh Hw Hb)
    as [s' [fw' [fb' [Hs' [E1 [E2 [E3 [E4 [E5 [E6 E7]]]]]]]]]].
  rewrite (clip_saturated _ _ Hsat) in E4, E5, E6, E7.
  assert (Ec : - (1 * ln (1 - epsilon) + (1 - 1) * ln (1 - (1 - epsilon))) = c)
    by (unfold c; ring).
  rewrite Ec in E4, E7.
  exists s', fw', fb'. repeat split; try assumption.
  - rewrite E5. unfold Rdiv. ring.
  - rewrite E6. unfold Rdiv. ring.
Qed.

Lemma inv_one_minus_epsilon : 1 < / (1 - epsilon) < 2.
Proof.
  pose proof epsilon_bounds as [H0 H1]. split.
  - rewrite <- Rinv_1 at 1. apply Rinv_lt_contravar; lra.
  - replace 2 with (/ (1 / 2)) by lra. apply Rinv_lt_contravar; lra.
Qed.

(** Once an epoch has been recorded as best, the best weights and biases are
    the live lists themselves: reading them in the heap that the run leaves
    gives the arrays of the last update. *)
Lemma train_loop_best_is_live (h : heap) (g : rng) (X : matrix) (y : vector)
  (layer_units : list Z) (acts : activations) (lr : R) (lam : option R)
  (N : nat) (s : train_state) :
  train_loop h g X y layer_units acts lr N lam = Ok s ->
  (1 <= t_best_iteration s)%nat ->
  t_best_weights s = Some (t_weights s) /\
  t_best_biases s = Some (t_biases s).
Proof.
  intros Hs Hpos.
  pose proof (train_loop_best_inv _ _ _ _ _ _ _ _ _ _ Hs) as [_ [_ [H1 _]]].
  destruct (H1 Hpos) as [_ [_ [Bw Bb]]]. split; assumption.
Qed.

(** C1: a run of two epochs of the network with one weight.  The loss of the
    first epoch is the lowest, that of the second epoch equals it, so the
    best iteration stays 1; the weight was 2 when that loss was computed and
    2 + 1/(1 - epsilon) when the best weights were recorded, but the best
    weights that [train_nn] returns hold 2 + 2/(1 - epsilon), the value the
    second update left: the recorded list is the live list. *)
Theorem best_snapshot_follows_updates :
  exists s0 s1 s2 W0 W1 W2 params costs h',
    train_loop ex_empty two_rng one_X (one_y 1) [1%Z; 1%Z] one_acts 1 0 None
      = Ok s0 /\
    train_loop ex_empty two_rng one_X (one_y 1) [1%Z; 1%Z] one_acts 1 1 None
      = Ok s1 /\
    train_loop ex_empty two_rng one_X (one_y 1) [1%Z; 1%Z] one_acts 1 2 None
      = Ok s2 /\
    train_nn ex_empty two_rng one_X (one_y 1) [1%Z; 1%Z] one_acts 1 2 None
      = Ok (params, costs, h') /\
    t_best_iteration s1 = 1%nat /\ t_best_iteration s2 = 1%nat /\
    t_best_weights s1 = Some [0%nat] /\ p_weights params = Some [0%nat] /\
    load (t_heap s0) 0%nat = Ok W0 /\ load (t_heap s1) 0%nat = Ok W1 /\
    load h' 0%nat = Ok W2 /\
    entry W0 0 0 = 2 /\
    entry W1 0 0 = 2 + / (1 - epsilon) /\
    entry W2 0 0 = 2 + / (1 - epsilon) + / (1 - epsilon) /\
    entry W2 0 0 <> entry W1 0 0 /\ entry W2 0 0 <> entry W0 0 0.
Proof.
  pose proof inv_one_minus_epsilon as Hinv.
  pose proof epsilon_bounds as Heps.
  assert (Hc : - ln (1 - epsilon) < 1) by (apply loss_below_one; lra).
  destruct one_init as [fw0 [fb0 [g' [Hinit [Ew0 Eb0]]]]].
  set (s0 := mk_train_state [0%nat] [1%nat] [] 1 None None 0
               [mk_matrix 1 1 fw0; mk_matrix 1 1 fb0]).
  assert (H0 : train_loop ex_empty two_rng one_X (one_y 1) [1%Z; 1%Z] one_acts
                 1 0 None = Ok s0)
    by (unfold train_loop; rewrite Hinit; reflexivity).
  destruct (one_train_body_saturated 0 s0 fw0 fb0 eq_refl eq_refl eq_refl)
    as [s1 [fw1 [fb1 [Hb1 [Hh1 [Hw1 [Hbi1 [Hc1 [Ew1 [Eb1 Hbest1]]]]]]]]]];
    [lra|].
  assert (H1 : train_loop ex_empty two_rng one_X (one_y 1) [1%Z; 1%Z] one_acts
                 1 1 None = Ok s1)
    by (rewrite train_loop_S, H0; exact Hb1).
  destruct Hbest1 as [[_ [Bc1 [Bi1 Bw1]]] | [Hno _]];
    [|exfalso; apply Hno; simpl; lra].
  destruct (one_train_body_saturated 1 s1 fw1 fb1 Hh1 Hw1 Hbi1)
    as [s2 [fw2 [fb2 [Hb2 [Hh2 [Hw2 [Hbi2 [Hc2 [Ew2 [Eb2 Hbest2]]]]]]]]]];
    [lra|].
  assert (H2 : train_loop ex_empty two_rng one_X (one_y 1) [1%Z; 1%Z] one_acts
                 1 2 None = Ok s2)
    by (rewrite train_loop_S, H1; exact Hb2).
  destruct Hbest2 as [[Hgt _] | [_ [Bc2 [Bi2 Bw2]]]];
    [exfalso; rewrite Bc1 in Hgt; lra|].
  exists s0, s1, s2, (mk_matrix 1 1 fw0), (mk_matrix 1 1 fw1), (mk_matrix 1 1 fw2).
  exists (mk_parameters (t_best_weights s2) (t_best_biases s2)), (t_costs s2), (t_heap s2).
  split; [exact H0|]. split; [exact H1|]. split; [exact H2|].
  split; [unfold train_nn; change (Z.to_nat 2) with 2%nat; rewrite H2; reflexivity|].
  split; [exact Bi1|]. split; [rewrite Bi2; exact Bi1|].
  split; [exact Bw1|]. split; [simpl; rewrite Bw2; exact Bw1|].
  split; [reflexivity|]. split; [rewrite Hh1; reflexivity|].
  split; [rewrite Hh2; reflexivity|].
  cbn [entry]. split; [exact Ew0|]. split; [lra|]. split; [lra|]. split; lra.
Qed.

(** C5, as the claim states it, fails: on the sample labelled 0 the only
    epoch has a loss above 1.0, so no epoch is recorded as best,
    best_iteration stays 0 and best_loss stays 1.0, while
    loss_history[best_iteration-1] is loss_history[-1], the loss of the last
    epoch. *)
Lemma best_iteration_zero_misses_history :
  exists s c,
    train_loop ex_empty two_rng one_X (one_y 0) [1%Z; 1%Z] one_acts 1 1 None
      = Ok s /\
    t_best_iteration s = 0%nat /\ t_best_cost s = 1 /\
    py_index (t_costs s) (Z.of_nat (t_best_iteration s) - 1) = Ok c /\
    c <> t_best_cost s.
Proof.
  pose proof epsilon_bounds as Heps.
  assert (Hc : 1 < - ln epsilon) by (apply loss_above_one; lra).
  destruct one_init as [fw0 [fb0 [g' [Hinit [Ew0 Eb0]]]]].
  set (s0 := mk_train_state [0%nat] [1%nat] [] 1 None None 0
               [mk_matrix 1 1 fw0; mk_matrix 1 1 fb0]).
  assert (H0 : train_loop ex_empty two_rng one_X (one_y 0) [1%Z; 1%Z] one_acts
                 1 0 None = Ok s0)
    by (unfold train_loop; rewrite Hinit; reflexivity).
  destruct (one_train_body 0 1 0 s0 fw0 fb0 eq_refl eq_refl eq_refl)
    as [s1 [fw1 [fb1 [Hb1 [_ [_ [_ [Hc1 [_ [_ Hbest]]]]]]]]]].
  rewrite clip_saturated in Hc1, Hbest by lra.
  assert (Ec : - (0 * ln (1 - epsilon) + (1 - 0) * ln (1 - (1 - epsilon)))
               = - ln epsilon).
  { replace (1 - (1 - epsilon)) with epsilon by ring. ring. }
  rewrite Ec in Hc1, Hbest.
  assert (H1 : train_loop ex_empty two_rng one_X (one_y 0) [1%Z; 1%Z] one_acts
                 1 1 None = Ok s1)
    by (rewrite train_loop_S, H0; exact Hb1).
  destruct Hbest as [[Hgt _] | [_ [Bc [Bi _]]]]; [simpl in Hgt; lra|].
  exists s1, (- ln epsilon). split; [exact H1|].
  split; [rewrite Bi; reflexivity|]. split; [rewrite Bc; reflexivity|].
  split; [rewrite Bi, Hc1; reflexivity|].
  rewrite Bc. simpl. lra.
Qed.

(** ** The divisor of the backward pass *)

(** For predictions of shape (1, m), the number that the backward pass hands
    to [linear_backward] as [m] is 1, the number of rows, whatever the
    number of columns. *)
Lemma model_backward_divisor (h : heap) (A : matrix) (y : vector)
  (weights biases : list ref) (cs : caches) (acts : activations)
  (lam : option R) (m : nat) :
  shape A = (1%nat, m) ->
  model_backward_propagation h A y weights biases cs acts lam =
  (y' <- reshape y (1%nat, m) ;;
   dA <- output_error y' (mmap (clip epsilon (1 - epsilon)) A) ;;
   for_range (length weights)
     (model_backward_body h cs acts lam (length weights) 1 dA)
     (mk_gradients [] [] [])).
Proof.
  intros HA. unfold model_backward_propagation. rewrite HA.
  unfold reshape. cbn [fst snd].
  destruct (Nat.eqb (vlen y) (1 * m)); reflexivity.
Qed.

(** C2: the backward pass of the network with one weight on a batch of two
    samples.  With dZ the error signal times the activation derivative and
    d = dZ . A_prev^T, the weight gradient is d divided by 1, not by the
    batch size 2, and the bias gradient is the row sum of dZ divided by 1,
    not by 2; with L2 regularization of strength 1/2 the weight gradient is
    d + W/2 divided by 1, not by 2. *)
Theorem backward_divides_by_rows_not_batch :
  exists A cs Z A_prev y2 dA0 dZ d gs dW db gsr dWr,
    model_forward_propagation (one_heap 2 0) pair_X [0%nat] [1%nat] one_acts
      = Ok (A, cs) /\
    shape A = (1%nat, 2%nat) /\
    c_Z cs = [Z] /\ c_A_prev cs = [A_prev] /\
    reshape pair_y (shape A) = Ok y2 /\
    output_error y2 (mmap (clip epsilon (1 - epsilon)) A) = Ok dA0 /\
    mul_operand dA0 (derivative_activation Z (output one_acts)) = Ok dZ /\
    dot dZ (transpose A_prev) = Ok d /\
    model_backward_propagation (one_heap 2 0) A pair_y [0%nat] [1%nat] cs
      one_acts None = Ok gs /\
    gradients_W gs = [dW] /\ gradients_b gs = [db] /\
    entry dW 0 0 = entry d 0 0 / 1 /\
    entry dW 0 0 <> entry d 0 0 / 2 /\
    entry db 0 0 = entry (sum_axis1 dZ) 0 0 / 1 /\
    entry db 0 0 <> entry (sum_axis1 dZ) 0 0 / 2 /\
    model_backward_propagation (one_heap 2 0) A pair_y [0%nat] [1%nat] cs
      one_acts (Some (1 / 2)) = Ok gsr /\
    gradients_W gsr = [dWr] /\
    entry dWr 0 0 = (entry d 0 0 + 1 / 2 * 2) / 1 /\
    entry dWr 0 0 <> (entry d 0 0 + 1 / 2 * 2) / 2.
Proof.
  pose proof inv_one_minus_epsilon as Hinv.
  do 13 eexists. repeat split; try reflexivity.
  all: cbn; rewrite (clip_saturated 2 0) by lra;
    unfold Rdiv; rewrite ?Rinv_1;
    generalize dependent (/ (1 - epsilon)); intros v Hv.
  - ring.
  - lra.
  - ring.
  - lra.
  - ring.
  - lra.
Qed.

(** ** The recorded loss under L2 regularization *)

Lemma sum_upto_ext (n : nat) (f g : nat -> R) :
  (forall i, (i < n)%nat -> f i = g i) -> sum_upto n f = sum_upto n g.
Proof.
  induction n as [|n IH]; intros H; simpl; [reflexivity|].
  rewrite IH by (intros i Hi; apply H; lia). rewrite H by lia. reflexivity.
Qed.

Lemma bidx_lt (d i : nat) : (i < d)%nat -> bidx d i = i.
Proof.
  intros H. unfold bidx. destruct (Nat.eqb_spec d 1); [lia | reflexivity].
Qed.

Lemma regularization_sum_spec (h : heap) (weights : list ref)
  (Ws : list matrix) :
  Forall2 (fun w W => load h w = Ok W) weights Ws ->
  forall acc, regularization_sum h weights acc = Ok (acc + sum_squares Ws).
Proof.
  induction 1 as [|w W ws Ws' Hw _ IH]; intros acc; simpl.
  - rewrite Rplus_0_r. reflexivity.
  - rewrite Hw. cbn [bind]. rewrite IH. f_equal. ring.
Qed.

(** [compute_cost_regularization] computes the regularized loss of the
    specification, for the strength it is given. *)
Lemma compute_cost_regularization_spec (h : heap) (y : vector) (A : matrix)
  (weights : list ref) (Ws : list matrix) (lam : R) :
  shape A = (1%nat, vlen y) -> (0 < vlen y)%nat ->
  Forall2 (fun w W => load h w = Ok W) weights Ws ->
  compute_cost_regularization h y A weights lam
  = Ok (regularized_loss lam y A Ws).
Proof.
  intros HA Hm Hload. shape_eqs HA Hr Hc.
  unfold compute_cost_regularization, map2.
  cbn [nrows ncols as_row mmap vmap vlen]. rewrite Hr, Hc, !bdim_same.
  cbn [bind nrows ncols]. rewrite !bdim_same. cbn [bind].
  rewrite (regularization_sum_spec h weights Ws Hload). cbn [bind].
  replace (Nat.eqb (2 * vlen y) 0) with false by (symmetry; apply Nat.eqb_neq; lia).
  f_equal. unfold regularized_loss, cross_entropy, mean, sum_all.
  cbn [nrows ncols entry sum_upto].
  assert (Hn : INR (vlen y) <> 0) by (apply not_0_INR; lia).
  rewrite !mult_INR. change (INR 2) with 2. change (INR 1) with 1.
  rewrite Rplus_0_l, Rplus_0_l.
  rewrite (sum_upto_ext (vlen y) _
             (fun i =>
                vnth y i * ln (clip epsilon (1 - epsilon) (entry A 0 i)) +
                (1 - vnth y i) *
                ln (1 - clip epsilon (1 - epsilon) (entry A 0 i)))).
  - field. assumption.
  - intros i Hi. cbn [bidx Nat.eqb]. rewrite !(bidx_lt (vlen y)) by
      (rewrite ?bidx_lt by assumption; assumption).
    reflexivity.
Qed.

(** Whatever strength the caller asks for, the loss that an epoch records
    under L2 regularization is the regularized loss of strength 0.01. *)
Lemma epoch_train_recorded_loss (h : heap) (X : matrix) (y : vector)
  (acts : activations) (lr : R) (weights biases : list ref) (lam : R)
  (Ws : list matrix) (A : matrix) (cs : caches) (e : epoch_result) :
  model_forward_propagation h X weights biases acts = Ok (A, cs) ->
  shape A = (1%nat, vlen y) -> (0 < vlen y)%nat ->
  Forall2 (fun w W => load h w = Ok W) weights Ws ->
  epoch_train h X y acts lr weights biases (Some lam) = Ok e ->
  e_cost e = regularized_loss 0.01 y A Ws.
Proof.
  intros Hf HA Hm Hload He. unfold epoch_train in He. rewrite Hf in He.
  cbn [bind] in He.
  rewrite (compute_cost_regularization_spec h y A weights Ws 0.01 HA Hm Hload) in He.
  cbn [bind] in He. inv_ok He. reflexivity.
Qed.

(** C3: an epoch (with [verbose=False]) of the network with one weight, of
    value 2, asked for L2 regularization of strength 1.  The loss it records
    is the cross-entropy plus (0.01 / (2 m)) times the squared weights, not
    the cross-entropy plus (1 / (2 m)) times the squared weights. *)
Theorem recorded_loss_uses_fixed_strength :
  exists e A cs,
    epoch_train (one_heap 2 0) one_X (one_y 1) one_acts 1 [0%nat] [1%nat]
      (Some 1) = Ok e /\
    model_forward_propagation (one_heap 2 0) one_X [0%nat] [1%nat] one_acts
      = Ok (A, cs) /\
    e_cost e = regularized_loss 0.01 (one_y 1) A [mk_matrix 1 1 (fun _ _ => 2)] /\
    e_cost e <> regularized_loss 1 (one_y 1) A [mk_matrix 1 1 (fun _ _ => 2)].
Proof.
  do 3 eexists. split; [reflexivity|]. split; [reflexivity|].
  unfold regularized_loss, cross_entropy, mean, sum_all. cbn.
  generalize (ln (clip epsilon (1 - epsilon) (0 + 2 * 1 + 0))).
  generalize (ln (1 - clip epsilon (1 - epsilon) (0 + 2 * 1 + 0))).
  intros a b. split; lra.
Qed.

(** * Further properties of the code *)

(** ** A linear step *)

Lemma bdim_ok_iff (a b r : nat) :
  bdim a b = Ok r <->
  (a = b /\ r = a) \/ (a <> b /\ a = 1%nat /\ r = b) \/
  (a <> b /\ a <> 1%nat /\ b = 1%nat /\ r = a).
Proof.
  unfold bdim.
  destruct (Nat.eqb_spec a b) as [E|E];
    [|destruct (Nat.eqb_spec a 1) as [E1|E1];
      [|destruct (Nat.eqb_spec b 1) as [E2|E2]]];
    split; intros H; try (inversion H; subst; clear H); try discriminate;
    try solve [intuition (subst; auto; try lia)];
    try solve [destruct H as [[? ?]|[[? [? ?]]|[? [? [? ?]]]]]; subst;
               try reflexivity; try lia; try contradiction; f_equal; lia].
Qed.

(** X1: [linear_forward] returns exactly when the weight array has as many
    columns as the input has rows and the bias has, on each axis, either the
    length of the product [W . A] or length 1; in every other case it raises
    (a bias that would stretch the product trips the assertion).  What it
    returns has shape (rows of W, columns of A) and holds, at row i and
    column j, the sum over k of W[i,k] * A[k,j] plus the bias entry that
    broadcasting reads there. *)
Theorem linear_forward_returns_iff (A W b : matrix) :
  ((exists Z, linear_forward A W b = Ok Z) <->
   ncols W = nrows A /\
   (nrows b = nrows W \/ nrows b = 1%nat) /\
   (ncols b = ncols A \/ ncols b = 1%nat)) /\
  (forall Z, linear_forward A W b = Ok Z ->
     shape Z = (nrows W, ncols A) /\
     forall i j, (i < nrows W)%nat -> (j < ncols A)%nat ->
       entry Z i j =
       sum_upto (ncols W) (fun k => entry W i k * entry A k j) +
       entry b (bidx (nrows b) i) (bidx (ncols b) j)).
Proof.
  assert (Hinv : forall Z, linear_forward A W b = Ok Z ->
            ncols W = nrows A /\
            bdim (nrows W) (nrows b) = Ok (nrows W) /\
            bdim (ncols A) (ncols b) = Ok (ncols A) /\
            Z = mk_matrix (nrows W) (ncols A)
                  (fun i j =>
                     sum_upto (ncols W)
                       (fun k => entry W (bidx (nrows W) i) k *
                                 entry A k (bidx (ncols A) j)) +
                     entry b (bidx (nrows b) i) (bidx (ncols b) j))).
  { intros Z H. unfold linear_forward in H.
    apply bind_ok in H. destruct H as [WA [Hd H]].
    apply bind_ok in H. destruct H as [Z0 [Hm H]].
    apply bind_ok in H. destruct H as [u [Ha H]].
    inversion H; subst Z0; clear H.
    apply py_assert_ok in Ha. apply shape_eqb_eq in Ha.
    unfold dot in Hd. destruct (Nat.eqb_spec (ncols W) (nrows A)) as [E|E];
      [|discriminate].
    inversion Hd; subst WA; clear Hd. unfold map2 in Hm. cbn [nrows ncols] in Hm.
    apply bind_ok in Hm. destruct Hm as [r [Hr Hm]].
    apply bind_ok in Hm. destruct Hm as [c [Hc Hm]].
    inversion Hm; subst Z; clear Hm. unfold shape in Ha. cbn [nrows ncols] in Ha.
    inversion Ha; subst r c. repeat split; try assumption. }
  split; [split|].
  - intros [Z H]. destruct (Hinv Z H) as [E [Hr [Hc _]]].
    apply bdim_ok_iff in Hr, Hc. split; [assumption|]. split; lia.
  - intros [E [Hr Hc]]. unfold linear_forward, dot.
    rewrite E, Nat.eqb_refl. cbn [bind]. unfold map2. cbn [nrows ncols].
    assert (Br : bdim (nrows W) (nrows b) = Ok (nrows W))
      by (apply bdim_ok_iff; lia).
    assert (Bc : bdim (ncols A) (ncols b) = Ok (ncols A))
      by (apply bdim_ok_iff; lia).
    rewrite Br, Bc. cbn [bind]. unfold shape at 1. cbn [nrows ncols].
    rewrite shape_eqb_refl. cbn [py_assert bind]. eexists. reflexivity.
  - intros Z H. destruct (Hinv Z H) as [_ [_ [_ ->]]].
    split; [reflexivity|]. intros i j Hi Hj. cbn [entry].
    rewrite !bidx_lt by assumption. reflexivity.
Qed.

Lemma linear_forward_returns_iff_witness :
  exists Z, linear_forward ex_X ex_W ex_b = Ok Z /\
            shape Z = (1%nat, 3%nat) /\
            entry Z 0 1 = 1 / 2 * INR 1 + 1 / 2 * INR 2.
Proof.
  destruct (proj2 (proj1 (linear_forward_returns_iff ex_X ex_W ex_b)))
    as [Z HZ].
  - simpl. repeat split; auto.
  - exists Z. split; [exact HZ|].
    destruct (proj2 (linear_forward_returns_iff ex_X ex_W ex_b) Z HZ)
      as [HS HE].
    split; [exact HS|].
    rewrite (HE 0%nat 1%nat) by (simpl; lia). cbn -[INR]. ring.
Defined.

(** ** Activation functions *)

Lemma sigmoid_value_range (z : R) : 0 < 1 / (1 + exp (- z)) < 1.
Proof.
  pose proof (exp_pos (- z)) as He.
  assert (Hd : 0 < 1 + exp (- z)) by lra.
  split.
  - apply Rdiv_lt_0_compat; lra.
  - apply Rmult_lt_reg_r with (1 + exp (- z)); [assumption|].
    unfold Rdiv. rewrite Rmult_assoc, Rinv_l by lra. lra.
Qed.

Lemma tanh_value_range (z : R) : -1 < Rtrigo_def.tanh z < 1.
Proof.
  unfold Rtrigo_def.tanh, sinh, cosh.
  pose proof (exp_pos z) as Ha. pose proof (exp_pos (- z)) as Hb.
  assert (Hd : 0 < (exp z + exp (- z)) / 2) by lra.
  split.
  - apply Rmult_lt_reg_r with ((exp z + exp (- z)) / 2); [assumption|].
    unfold Rdiv at 2. rewrite Rmult_assoc, Rinv_l by lra. lra.
  - apply Rmult_lt_reg_r with ((exp z + exp (- z)) / 2); [assumption|].
    unfold Rdiv at 1. rewrite Rmult_assoc, Rinv_l by lra. lra.
Qed.

(** X2: every entry that the activation dispatch yields for "sigmoid" lies
    between 0 and 1, for "tanh" between -1 and 1 (the bounds included: a
    float64 result reaches them for inputs far from 0), and for "relu" is
    the larger of 0 and the input entry, so never negative. *)
Theorem activation_function_ranges (Z : matrix) (i j : nat) :
  0 <= entry (activation_function Z "sigmoid") i j <= 1 /\
  -1 <= entry (activation_function Z "tanh") i j <= 1 /\
  0 <= entry (activation_function Z "relu") i j /\
  (0 <= entry Z i j ->
   entry (activation_function Z "relu") i j = entry Z i j) /\
  (entry Z i j <= 0 -> entry (activation_function Z "relu") i j = 0).
Proof.
  cbn.
  split; [pose proof (sigmoid_value_range (entry Z i j)); lra|].
  split; [pose proof (tanh_value_range (entry Z i j)); lra|].
  split; [apply Rmax_l|]. split; intros H.
  - apply Rmax_right. assumption.
  - apply Rmax_left. assumption.
Qed.

Lemma sigmoid_derivable (z : R) :
  derivable_pt_lim (fun x => 1 / (1 + exp (- x))) z
    (1 / (1 + exp (- z)) * (1 - 1 / (1 + exp (- z)))).
Proof.
  pose proof (exp_pos (- z)) as He.
  assert (D2 : derivable_pt_lim (fct_cte 1 + comp exp (- id))%F z
                 (0 + exp (- z) * - 1)).
  { apply derivable_pt_lim_plus; [apply derivable_pt_lim_const|].
    apply derivable_pt_lim_comp.
    - apply derivable_pt_lim_opp. apply derivable_pt_lim_id.
    - apply derivable_pt_lim_exp. }
  pose proof (derivable_pt_lim_div (fct_cte 1)
                (fct_cte 1 + comp exp (- id))%F z 0 _
                (derivable_pt_lim_const 1 z) D2) as D.
  assert (Hne : (fct_cte 1 + comp exp (- id))%F z <> 0).
  { unfold plus_fct, fct_cte, comp, opp_fct, id. lra. }
  specialize (D Hne).
  unfold plus_fct, fct_cte, comp, opp_fct, id, Rsqr in D.
  replace (1 / (1 + exp (- z)) * (1 - 1 / (1 + exp (- z))))
    with ((0 * (1 + exp (- z)) - (0 + exp (- z) * - 1) * 1) /
          ((1 + exp (- z)) * (1 + exp (- z)))) by (field; lra).
  apply (derivable_pt_lim_ext
           (fct_cte 1 / (fct_cte 1 + comp exp (- id)))%F); [|exact D].
  intros x. reflexivity.
Qed.

Lemma cosh_positive (z : R) : 0 < cosh z.
Proof.
  unfold cosh. pose proof (exp_pos z). pose proof (exp_pos (- z)). lra.
Qed.

Lemma tanh_derivable (z : R) :
  derivable_pt_lim Rtrigo_def.tanh z (1 - Rtrigo_def.tanh z ^ 2).
Proof.
  pose proof (cosh_positive z) as Hc.
  pose proof (derivable_pt_lim_div sinh cosh z _ _
                (derivable_pt_lim_sinh z) (derivable_pt_lim_cosh z)) as D.
  assert (Hne : cosh z <> 0) by lra. specialize (D Hne).
  replace (1 - Rtrigo_def.tanh z ^ 2)
    with ((cosh z * cosh z - sinh z * sinh z) / Rsqr (cosh z)).
  - apply (derivable_pt_lim_ext (sinh / cosh)%F); [|exact D].
    intros x. reflexivity.
  - unfold Rtrigo_def.tanh, Rsqr. field. assumption.
Qed.

Lemma relu_derivable (z : R) :
  z <> 0 ->
  derivable_pt_lim (fun x => Rmax 0 x) z (if Rgt_dec z 0 then 1 else 0).
Proof.
  intros Hz. destruct (Rgt_dec z 0) as [Hpos|Hneg].
  - apply (derivable_pt_lim_locally_ext id _ z 0 (z + 1)); [lra| |].
    + intros x Hx. unfold id. symmetry. apply Rmax_right. lra.
    + apply derivable_pt_lim_id.
  - apply (derivable_pt_lim_locally_ext (fct_cte 0) _ z (z - 1) 0); [lra| |].
    + intros x Hx. unfold fct_cte. symmetry. apply Rmax_left. lra.
    + apply derivable_pt_lim_const.
Qed.

(** X3: the arrays that [sigmoid_derivative], [tanh_derivative] and
    [relu_derivative] build from the pre-activation Z hold, entry by entry,
    the derivative at Z[i,j] of the function that [sigmoid], [tanh] and
    [relu] apply to an entry; for relu this holds wherever Z[i,j] is not 0,
    and at 0 the entry is 0. *)
Theorem activation_derivatives_are_derivatives (Z : matrix) (i j : nat) :
  derivable_pt_lim (fun x => entry (sigmoid (mk_matrix 1 1 (fun _ _ => x))) 0 0)
    (entry Z i j) (entry (sigmoid_derivative Z) i j) /\
  derivable_pt_lim (fun x => entry (tanh (mk_matrix 1 1 (fun _ _ => x))) 0 0)
    (entry Z i j) (entry (tanh_derivative Z) i j) /\
  (entry Z i j <> 0 ->
   derivable_pt_lim (fun x => entry (relu (mk_matrix 1 1 (fun _ _ => x))) 0 0)
     (entry Z i j) (entry (relu_derivative Z) i j)) /\
  (entry Z i j = 0 -> entry (relu_derivative Z) i j = 0).
Proof.
  cbn. split; [apply sigmoid_derivable|].
  split.
  - replace ((Rtrigo_def.tanh (entry Z i j) * (Rtrigo_def.tanh (entry Z i j) * 1)))
      with (Rtrigo_def.tanh (entry Z i j) ^ 2) by (simpl; ring).
    apply tanh_derivable.
  - split; [apply relu_derivable|].
    intros ->. destruct (Rgt_dec 0 0); [lra | reflexivity].
Qed.

(** X4: when the network has at least one layer and the output activation is
    "sigmoid", every entry of what the forward pass returns is a probability:
    it lies between 0 and 1, the bounds included. *)
Theorem forward_pass_yields_probabilities (h : heap) (X : matrix)
  (weights biases : list ref) (acts : activations) (A : matrix) (cs : caches) :
  (1 <= length weights)%nat ->
  output acts = "sigmoid"%string ->
  model_forward_propagation h X weights biases acts = Ok (A, cs) ->
  forall i j, 0 <= entry A i j <= 1.
Proof.
  intros HL Hout H. unfold model_forward_propagation, for_range in H.
  destruct (length weights) as [|n] eqn:EL; [lia|].
  rewrite for_from_snoc in H. apply bind_ok in H.
  destruct H as [[A0 c0] [_ H]]. cbn [Nat.add] in H.
  unfold model_forward_body in H. inv_ok H.
  match goal with
  | H : forward_propagation _ _ _ _ = Ok _ |- _ =>
      unfold forward_propagation in H; inv_ok H
  end.
  rewrite Nat.sub_0_r, Nat.eqb_refl. cbn [negb].
  rewrite Hout. intros i j. cbn.
  match goal with
  | |- _ <= 1 / (1 + exp (- ?z)) <= _ =>
      pose proof (sigmoid_value_range z); lra
  end.
Qed.

Lemma forward_pass_yields_probabilities_witness :
  exists A cs,
    model_forward_propagation ex_heap ex_X [0%nat] [1%nat] ex_acts = Ok (A, cs) /\
    forall i j, 0 <= entry A i j <= 1.
Proof.
  eexists. eexists. split; [reflexivity|].
  eapply (forward_pass_yields_probabilities ex_heap ex_X [0%nat] [1%nat] ex_acts).
  - simpl. lia.
  - reflexivity.
  - reflexivity.
Defined.

(** ** Cost *)

Lemma clip_range (x : R) :
  epsilon <= clip epsilon (1 - epsilon) x <= 1 - epsilon.
Proof.
  pose proof epsilon_bounds as [H0 H1]. unfold clip. split.
  - apply Rmin_glb; [apply Rmax_r | lra].
  - apply Rmin_r.
Qed.

Lemma sum_upto_bounds (n : nat) (f : nat -> R) (a b : R) :
  (forall i, (i < n)%nat -> a <= f i <= b) ->
  INR n * a <= sum_upto n f <= INR n * b.
Proof.
  induction n as [|n IH]; intros H.
  - simpl. lra.
  - rewrite S_INR. cbn [sum_upto].
    destruct IH as [I1 I2]; [intros i Hi; apply H; lia|].
    destruct (H n) as [F1 F2]; [lia|]. lra.
Qed.

(** [compute_cost] computes the cross-entropy of the specification when the
    predictions have a first row with one column per label. *)
Lemma compute_cost_spec (y : vector) (A : matrix) :
  (1 <= nrows A)%nat -> ncols A = vlen y -> (0 < vlen y)%nat ->
  compute_cost y A = Ok (cross_entropy y A).
Proof.
  intros Hr Hc Hm. unfold compute_cost, row0.
  replace (Nat.eqb (nrows A) 0) with false by (symmetry; apply Nat.eqb_neq; lia).
  cbn [bind].
  replace (Nat.eqb (vlen y) 0) with false by (symmetry; apply Nat.eqb_neq; lia).
  unfold vmap2. cbn [vlen vmap vnth]. rewrite Hc, !bdim_same. cbn [bind vlen].
  rewrite bdim_same. cbn [bind]. f_equal.
  unfold cross_entropy, vsum. cbn [vlen vnth].
  assert (Hn : INR (vlen y) <> 0) by (apply not_0_INR; lia).
  rewrite (sum_upto_ext (vlen y) _
             (fun i =>
                vnth y i * ln (clip epsilon (1 - epsilon) (entry A 0 i)) +
                (1 - vnth y i) *
                ln (1 - clip epsilon (1 - epsilon) (entry A 0 i)))).
  - field. assumption.
  - intros i Hi. rewrite !(bidx_lt (vlen y)) by
      (rewrite ?bidx_lt by assumption; assumption).
    reflexivity.
Qed.

Lemma cross_entropy_bounds (y : vector) (A : matrix) :
  (0 < vlen y)%nat ->
  (forall i, (i < vlen y)%nat -> 0 <= vnth y i <= 1) ->
  - ln (1 - epsilon) <= cross_entropy y A <= - ln epsilon.
Proof.
  intros Hm Hy. pose proof epsilon_bounds as [E0 E1].
  assert (Hn : 0 < INR (vlen y)) by (apply lt_0_INR; assumption).
  assert (Hln : forall q, epsilon <= q <= 1 - epsilon ->
                          ln epsilon <= ln q <= ln (1 - epsilon)).
  { intros q [Q1 Q2]. split.
    - destruct Q1 as [Q1| <-]; [left; apply ln_increasing; lra | right; reflexivity].
    - destruct Q2 as [Q2| ->]; [left; apply ln_increasing; lra | right; reflexivity]. }
  destruct (sum_upto_bounds (vlen y)
              (fun i =>
                 vnth y i * ln (clip epsilon (1 - epsilon) (entry A 0 i)) +
                 (1 - vnth y i) *
                 ln (1 - clip epsilon (1 - epsilon) (entry A 0 i)))
              (ln epsilon) (ln (1 - epsilon))) as [S1 S2].
  { intros i Hi. destruct (Hy i Hi) as [Y0 Y1].
    pose proof (clip_range (entry A 0 i)) as Hp.
    destruct (Hln _ Hp) as [P1 P2].
    destruct (Hln (1 - clip epsilon (1 - epsilon) (entry A 0 i))) as [Q1 Q2];
      [lra|].
    split; nra. }
  unfold cross_entropy.
  set (S := sum_upto _ _) in *.
  replace (- (1 / INR (vlen y)) * S) with (- (S / INR (vlen y))) by (field; lra).
  split.
  - apply Ropp_le_contravar.
    apply Rmult_le_reg_r with (INR (vlen y)); [assumption|].
    unfold Rdiv. rewrite Rmult_assoc, Rinv_l by lra. lra.
  - apply Ropp_le_contravar.
    apply Rmult_le_reg_r with (INR (vlen y)); [assumption|].
    unfold Rdiv. rewrite Rmult_assoc, Rinv_l by lra. lra.
Qed.

(** X5: for predictions with a first row that has one column per label,
    [compute_cost] returns minus the mean, over the samples, of
    y log(p) + (1 - y) log(1 - p), with p the prediction clamped to
    [epsilon, 1 - epsilon]. *)
Theorem compute_cost_is_cross_entropy (y : vector) (A : matrix) :
  (1 <= nrows A)%nat -> ncols A = vlen y -> (0 < vlen y)%nat ->
  compute_cost y A =
  Ok (- (1 / INR (vlen y)) *
      sum_upto (vlen y)
        (fun i =>
           vnth y i * ln (clip epsilon (1 - epsilon) (entry A 0 i)) +
           (1 - vnth y i) * ln (1 - clip epsilon (1 - epsilon) (entry A 0 i)))).
Proof. exact (compute_cost_spec y A). Qed.

Lemma compute_cost_is_cross_entropy_witness :
  compute_cost ex_y (zeros 1 3) =
  Ok (- (1 / INR 3) *
      sum_upto 3
        (fun i =>
           vnth ex_y i * ln (clip epsilon (1 - epsilon) 0) +
           (1 - vnth ex_y i) * ln (1 - clip epsilon (1 - epsilon) 0))).
Proof.
  apply (compute_cost_is_cross_entropy ex_y (zeros 1 3)).
  - simpl. lia.
  - reflexivity.
  - simpl. lia.
Defined.

(** X6: with labels between 0 and 1, the cost that [compute_cost] returns is
    positive and at most -log(epsilon / 2): clamping keeps every logarithm
    finite.  (The bound leaves room for the rounding of 1 - p in float64,
    where 1 - (1 - epsilon) is a little below epsilon.) *)
Theorem compute_cost_bounds (y : vector) (A : matrix) :
  (1 <= nrows A)%nat -> ncols A = vlen y -> (0 < vlen y)%nat ->
  (forall i, (i < vlen y)%nat -> 0 <= vnth y i <= 1) ->
  exists c,
    compute_cost y A = Ok c /\ 0 < c /\ c <= - ln (epsilon / 2).
Proof.
  intros Hr Hc Hm Hy. exists (cross_entropy y A).
  split; [apply compute_cost_spec; assumption|].
  destruct (cross_entropy_bounds y A Hm Hy) as [B1 B2].
  pose proof epsilon_bounds as [E0 E1].
  assert (Hpos : ln (1 - epsilon) < 0).
  { rewrite <- ln_1. apply ln_increasing; lra. }
  assert (Hhalf : ln (epsilon / 2) < ln epsilon).
  { apply ln_increasing; lra. }
  split; lra.
Qed.

Lemma ex_y_labels (i : nat) : 0 <= vnth ex_y i <= 1.
Proof.
  cbn [ex_y vnth]. pose proof (Nat.mod_upper_bound i 2) as H.
  destruct (i mod 2)%nat as [|[|k]]; simpl; try lra. lia.
Qed.

Lemma compute_cost_bounds_witness :
  exists c,
    compute_cost ex_y (zeros 1 3) = Ok c /\ 0 < c /\ c <= - ln (epsilon / 2).
Proof.
  apply (compute_cost_bounds ex_y (zeros 1 3)).
  - simpl. lia.
  - reflexivity.
  - simpl. lia.
  - intros i _. apply ex_y_labels.
Defined.

(** X7: how [compute_cost] fails.  Predictions without a row raise
    IndexError; otherwise an empty label array raises ZeroDivisionError;
    otherwise labels and predictions whose lengths differ, neither being 1,
    raise ValueError. *)
Theorem compute_cost_raises (y : vector) (A : matrix) :
  (nrows A = 0%nat -> compute_cost y A = Raise IndexError) /\
  (nrows A <> 0%nat -> vlen y = 0%nat ->
   compute_cost y A = Raise ZeroDivisionError) /\
  (nrows A <> 0%nat -> vlen y <> 0%nat ->
   vlen y <> ncols A -> vlen y <> 1%nat -> ncols A <> 1%nat ->
   compute_cost y A = Raise ValueError).
Proof.
  unfold compute_cost, row0. split; [|split].
  - intros ->. reflexivity.
  - intros Hr ->. apply Nat.eqb_neq in Hr. rewrite Hr. reflexivity.
  - intros Hr Hm H1 H2 H3. apply Nat.eqb_neq in Hr, Hm, H1, H2, H3.
    rewrite Hr. cbn [bind]. rewrite Hm. unfold vmap2. cbn [vlen vmap].
    unfold bdim. rewrite H1, H2, H3. reflexivity.
Qed.

Lemma compute_cost_raises_witness :
  compute_cost ex_y (zeros 0 3) = Raise IndexError /\
  compute_cost (mk_vector 0 (fun _ => 0)) (zeros 1 3) = Raise ZeroDivisionError /\
  compute_cost ex_y (zeros 1 2) = Raise ValueError.
Proof.
  split; [|split].
  - apply (proj1 (compute_cost_raises ex_y (zeros 0 3))). reflexivity.
  - apply (proj1 (proj2 (compute_cost_raises (mk_vector 0 (fun _ => 0))
                           (zeros 1 3)))); simpl; lia.
  - apply (proj2 (proj2 (compute_cost_raises ex_y (zeros 1 2)))); simpl; lia.
Defined.





(** ** Backward propagation *)

(** X9: on parameter arrays of the declared shapes, for a network with one
    output unit, a known hidden activation, an input of shape (units[0], m)
    and m labels, the forward pass followed by the backward pass returns one
    weight gradient and one bias gradient per layer, in layer order, each of
    the shape of the array it belongs to. *)
Theorem gradients_match_parameter_shapes (h : heap) (units : list nat)
  (weights biases : list ref) (acts : activations) (lam : option R)
  (X : matrix) (y : vector) :
  shaped h units weights biases ->
  nth (length weights) units O = 1%nat ->
  known_activation (hidden acts) ->
  shape X = (nth 0 units O, vlen y) ->
  exists A cs gs,
    model_forward_propagation h X weights biases acts = Ok (A, cs) /\
    model_backward_propagation h A y weights biases cs acts lam = Ok gs /\
    length (gradients_W gs) = length weights /\
    length (gradients_b gs) = length weights /\
    forall l, (l < length weights)%nat ->
      exists w b W B dW db,
        nth_error weights l = Some w /\ nth_error biases l = Some b /\
        load h w = Ok W /\ load h b = Ok B /\
        nth_error (gradients_W gs) l = Some dW /\
        nth_error (gradients_b gs) l = Some db /\
        shape dW = shape W /\ shape db = shape B.
Proof.
  intros Hs Hlast Hk HX.
  destruct (model_forward_total h units weights biases acts (vlen y) Hs X HX)
    as [A [cs [Hf [SA [_ Hcs]]]]].
  cbn [fst snd] in SA, Hcs. rewrite Hlast in SA.
  destruct (model_backward_total h units weights biases acts lam (vlen y) cs A y)
    as [gs [Hb [Lw [Lb Hg]]]]; try assumption; try reflexivity.
  exists A, cs, gs. repeat split; try assumption.
  intros l Hl. destruct Hs as [_ [_ Hp]].
  destruct (Hp l Hl) as [w [b [W [B [E1 [E2 [E3 [E4 [E5 E6]]]]]]]]].
  destruct (Hg l Hl) as [dW [db [G1 [G2 [G3 G4]]]]].
  exists w, b, W, B, dW, db. rewrite E5, E6, G3, G4. repeat split; assumption.
Qed.

Lemma gradients_match_parameter_shapes_witness :
  exists A cs gs,
    model_forward_propagation ex_heap ex_X [0%nat] [1%nat] ex_acts = Ok (A, cs) /\
    model_backward_propagation ex_heap A ex_y [0%nat] [1%nat] cs ex_acts
      (Some 0.5) = Ok gs /\
    length (gradients_W gs) = length [0%nat] /\
    length (gradients_b gs) = length [0%nat] /\
    forall l, (l < length [0%nat])%nat ->
      exists w b W B dW db,
        nth_error [0%nat] l = Some w /\ nth_error [1%nat] l = Some b /\
        load ex_heap w = Ok W /\ load ex_heap b = Ok B /\
        nth_error (gradients_W gs) l = Some dW /\
        nth_error (gradients_b gs) l = Some db /\
        shape dW = shape W /\ shape db = shape B.
Proof.
  apply (gradients_match_parameter_shapes ex_heap [2; 1]%nat [0%nat] [1%nat]
           ex_acts (Some 0.5) ex_X ex_y).
  - exact ex_shaped.
  - reflexivity.
  - right. left. reflexivity.
  - reflexivity.
Defined.

(** X10: where [linear_backward] returns without regularization, it also
    returns with L2 regularization of any strength, with the same bias
    gradient and the same gradient for the layer below; the weight gradient
    keeps its shape and each entry grows by lambda * W[i,j] / m. *)
Theorem l2_shifts_weight_gradient (dA : matrix) (m : nat) (g : operand)
  (A_prev W b : matrix) (lam : R) (dA_prev dW db : matrix) :
  linear_backward dA m g A_prev W b None = Ok (dA_prev, dW, db) ->
  exists dWr,
    linear_backward dA m g A_prev W b (Some lam) = Ok (dA_prev, dWr, db) /\
    shape dWr = shape dW /\
    forall i j, (i < nrows W)%nat -> (j < ncols W)%nat ->
      entry dWr i j = entry dW i j + lam * entry W i j / INR m.
Proof.
  unfold linear_backward. intros H.
  apply bind_ok in H. destruct H as [dZ [HdZ H]]. rewrite HdZ. cbn [bind].
  apply bind_ok in H. destruct H as [dW0 [HdW H]].
  apply bind_ok in HdW. destruct HdW as [d [Hd HdW]].
  inversion HdW; subst dW0; clear HdW.
  apply bind_ok in H. destruct H as [p [Hp H]].
  apply bind_ok in H. destruct H as [u1 [A1 H]].
  apply bind_ok in H. destruct H as [u2 [A2 H]].
  apply bind_ok in H. destruct H as [u3 [A3 H]].
  inversion H; subst dA_prev dW db; clear H.
  pose proof (py_assert_ok _ _ A2) as S2. apply shape_eqb_eq in S2.
  rewrite shape_mmap in S2.
  rewrite Hd. cbn [bind].
  destruct (map2_shape_same Rplus d (mmap (fun x => lam * x) W)) as [t [Ht St]];
    [rewrite shape_mmap; exact S2|].
  assert (Et : t = mk_matrix (nrows d) (ncols d)
                 (fun i j =>
                    entry d (bidx (nrows d) i) (bidx (ncols d) j) +
                    lam * entry W (bidx (nrows W) i) (bidx (ncols W) j))).
  { unfold map2 in Ht. shape_eqs S2 Sr Sc. cbn [nrows ncols mmap] in Ht.
    rewrite Sr, Sc, !bdim_same in Ht. cbn [bind] in Ht.
    inversion Ht. rewrite Sr, Sc. reflexivity. }
  rewrite Ht. cbn [bind]. rewrite Hp. cbn [bind]. rewrite A1. cbn [bind].
  assert (A2' : py_assert
                  (shape_eqb (shape (mmap (fun x => x * 1 / INR m) t)) (shape W))
                = Ok tt).
  { rewrite shape_mmap, St, S2, shape_eqb_refl. reflexivity. }
  rewrite A2'. cbn [bind]. rewrite A3. cbn [bind].
  eexists. split; [reflexivity|]. split.
  - rewrite !shape_mmap. exact St.
  - intros i j Hi Hj. shape_eqs S2 Sr Sc. rewrite Et. cbn [entry mmap].
    rewrite Sr, Sc, !bidx_lt by assumption. unfold Rdiv. ring.
Qed.

Lemma l2_shifts_weight_gradient_witness :
  exists dA_prev dW db dWr,
    linear_backward (zeros 1 3) 1 (Scalar 1) ex_X ex_W ex_b None
      = Ok (dA_prev, dW, db) /\
    linear_backward (zeros 1 3) 1 (Scalar 1) ex_X ex_W ex_b (Some 4)
      = Ok (dA_prev, dWr, db) /\
    shape dWr = shape dW /\
    forall i j, (i < nrows ex_W)%nat -> (j < ncols ex_W)%nat ->
      entry dWr i j = entry dW i j + 4 * entry ex_W i j / INR 1.
Proof.
  do 3 eexists.
  assert (H : linear_backward (zeros 1 3) 1 (Scalar 1) ex_X ex_W ex_b None
              = Ok (_, _, _)) by reflexivity.
  destruct (l2_shifts_weight_gradient _ _ _ _ _ _ 4 _ _ _ H) as [dWr HdWr].
  exists dWr. split; [exact H|]. exact HdWr.
Defined.

Lemma for_from_two {S : Type} (body : nat -> S -> result S) (n start : nat)
  (s : S) :
  (2 <= n)%nat ->
  for_from start n body s =
  (t <- body start s ;;
   u <- body (Datatypes.S start) t ;;
   for_from (Datatypes.S (Datatypes.S start)) (n - 2) body u).
Proof.
  intros H. destruct n as [|[|n]]; [lia | lia |].
  rewrite for_from_S. destruct (body start s) as [t|e]; cbn [bind]; [|reflexivity].
  rewrite for_from_S. replace (Datatypes.S (Datatypes.S n) - 2)%nat with n by lia.
  reflexivity.
Qed.

Lemma derivative_activation_unknown (Z : matrix) (activation : string) :
  ~ known_activation activation ->
  derivative_activation Z activation = Scalar 1.
Proof.
  intros H. unfold derivative_activation, known_activation in *.
  destruct (String.eqb_spec activation "sigmoid"); [tauto|].
  destruct (String.eqb_spec activation "relu"); [tauto|].
  destruct (String.eqb_spec activation "tanh"); [tauto|]. reflexivity.
Qed.

(** The backward step of a hidden layer whose activation name is unknown:
    the error signal of shape (1, m) is not stretched to the width of the
    layer, and the product with the transposed weights raises. *)
Lemma model_backward_body_unknown_hidden (h : heap) (units : list nat)
  (weights biases : list ref) (acts : activations) (lam : option R)
  (m mm : nat) (cs : caches) (dA : matrix) (i : nat) (gs : gradients) :
  cache_entry_shaped h units weights biases m cs (length weights - 1 - i) ->
  i <> 0%nat ->
  ~ known_activation (hidden acts) ->
  nth (S (length weights - 1 - i)) units O <> 1%nat ->
  shape dA = (1%nat, m) ->
  model_backward_body h cs acts lam (length weights) mm dA i gs
  = Raise ValueError.
Proof.
  intros [Ap [w [b [W [B [Z [CA [CW [CB [CZ [_ [_ [HW [HB [SA [SW [SB SZ]]]]]]]]]]]]]]]]]
         Hi Hunk Hwidth HdA.
  unfold model_backward_body.
  rewrite (proj2 (getitem_ok _ _ _) CZ), (proj2 (getitem_ok _ _ _) CA),
          (proj2 (getitem_ok _ _ _) CW), (proj2 (getitem_ok _ _ _) CB).
  cbn [bind]. rewrite HW, HB. cbn [bind].
  replace (Nat.eqb i 0) with false by (symmetry; apply Nat.eqb_neq; assumption).
  rewrite (derivative_activation_unknown Z (hidden acts) Hunk).
  unfold linear_backward. cbn [mul_operand bind].
  shape_eqs HdA Dr Dc. shape_eqs SA Ar Ac. shape_eqs SW Wr Wc.
  assert (Hd : exists d, dot (mmap (fun x => x * 1) dA) (transpose Ap) = Ok d /\
                         shape d = (1%nat, nth (length weights - 1 - i) units O)).
  { destruct (dot_shape (mmap (fun x => x * 1) dA) (transpose Ap)) as [d [Hd Sd]].
    - cbn [ncols nrows mmap transpose]. rewrite Dc, Ac. reflexivity.
    - exists d. split; [exact Hd|]. rewrite Sd. cbn [ncols nrows mmap transpose].
      rewrite Dr, Ar. reflexivity. }
  destruct Hd as [d [Hd Sd]]. shape_eqs Sd Sdr Sdc.
  assert (HdW : exists dW,
    match lam with
    | Some lam0 =>
        d0 <- dot (mmap (fun x => x * 1) dA) (transpose Ap) ;;
        t <- map2 Rplus d0 (mmap (fun x => lam0 * x) W) ;;
        Ok (mmap (fun x => x * 1 / INR mm) t)
    | None =>
        d0 <- dot (mmap (fun x => x * 1) dA) (transpose Ap) ;;
        Ok (mmap (fun x => x * 1 / INR mm) d0)
    end = Ok dW).
  { destruct lam as [lam0|]; rewrite Hd; cbn [bind].
    - unfold map2. cbn [nrows ncols mmap]. rewrite Sdr, Sdc, Wc, bdim_1_l, bdim_same.
      cbn [bind]. eexists. reflexivity.
    - eexists. reflexivity. }
  destruct HdW as [dW ->]. cbn [bind].
  unfold dot. cbn [ncols nrows mmap transpose]. rewrite Wr, Dr.
  replace (Nat.eqb (nth (S (length weights - 1 - i)) units O) 1) with false
    by (symmetry; apply Nat.eqb_neq; assumption).
  reflexivity.
Qed.

(** An epoch on a network whose hidden activation name is unknown, with at
    least two layers, one output unit and a last hidden layer of a width
    other than 1: the forward pass returns and the backward pass raises
    ValueError. *)
Lemma epoch_train_unknown_hidden (h : heap)
  (units : list nat) (weights biases : list ref) (acts : activations)
  (lam : option R) (lr : R) (X : matrix) (y : vector) :
  shaped h units weights biases ->
  (2 <= length weights)%nat ->
  nth (length weights) units O = 1%nat ->
  nth (length weights - 1) units O <> 1%nat ->
  ~ known_activation (hidden acts) ->
  shape X = (nth 0 units O, vlen y) -> (0 < vlen y)%nat ->
  (exists A cs, model_forward_propagation h X weights biases acts = Ok (A, cs)) /\
  epoch_train h X y acts lr weights biases lam = Raise ValueError.
Proof.
  intros Hs HL Hlast Hwidth Hunk HX Hm.
  destruct (model_forward_total h units weights biases acts (vlen y) Hs X HX)
    as [A [cs [Hf [SA [_ Hcs]]]]].
  cbn [fst snd] in SA, Hcs. rewrite Hlast in SA.
  split; [exists A, cs; exact Hf|].
  unfold epoch_train. rewrite Hf. cbn [bind].
  assert (Hcost : exists c,
    match lam with
    | Some _ => compute_cost_regularization h y A weights 0.01
    | None => compute_cost y A
    end = Ok c).
  { destruct lam.
    - apply (compute_cost_regularization_total h y A weights 0.01 (vlen y));
        try assumption; try reflexivity.
      intros w Hin. apply In_nth_error in Hin. destruct Hin as [l Hl].
      destruct Hs as [_ [_ Hall]].
      destruct (Hall l) as [w' [b [W [B [Hw [_ [HW _]]]]]]].
      + apply nth_error_Some. rewrite Hl. discriminate.
      + exists W. congruence.
    - apply (compute_cost_total y A (vlen y)); try assumption; reflexivity. }
  destruct Hcost as [c ->]. cbn [bind].
  rewrite (model_backward_divisor h A y weights biases cs acts lam (vlen y) SA).
  unfold reshape. cbn [fst snd]. rewrite Nat.mul_1_l, Nat.eqb_refl. cbn [bind].
  match goal with
  | |- context [output_error ?yy ?AA] =>
      destruct (output_error_total yy AA) as [dA [HdA SdA]]
  end.
  { rewrite shape_mmap, SA. reflexivity. }
  rewrite HdA. cbn [bind]. rewrite shape_mmap, SA in SdA.
  unfold for_range. rewrite for_from_two by assumption.
  (* the output layer: its step reads only the output activation *)
  destruct (model_backward_body_step h units weights biases
              (mk_activations "relu" (output acts)) lam (vlen y) 1 cs dA)
    with (i := 0%nat) (gs := mk_gradients [] [] []) as [gs1 [Hstep _]].
  - exact Hcs.
  - exact Hlast.
  - right. left. reflexivity.
  - exact SdA.
  - lia.
  - simpl. repeat split; auto. intros k Hk. lia.
  - change (model_backward_body h cs acts lam (length weights) 1 dA 0
              (mk_gradients [] [] []))
      with (model_backward_body h cs (mk_activations "relu" (output acts)) lam
              (length weights) 1 dA 0 (mk_gradients [] [] [])).
    rewrite Hstep. cbn [bind].
    rewrite (model_backward_body_unknown_hidden h units weights biases acts lam
               (vlen y) 1 cs dA 1 gs1); try assumption.
    + reflexivity.
    + apply Hcs. lia.
    + lia.
    + replace (S (length weights - 1 - 1)) with (length weights - 1)%nat by lia.
      exact Hwidth.
Qed.

Lemma deep_shaped : shaped deep_heap deep_units deep_weights deep_biases.
Proof.
  split; [reflexivity|]. split; [reflexivity|].
  intros l Hl. destruct l as [|[|l]]; [| |simpl in Hl; lia].
  - exists 0%nat, 1%nat, (zeros 2 1), (zeros 2 1). repeat split; reflexivity.
  - exists 2%nat, 3%nat, (zeros 1 2), (zeros 1 1). repeat split; reflexivity.
Qed.

Example epoch_train_unknown_hidden_example :
  epoch_train deep_heap one_X (one_y 1) deep_acts 0.1 deep_weights deep_biases
    None = Raise ValueError.
Proof.
  apply (epoch_train_unknown_hidden deep_heap deep_units
           deep_weights deep_biases deep_acts None 0.1 one_X (one_y 1)).
  - exact deep_shaped.
  - simpl. lia.
  - reflexivity.
  - simpl. lia.
  - intros [H|[H|H]]; discriminate H.
  - reflexivity.
  - simpl. lia.
Qed.

(** X11: an activation name that the dispatch does not know works as the
    identity in the forward pass, but not as a hidden activation in
    training.  When [init_params] returns for a network with at least two
    layers, one output unit and a last hidden layer of a width other than 1,
    the forward pass on the new parameters returns, but [train_nn], called
    without [verbose] (its default) and with an epoch count of at least 1,
    raises ValueError in the backward pass of its first epoch. *)
Theorem unknown_hidden_activation_stops_training (h : heap) (g : rng)
  (X : matrix) (y : vector) (layer_units : list Z) (acts : activations)
  (lr : R) (num_iteration : Z) (lam : option R) (p : init_state) :
  init_params layer_units h g = Ok p ->
  (3 <= length layer_units)%nat ->
  nth (length layer_units - 1) layer_units 0%Z = 1%Z ->
  nth (length layer_units - 2) layer_units 0%Z <> 1%Z ->
  ~ known_activation (hidden acts) ->
  shape X = (Z.to_nat (nth 0 layer_units 0%Z), vlen y) -> (0 < vlen y)%nat ->
  (1 <= num_iteration)%Z ->
  (exists A cs,
     model_forward_propagation (i_heap p) X (i_weights p) (i_biases p) acts
       = Ok (A, cs)) /\
  train_nn h g X y layer_units acts lr num_iteration lam = Raise ValueError.
Proof.
  intros Hp HL Hlast Hwidth Hunk HX Hm HN.
  destruct (init_params_gives_shaped layer_units h g p) as [Lw Hs];
    [lia | exact Hp |].
  destruct (epoch_train_unknown_hidden (i_heap p) (map Z.to_nat layer_units)
              (i_weights p) (i_biases p) acts lam lr X y Hs) as [Hf He];
    try assumption.
  - lia.
  - rewrite Lw, nth_map_to_nat, Hlast. reflexivity.
  - rewrite Lw, nth_map_to_nat.
    replace (length layer_units - 1 - 1)%nat with (length layer_units - 2)%nat
      by lia.
    lia.
  - rewrite nth_map_to_nat. exact HX.
  - split; [exact Hf|].
    unfold train_nn, train_loop, for_range. rewrite Hp. cbn [bind].
    destruct (Z.to_nat num_iteration) as [|n] eqn:EN; [lia|].
    rewrite for_from_S. unfold train_body.
    cbn [t_heap t_weights t_biases]. rewrite He. reflexivity.
Qed.

Lemma unknown_hidden_activation_stops_training_witness :
  exists p,
    init_params [1%Z; 2%Z; 1%Z] ex_empty ex_rng = Ok p /\
    (exists A cs,
       model_forward_propagation (i_heap p) one_X (i_weights p) (i_biases p)
         deep_acts = Ok (A, cs)) /\
    train_nn ex_empty ex_rng one_X (one_y 1) [1%Z; 2%Z; 1%Z] deep_acts 0.1 3
      None = Raise ValueError.
Proof.
  eexists. split; [reflexivity|].
  apply (unknown_hidden_activation_stops_training ex_empty ex_rng one_X
           (one_y 1) [1%Z; 2%Z; 1%Z] deep_acts 0.1 3 None).
  - reflexivity.
  - simpl. lia.
  - reflexivity.
  - simpl. lia.
  - intros [H|[H|H]]; discriminate H.
  - reflexivity.
  - simpl. lia.
  - lia.
Defined.

(** ** Parameter initialization *)

(** X12: when [init_params] returns, it has added two arrays per layer to
    the heap and changed none that was there; the references it puts in
    [weights] and [biases] are new, all point into the heap, and no two of
    them are the same array. *)
Theorem init_params_allocates_fresh_arrays (layer_units : list Z) (h : heap)
  (g : rng) (s : init_state) :
  init_params layer_units h g = Ok s ->
  length (i_heap s) = (length h + 2 * (length layer_units - 1))%nat /\
  (forall r M, load h r = Ok M -> load (i_heap s) r = Ok M) /\
  (forall r, In r (i_weights s ++ i_biases s) ->
             (length h <= r < length (i_heap s))%nat) /\
  NoDup (i_weights s ++ i_biases s).
Proof.
  intros H. destruct (init_params_layout layer_units h g s H)
    as [Hlen [Hold [Hw [Hb _]]]].
  split; [exact Hlen|]. split.
  { intros r M HM. apply load_nth_error. apply Hold. apply load_nth_error. exact HM. }
  split.
  - intros r Hin. rewrite Hw, Hb in Hin. apply in_app_or in Hin.
    destruct Hin as [Hin|Hin]; apply in_map_iff in Hin;
      destruct Hin as [l [<- Hl]]; apply in_seq in Hl; lia.
  - rewrite Hw, Hb. apply NoDup_app.
    + apply NoDup_map_NoDup_ForallPairs; [|apply seq_NoDup].
      intros x y _ _ E. lia.
    + apply NoDup_map_NoDup_ForallPairs; [|apply seq_NoDup].
      intros x y _ _ E. lia.
    + intros a Ha Hb'. apply in_map_iff in Ha, Hb'.
      destruct Ha as [x [<- _]]. destruct Hb' as [y [E _]]. lia.
Qed.

Lemma init_params_allocates_fresh_arrays_witness :
  exists s,
    init_params [2%Z; 3%Z; 1%Z] ex_heap ex_rng = Ok s /\
    length (i_heap s) = (length ex_heap + 2 * (length [2%Z; 3%Z; 1%Z] - 1))%nat /\
    (forall r M, load ex_heap r = Ok M -> load (i_heap s) r = Ok M) /\
    (forall r, In r (i_weights s ++ i_biases s) ->
               (length ex_heap <= r < length (i_heap s))%nat) /\
    NoDup (i_weights s ++ i_biases s).
Proof.
  eexists. split; [reflexivity|].
  apply (init_params_allocates_fresh_arrays [2%Z; 3%Z; 1%Z] ex_heap ex_rng).
  reflexivity.
Defined.

(** X13: [init_params] fills the weight arrays from the random source in
    order, layer after layer and row after row: entry (r, c) of the weight
    array of layer l + 1 is the draw at position
    draws_before(l) + r * units[l] + c, divided by the square root of
    units[l]; the bias arrays are zero; and the source is left moved forward
    by the total number of weights. *)
Theorem init_params_reads_draws_in_order (layer_units : list Z) (h : heap)
  (g : rng) (s : init_state) :
  init_params layer_units h g = Ok s ->
  (forall k, i_rng s k =
             g (k + draws_before layer_units (length layer_units - 1))%nat) /\
  forall l, (l < length layer_units - 1)%nat ->
    exists w b W B,
      nth_error (i_weights s) l = Some w /\ nth_error (i_biases s) l = Some b /\
      load (i_heap s) w = Ok W /\ load (i_heap s) b = Ok B /\
      (forall r c,
         entry W r c =
         g (draws_before layer_units l +
            (r * Z.to_nat (nth l layer_units 0%Z) + c))%nat /
         sqrt (IZR (nth l layer_units 0%Z))) /\
      (forall r c, entry B r c = 0).
Proof.
  intros H. destruct (init_params_layout layer_units h g s H)
    as [_ [_ [Hw [Hb [Hg Hl]]]]].
  split; [exact Hg|]. intros l Hlt.
  destruct (Hl l Hlt) as [W [N1 [N2 [_ EW]]]].
  exists (length h + 2 * l)%nat, (length h + 2 * l + 1)%nat, W,
         (zeros (Z.to_nat (nth (S l) layer_units 0%Z)) 1).
  rewrite Hw, Hb.
  split; [rewrite nth_error_map, nth_error_seq;
          replace (Nat.ltb l (length layer_units - 1)) with true
            by (symmetry; apply Nat.ltb_lt; lia); reflexivity|].
  split; [rewrite nth_error_map, nth_error_seq;
          replace (Nat.ltb l (length layer_units - 1)) with true
            by (symmetry; apply Nat.ltb_lt; lia); reflexivity|].
  split; [apply load_nth_error; exact N1|].
  split; [apply load_nth_error; exact N2|].
  split; [exact EW|]. intros r c. reflexivity.
Qed.

Lemma init_params_reads_draws_in_order_witness :
  exists s,
    init_params [2%Z; 3%Z; 1%Z] ex_empty count_rng = Ok s /\
    (forall k, i_rng s k =
               count_rng (k + draws_before [2%Z; 3%Z; 1%Z]
                                (length [2%Z; 3%Z; 1%Z] - 1))%nat) /\
    forall l, (l < length [2%Z; 3%Z; 1%Z] - 1)%nat ->
      exists w b W B,
        nth_error (i_weights s) l = Some w /\ nth_error (i_biases s) l = Some b /\
        load (i_heap s) w = Ok W /\ load (i_heap s) b = Ok B /\
        (forall r c,
           entry W r c =
           count_rng (draws_before [2%Z; 3%Z; 1%Z] l +
                      (r * Z.to_nat (nth l [2%Z; 3%Z; 1%Z] 0%Z) + c))%nat /
           sqrt (IZR (nth l [2%Z; 3%Z; 1%Z] 0%Z))) /\
        (forall r c, entry B r c = 0).
Proof.
  eexists. split; [reflexivity|].
  apply (init_params_reads_draws_in_order [2%Z; 3%Z; 1%Z] ex_empty count_rng).
  reflexivity.
Defined.

(** ** Parameter update *)

Lemma length_store (h : heap) (r : ref) (M : matrix) :
  length (store h r M) = length h.
Proof.
  revert r. induction h as [|x t IH]; intros r; [reflexivity|].
  destruct r; simpl; [reflexivity|]. rewrite IH. reflexivity.
Qed.

Lemma load_store_eq (h : heap) (r : ref) (M N : matrix) :
  load h r = Ok N -> load (store h r M) r = Ok M.
Proof.
  unfold load. revert r. induction h as [|x t IH]; intros r Hl.
  - destruct r; discriminate.
  - destruct r as [|r]; simpl in *; [reflexivity|]. apply IH. assumption.
Qed.

Lemma load_store_neq (h : heap) (r r' : ref) (M : matrix) :
  r <> r' -> load (store h r M) r' = load h r'.
Proof.
  unfold load. revert r r'. induction h as [|x t IH]; intros r r' Hne.
  - reflexivity.
  - destruct r as [|r], r' as [|r']; simpl; try reflexivity; try lia.
    apply IH. lia.
Qed.

(** What [a -= b] leaves in [a]. *)
Lemma isub_inv (a b r : matrix) :
  isub a b = Ok r ->
  shape r = shape a /\
  forall i j, (i < nrows a)%nat -> (j < ncols a)%nat ->
    entry r i j = entry a i j - entry b (bidx (nrows b) i) (bidx (ncols b) j).
Proof.
  unfold isub, map2. intros H.
  apply bind_ok in H. destruct H as [t [Ht H]].
  apply bind_ok in Ht. destruct Ht as [rr [Hr Ht]].
  apply bind_ok in Ht. destruct Ht as [cc [Hc Ht]].
  inversion Ht; subst t; clear Ht.
  destruct (shape_eqb _ _) eqn:E; [|discriminate].
  inversion H; subst r; clear H. apply shape_eqb_eq in E.
  split; [exact E|]. intros i j Hi Hj. cbn [entry].
  rewrite !bidx_lt by assumption. reflexivity.
Qed.

(** What one turn of the loop of [update_parameters] does when it does not
    raise. *)
Lemma update_parameters_body_inv (weights biases : list ref)
  (gWs gbs : list matrix) (lr : R) (i : nat) (h h' : heap) :
  update_parameters_body weights biases gWs gbs lr i h = Ok h' ->
  exists w b W gW W' B gb B',
    nth_error weights i = Some w /\ nth_error biases i = Some b /\
    nth_error gWs i = Some gW /\ nth_error gbs i = Some gb /\
    load h w = Ok W /\ isub W (mmap (fun x => lr * x) gW) = Ok W' /\
    load (store h w W') b = Ok B /\
    isub B (mmap (fun x => lr * x) gb) = Ok B' /\
    h' = store (store h w W') b B'.
Proof.
  unfold update_parameters_body. intros H.
  apply bind_ok in H. destruct H as [w [Hw H]].
  apply bind_ok in H. destruct H as [W [HW H]].
  apply bind_ok in H. destruct H as [gW [HgW H]].
  apply bind_ok in H. destruct H as [W' [HW' H]].
  apply bind_ok in H. destruct H as [b [Hb H]].
  apply bind_ok in H. destruct H as [B [HB H]].
  apply bind_ok in H. destruct H as [gb [Hgb H]].
  apply bind_ok in H. destruct H as [B' [HB' H]].
  inversion H; subst h'; clear H.
  apply getitem_ok in Hw, HgW, Hb, Hgb.
  exists w, b, W, gW, W', B, gb, B'. repeat split; assumption.
Qed.

Lemma nodup_app_nth (ws bs : list ref) :
  NoDup (ws ++ bs) ->
  (forall i l r, nth_error ws i = Some r -> nth_error ws l = Some r -> i = l) /\
  (forall i l r, nth_error bs i = Some r -> nth_error bs l = Some r -> i = l) /\
  (forall i l r, nth_error ws i = Some r -> nth_error bs l = Some r -> False).
Proof.
  intros H. pose proof (proj1 (NoDup_nth_error (ws ++ bs)) H) as N.
  assert (Lw : forall i r, nth_error ws i = Some r -> (i < length ws)%nat)
    by (intros i r E; apply nth_error_Some; rewrite E; discriminate).
  assert (Lb : forall i r, nth_error bs i = Some r -> (i < length bs)%nat)
    by (intros i r E; apply nth_error_Some; rewrite E; discriminate).
  split; [|split].
  - intros i l r Ei El. apply N.
    + rewrite length_app. pose proof (Lw i r Ei). lia.
    + rewrite !nth_error_app1 by eauto. congruence.
  - intros i l r Ei El.
    assert (E : (length ws + i = length ws + l)%nat).
    { apply N.
      + rewrite length_app. pose proof (Lb i r Ei). lia.
      + rewrite !nth_error_app2 by lia.
        replace (length ws + i - length ws)%nat with i by lia.
        replace (length ws + l - length ws)%nat with l by lia. congruence. }
    lia.
  - intros i l r Ei El.
    assert (E : (i = length ws + l)%nat).
    { apply N.
      + rewrite length_app. pose proof (Lw i r Ei). lia.
      + rewrite nth_error_app1 by eauto. rewrite nth_error_app2 by lia.
        replace (length ws + l - length ws)%nat with l by lia. congruence. }
    pose proof (Lw i r Ei). lia.
Qed.

Section UpdateStep.
Variables (h : heap) (weights biases : list ref).
Variables (gWs gbs : list matrix) (lr : R).
Hypothesis Hnodup : NoDup (weights ++ biases).

Let upd_inv (i : nat) (hi : heap) : Prop :=
  (forall r, (forall l, (l < i)%nat ->
                nth_error weights l <> Some r /\ nth_error biases l <> Some r) ->
             load hi r = load h r) /\
  forall l, (l < i)%nat ->
    exists w b W B gW gb W' B',
      nth_error weights l = Some w /\ nth_error biases l = Some b /\
      nth_error gWs l = Some gW /\ nth_error gbs l = Some gb /\
      load h w = Ok W /\ load h b = Ok B /\
      isub W (mmap (fun x => lr * x) gW) = Ok W' /\
      isub B (mmap (fun x => lr * x) gb) = Ok B' /\
      load hi w = Ok W' /\ load hi b = Ok B'.

Lemma update_parameters_body_keeps (i : nat) (hi hi' : heap) :
  upd_inv i hi ->
  update_parameters_body weights biases gWs gbs lr i hi = Ok hi' ->
  upd_inv (S i) hi'.
Proof.
  intros [Hfr Hdone] Hbody.
  destruct (nodup_app_nth weights biases Hnodup) as [Nw [Nb Nwb]].
  destruct (update_parameters_body_inv _ _ _ _ _ _ _ _ Hbody)
    as [w [b [W [gW [W' [B [gb [B' [Ew [Eb [EgW [Egb [LW [IW [LB [IB ->]]]]]]]]]]]]]]]].
  assert (Hwb : w <> b) by (intros ->; exact (Nwb i i b Ew Eb)).
  assert (Hw_fresh : forall l, (l < i)%nat ->
            nth_error weights l <> Some w /\ nth_error biases l <> Some w).
  { intros l Hl. split; intros E.
    - pose proof (Nw l i w E Ew). lia.
    - exact (Nwb i l w Ew E). }
  assert (Hb_fresh : forall l, (l < i)%nat ->
            nth_error weights l <> Some b /\ nth_error biases l <> Some b).
  { intros l Hl. split; intros E.
    - exact (Nwb l i b E Eb).
    - pose proof (Nb l i b E Eb). lia. }
  rewrite load_store_neq in LB by exact Hwb.
  rewrite (Hfr w Hw_fresh) in LW. rewrite (Hfr b Hb_fresh) in LB.
  assert (LW0 : load hi w = Ok W) by (rewrite (Hfr w Hw_fresh); exact LW).
  assert (LB1 : load (store hi w W') b = Ok B)
    by (rewrite load_store_neq by exact Hwb; rewrite (Hfr b Hb_fresh); exact LB).
  split.
  - intros r Hr. destruct (Hr i (Nat.lt_succ_diag_r i)) as [R1 R2].
    rewrite !load_store_neq by congruence.
    apply Hfr. intros l Hl. apply Hr. lia.
  - intros l Hl. destruct (Nat.eq_dec l i) as [->|Hne].
    + exists w, b, W, B, gW, gb, W', B'. repeat split; try assumption.
      * rewrite load_store_neq by congruence. apply (load_store_eq hi w W' W LW0).
      * apply (load_store_eq _ b B' B LB1).
    + destruct (Hdone l) as [w0 [b0 [W0 [B0 [gW0 [gb0 [W0' [B0' E]]]]]]]]; [lia|].
      destruct E as [E1 [E2 [E3 [E4 [E5 [E6 [E7 [E8 [E9 E10]]]]]]]]].
      exists w0, b0, W0, B0, gW0, gb0, W0', B0'.
      repeat split; try assumption.
      * rewrite !load_store_neq; [exact E9| |].
        -- intros <-. pose proof (Nw l i w E1 Ew). lia.
        -- intros <-. exact (Nwb l i b E1 Eb).
      * rewrite !load_store_neq; [exact E10| |].
        -- intros <-. exact (Nwb i l w Ew E2).
        -- intros <-. pose proof (Nb l i b E2 Eb). lia.
Qed.

Lemma update_parameters_loop_keeps (h' : heap) :
  for_from 0 (length weights)
    (update_parameters_body weights biases gWs gbs lr) h = Ok h' ->
  upd_inv (length weights) h'.
Proof.
  intros H.
  apply (for_from_partial (update_parameters_body weights biases gWs gbs lr)
           upd_inv (length weights) 0 h h'); [| |exact H].
  - split; [reflexivity|]. intros l Hl. lia.
  - intros i t t' _ Ht Hb. apply (update_parameters_body_keeps i t t'); assumption.
Qed.
End UpdateStep.

(** X14: when no array occurs twice in [weights] and [biases], an update
    that returns has replaced, for every layer, W by W - learning_rate * dW
    and b by b - learning_rate * db, entry by entry and with the shapes
    unchanged; it hands back the lists it was given and leaves every other
    array of the heap as it was. *)
Theorem update_parameters_is_gradient_step (h : heap) (weights biases : list ref)
  (gWs gbs : list matrix) (lr : R) (weights' biases' : list ref) (h' : heap) :
  NoDup (weights ++ biases) ->
  update_parameters h weights biases gWs gbs lr = Ok (weights', biases', h') ->
  weights' = weights /\ biases' = biases /\
  (forall r, ~ In r (weights ++ biases) -> load h' r = load h r) /\
  forall l, (l < length weights)%nat ->
    exists w b W B gW gb W' B',
      nth_error weights l = Some w /\ nth_error biases l = Some b /\
      nth_error gWs l = Some gW /\ nth_error gbs l = Some gb /\
      load h w = Ok W /\ load h b = Ok B /\
      load h' w = Ok W' /\ load h' b = Ok B' /\
      shape W' = shape W /\ shape B' = shape B /\
      (forall i j, (i < nrows W)%nat -> (j < ncols W)%nat ->
         entry W' i j =
         entry W i j - lr * entry gW (bidx (nrows gW) i) (bidx (ncols gW) j)) /\
      (forall i j, (i < nrows B)%nat -> (j < ncols B)%nat ->
         entry B' i j =
         entry B i j - lr * entry gb (bidx (nrows gb) i) (bidx (ncols gb) j)).
Proof.
  intros Hnd H. unfold update_parameters, for_range in H.
  apply bind_ok in H. destruct H as [h1 [Hloop H]].
  inversion H; subst weights' biases' h1; clear H.
  destruct (update_parameters_loop_keeps h weights biases gWs gbs lr Hnd h' Hloop)
    as [Hfr Hdone].
  split; [reflexivity|]. split; [reflexivity|]. split.
  - intros r Hr. apply Hfr. intros l _. split; intros E;
      apply Hr; apply in_or_app; [left | right]; eapply nth_error_In; exact E.
  - intros l Hl.
    destruct (Hdone l Hl)
      as [w [b [W [B [gW [gb [W' [B' [E1 [E2 [E3 [E4 [E5 [E6 [E7 [E8 [E9 E10]]]]]]]]]]]]]]]]].
    destruct (isub_inv _ _ _ E7) as [SW EW].
    destruct (isub_inv _ _ _ E8) as [SB EB].
    exists w, b, W, B, gW, gb, W', B'.
    repeat split; assumption.
Qed.

Lemma update_parameters_is_gradient_step_witness :
  exists h',
    update_parameters ex_heap [0%nat] [1%nat]
      [mk_matrix 1 2 (fun _ _ => 1)] [zeros 1 1] 0.1
    = Ok ([0%nat], [1%nat], h') /\
    forall l, (l < length [0%nat])%nat ->
      exists w b W B gW gb W' B',
        nth_error [0%nat] l = Some w /\ nth_error [1%nat] l = Some b /\
        nth_error [mk_matrix 1 2 (fun _ _ => 1)] l = Some gW /\
        nth_error [zeros 1 1] l = Some gb /\
        load ex_heap w = Ok W /\ load ex_heap b = Ok B /\
        load h' w = Ok W' /\ load h' b = Ok B' /\
        shape W' = shape W /\ shape B' = shape B /\
        (forall i j, (i < nrows W)%nat -> (j < ncols W)%nat ->
           entry W' i j =
           entry W i j - 0.1 * entry gW (bidx (nrows gW) i) (bidx (ncols gW) j)) /\
        (forall i j, (i < nrows B)%nat -> (j < ncols B)%nat ->
           entry B' i j =
           entry B i j - 0.1 * entry gb (bidx (nrows gb) i) (bidx (ncols gb) j)).
Proof.
  assert (Hnd : NoDup ([0%nat] ++ [1%nat])).
  { constructor; [intros [H|[]]; discriminate H|].
    constructor; [intros []|constructor]. }
  eexists. split; [reflexivity|].
  refine (proj2 (proj2 (proj2
    (update_parameters_is_gradient_step ex_heap [0%nat] [1%nat]
       [mk_matrix 1 2 (fun _ _ => 1)] [zeros 1 1] 0.1 _ _ _ Hnd _)))).
  reflexivity.
Defined.

(** ** What an epoch leaves alone *)

Lemma update_parameters_frame (h : heap) (weights biases : list ref)
  (gWs gbs : list matrix) (lr : R) (weights' biases' : list ref) (h' : heap) :
  update_parameters h weights biases gWs gbs lr = Ok (weights', biases', h') ->
  weights' = weights /\ biases' = biases /\
  same_shapes h h' /\
  forall r, ~ In r (weights ++ biases) -> load h' r = load h r.
Proof.
  intros H. unfold update_parameters, for_range in H.
  apply bind_ok in H. destruct H as [h1 [Hloop H]].
  inversion H; subst weights' biases' h1; clear H.
  split; [reflexivity|]. split; [reflexivity|].
  apply (for_from_partial (update_parameters_body weights biases gWs gbs lr)
           (fun _ hi => same_shapes h hi /\
                        forall r, ~ In r (weights ++ biases) ->
                                  load hi r = load h r)
           (length weights) 0 h h'); [| |exact Hloop].
  - split; [apply same_shapes_refl | reflexivity].
  - intros i t t' _ [Hs Hfr] Hb.
    destruct (update_parameters_body_inv _ _ _ _ _ _ _ _ Hb)
      as [w [b [W [gW [W' [B [gb [B' [Ew [Eb [_ [_ [LW [IW [LB [IB ->]]]]]]]]]]]]]]]].
    destruct (isub_inv _ _ _ IW) as [SW _].
    destruct (isub_inv _ _ _ IB) as [SB _].
    split.
    + apply (same_shapes_trans h t); [exact Hs|].
      apply (same_shapes_trans t (store t w W')).
      * apply (store_same_shapes t w W W'); assumption.
      * apply (store_same_shapes _ b B B'); assumption.
    + intros r Hr. rewrite !load_store_neq; [apply Hfr; exact Hr| |].
      * intros <-. apply Hr. apply in_or_app. left. eapply nth_error_In. exact Ew.
      * intros <-. apply Hr. apply in_or_app. right. eapply nth_error_In. exact Eb.
Qed.

Lemma epoch_train_keeps (h : heap) (X : matrix) (y : vector)
  (acts : activations) (lr : R) (weights biases : list ref) (lam : option R)
  (e : epoch_result) :
  epoch_train h X y acts lr weights biases lam = Ok e ->
  e_weights e = weights /\ e_biases e = biases /\
  same_shapes h (e_heap e) /\
  forall r, ~ In r (weights ++ biases) -> load (e_heap e) r = load h r.
Proof.
  unfold epoch_train. intros H.
  apply bind_ok in H. destruct H as [[A cs] [_ H]].
  apply bind_ok in H. destruct H as [c [_ H]].
  apply bind_ok in H. destruct H as [gs [_ H]].
  apply bind_ok in H. destruct H as [[[ws bs] h'] [Hu H]].
  inversion H; subst e; clear H. cbn [e_weights e_biases e_heap].
  apply (update_parameters_frame _ _ _ _ _ _ _ _ _ Hu).
Qed.

(** X15: an epoch that ends normally hands back the lists [weights] and
    [biases] it was given, changes the shape of no array in the heap, and
    changes no array other than those that [weights] and [biases] hold. *)
Theorem epoch_train_frame (h : heap) (X : matrix) (y : vector)
  (acts : activations) (lr : R) (weights biases : list ref) (lam : option R)
  (e : epoch_result) :
  epoch_train h X y acts lr weights biases lam = Ok e ->
  e_weights e = weights /\ e_biases e = biases /\
  same_shapes h (e_heap e) /\
  forall r, ~ In r (weights ++ biases) -> load (e_heap e) r = load h r.
Proof. exact (epoch_train_keeps h X y acts lr weights biases lam e). Qed.

Lemma epoch_train_frame_witness :
  exists e,
    epoch_train ex_heap ex_X ex_y ex_acts 0.1 [0%nat] [1%nat] None = Ok e /\
    e_weights e = [0%nat] /\ e_biases e = [1%nat] /\
    same_shapes ex_heap (e_heap e) /\
    forall r, ~ In r ([0%nat] ++ [1%nat]) -> load (e_heap e) r = load ex_heap r.
Proof.
  eexists. split; [reflexivity|].
  apply (epoch_train_frame ex_heap ex_X ex_y ex_acts 0.1 [0%nat] [1%nat] None).
  reflexivity.
Defined.

(** ** The training loop and its best-so-far record *)

Section BestFirst.
Variables (h : heap) (g : rng) (X : matrix) (y : vector).
Variables (layer_units : list Z) (acts : activations) (lr : R).
Variable lam : option R.

Let first_inv (i : nat) (s : train_state) : Prop :=
  length (t_costs s) = i /\
  t_best_cost s <= 1 /\
  (forall c, In c (t_costs s) -> t_best_cost s <= c) /\
  ((1 <= t_best_iteration s)%nat ->
   t_best_cost s < 1 /\
   nth_error (t_costs s) (t_best_iteration s - 1) = Some (t_best_cost s) /\
   forall k c, (k < t_best_iteration s - 1)%nat ->
               nth_error (t_costs s) k = Some c -> t_best_cost s < c).

Lemma train_body_first_inv (i : nat) (s s' : train_state) :
  first_inv i s -> train_body X y acts lr lam i s = Ok s' ->
  first_inv (S i) s'.
Proof.
  intros [Hlen [Hle [Hmin Hfirst]]] Hb.
  destruct (train_body_ok X y acts lr lam i s s' Hb)
    as [e [_ [_ [_ [_ [Ec Hbest]]]]]].
  unfold first_inv. rewrite Ec, length_app. cbn [length].
  split; [lia|].
  destruct Hbest as [[Hgt [E1 [E2 _]]] | [Hno [E1 [E2 _]]]]; rewrite E1, E2.
  - split; [lra|]. split.
    + intros c Hin. apply in_app_or in Hin. destruct Hin as [Hin|[<-|[]]]; [|lra].
      specialize (Hmin c Hin). lra.
    + intros _. split; [lra|]. replace (i + 1 - 1)%nat with (length (t_costs s)) by lia.
      split; [apply nth_error_snoc_eq|].
      intros k c Hk Hc. rewrite nth_error_app1 in Hc by lia.
      apply nth_error_In in Hc. specialize (Hmin c Hc). lra.
  - split; [assumption|]. split.
    + intros c Hin. apply in_app_or in Hin. destruct Hin as [Hin|[<-|[]]].
      * apply Hmin. assumption.
      * lra.
    + intros Hpos. destruct (Hfirst Hpos) as [F1 [F2 F3]].
      assert (Hb' : (t_best_iteration s - 1 < length (t_costs s))%nat)
        by (apply nth_error_Some; rewrite F2; discriminate).
      split; [assumption|]. split.
      * rewrite nth_error_app1 by assumption. exact F2.
      * intros k c Hk Hc. rewrite nth_error_app1 in Hc by lia.
        apply (F3 k c Hk Hc).
Qed.

Lemma train_loop_first_inv (N : nat) (s : train_state) :
  train_loop h g X y layer_units acts lr N lam = Ok s -> first_inv N s.
Proof.
  unfold train_loop, for_range. intros H. apply bind_ok in H.
  destruct H as [p [_ H]].
  eapply (for_from_partial (train_body X y acts lr lam) first_inv N 0);
    [| |exact H].
  - unfold first_inv. cbn. split; [reflexivity|]. split; [lra|].
    split; [intros c []|]. intros K. lia.
  - intros i t t' _ Ht Hb. apply (train_body_first_inv i t t'); assumption.
Qed.
End BestFirst.

(** X16: after any number of epochs, the best loss of the training loop is
    no greater than any recorded loss and than the initial 1.0; once an
    epoch has been recorded as best, the best loss is below 1.0, it is the
    loss of that epoch, and every earlier epoch had a strictly greater loss:
    the best iteration is the first epoch that reached the lowest loss. *)
Theorem best_iteration_is_first_minimum (h : heap) (g : rng) (X : matrix)
  (y : vector) (layer_units : list Z) (acts : activations) (lr : R)
  (lam : option R) (N : nat) (s : train_state) :
  train_loop h g X y layer_units acts lr N lam = Ok s ->
  t_best_cost s <= 1 /\
  (forall c, In c (t_costs s) -> t_best_cost s <= c) /\
  ((1 <= t_best_iteration s)%nat ->
   t_best_cost s < 1 /\
   nth_error (t_costs s) (t_best_iteration s - 1) = Some (t_best_cost s) /\
   forall k c, (k < t_best_iteration s - 1)%nat ->
               nth_error (t_costs s) k = Some c -> t_best_cost s < c).
Proof.
  intros H.
  destruct (train_loop_first_inv h g X y layer_units acts lr lam N s H)
    as [_ R]. exact R.
Qed.

Lemma best_iteration_is_first_minimum_witness :
  exists s,
    train_loop ex_empty ex_rng ex_X ex_y [2%Z; 1%Z] ex_acts 0.1 4 (Some 0.5)
      = Ok s /\
    t_best_cost s <= 1 /\
    (forall c, In c (t_costs s) -> t_best_cost s <= c) /\
    ((1 <= t_best_iteration s)%nat ->
     t_best_cost s < 1 /\
     nth_error (t_costs s) (t_best_iteration s - 1) = Some (t_best_cost s) /\
     forall k c, (k < t_best_iteration s - 1)%nat ->
                 nth_error (t_costs s) k = Some c -> t_best_cost s < c).
Proof.
  assert (Hi : exists p, init_params [2%Z; 1%Z] ex_empty ex_rng = Ok p)
    by (eexists; reflexivity).
  destruct Hi as [p Hi].
  destruct (train_loop_total ex_empty ex_rng ex_X ex_y [2%Z; 1%Z] ex_acts 0.1
              (Some 0.5) p Hi) with (N := 4%nat) as [s Hs].
  - reflexivity.
  - right. left. reflexivity.
  - reflexivity.
  - simpl. lia.
  - exists s. split; [exact Hs|].
    apply (best_iteration_is_first_minimum _ _ _ _ _ _ _ _ _ _ Hs).
Defined.

(** ** From training to prediction *)

Lemma train_loop_best_recorded (h : heap) (g : rng) (X : matrix) (y : vector)
  (layer_units : list Z) (acts : activations) (lr : R) (lam : option R)
  (N : nat) (s : train_state) :
  train_loop h g X y layer_units acts lr N lam = Ok s ->
  ((forall c, In c (t_costs s) -> 1 <= c) ->
   t_best_weights s = None /\ t_best_biases s = None) /\
  ((exists c, In c (t_costs s) /\ c < 1) ->
   t_best_weights s = Some (t_weights s) /\
   t_best_biases s = Some (t_biases s)).
Proof.
  intros H.
  pose proof (train_loop_best_inv _ _ _ _ _ _ _ _ _ _ H) as [_ [H0 [H1 _]]].
  destruct (train_loop_first_inv h g X y layer_units acts lr lam N s H)
    as [_ [_ [_ Hfirst]]].
  split.
  - intros Hall. destruct (t_best_iteration s) as [|k] eqn:E.
    + destruct (H0 eq_refl) as [_ [Bw [Bb _]]]. split; assumption.
    + destruct Hfirst as [F1 [F2 _]]; [lia|].
      apply nth_error_In in F2. specialize (Hall _ F2). lra.
  - intros [c [Hin Hc]]. destruct (t_best_iteration s) as [|k] eqn:E.
    + destruct (H0 eq_refl) as [_ [_ [_ Hall]]]. specialize (Hall c Hin). lra.
    + destruct H1 as [_ [_ [Bw Bb]]]; [lia|]. split; assumption.
Qed.

(** The training loop keeps the lists that [init_params] made and the shape
    of every array. *)
Lemma train_loop_keeps_shapes (h : heap) (g : rng) (X : matrix) (y : vector)
  (layer_units : list Z) (acts : activations) (lr : R) (lam : option R)
  (N : nat) (s : train_state) :
  train_loop h g X y layer_units acts lr N lam = Ok s ->
  exists p,
    init_params layer_units h g = Ok p /\
    t_weights s = i_weights p /\ t_biases s = i_biases p /\
    same_shapes (i_heap p) (t_heap s).
Proof.
  unfold train_loop, for_range. intros H. apply bind_ok in H.
  destruct H as [p [Hp H]]. exists p. split; [exact Hp|].
  eapply (for_from_partial (train_body X y acts lr lam)
            (fun _ t => t_weights t = i_weights p /\ t_biases t = i_biases p /\
                        same_shapes (i_heap p) (t_heap t))
            N 0); [| |exact H].
  - cbn. repeat split; auto.
  - intros i t t' _ [Ew [Eb Hs]] Hb.
    destruct (train_body_ok X y acts lr lam i t t' Hb)
      as [e [He [E1 [E2 [E3 _]]]]].
    destruct (epoch_train_keeps _ _ _ _ _ _ _ _ _ He) as [K1 [K2 [K3 _]]].
    rewrite E1, E2, E3, K1, K2. repeat split; try assumption.
    apply (same_shapes_trans _ (t_heap t)); assumption.
Qed.

Lemma predict_total (h : heap) (X : matrix) (y : vector) (ws bs : list ref)
  (acts : activations) (probs : matrix) (cs : caches) :
  model_forward_propagation h X ws bs acts = Ok (probs, cs) ->
  (0 < nrows probs)%nat ->
  exists p,
    predict h X y (mk_parameters (Some ws) (Some bs)) acts = Ok p /\
    shape p = (1%nat, ncols X).
Proof.
  intros Hf Hr. pose proof (model_forward_ncols _ _ _ _ _ _ _ Hf) as Hc.
  unfold predict. cbn [p_weights p_biases the_weights the_biases bind].
  rewrite Hf. cbn [bind]. unfold for_range.
  destruct (for_from_total (predict_body probs)
              (fun _ p => shape p = (1%nat, ncols X))
              (ncols probs) 0 (zeros 1 (ncols X))) as [p [Hrun Hs]].
  - reflexivity.
  - intros i t Hi Hts.
    destruct (predict_body_step probs (ncols X) i t) as [t' [E [S' _]]];
      [assumption | lia | assumption | assumption |].
    exists t'. split; assumption.
  - exists p. split; assumption.
Qed.

(** X17: when no recorded loss is below 1.0 (in particular when the epoch
    count is 0 or negative and nothing is recorded), [train_nn] returns best
    parameters that hold None, and [predict] on them raises TypeError for
    every input. *)
Theorem predict_without_best_raises (h : heap) (g : rng) (X : matrix)
  (y : vector) (layer_units : list Z) (acts : activations) (lr : R)
  (num_iteration : Z) (lam : option R) (params : parameters)
  (costs : list R) (h' : heap) :
  train_nn h g X y layer_units acts lr num_iteration lam
    = Ok (params, costs, h') ->
  (forall c, In c costs -> 1 <= c) ->
  params = mk_parameters None None /\
  forall X' y' acts', predict h' X' y' params acts' = Raise TypeError.
Proof.
  unfold train_nn. intros H Hall. apply bind_ok in H. destruct H as [s [Hs H]].
  inversion H; subst params costs h'; clear H.
  destruct (proj1 (train_loop_best_recorded _ _ _ _ _ _ _ _ _ _ Hs) Hall)
    as [-> ->].
  split; [reflexivity|]. intros X' y' acts'. reflexivity.
Qed.

Lemma predict_without_best_raises_witness :
  exists params costs h',
    train_nn ex_empty ex_rng ex_X ex_y [2%Z; 1%Z] ex_acts 0.1 (-3) None
      = Ok (params, costs, h') /\
    costs = [] /\
    params = mk_parameters None None /\
    forall X' y' acts', predict h' X' y' params acts' = Raise TypeError.
Proof.
  do 3 eexists. split; [reflexivity|]. split; [reflexivity|].
  apply (predict_without_best_raises ex_empty ex_rng ex_X ex_y [2%Z; 1%Z]
           ex_acts 0.1 (-3) None _ [] _).
  - reflexivity.
  - intros c [].
Defined.

(** X18: when [train_nn] returns from a LayerSpec without negative counts
    and with one output unit, and some recorded loss is below 1.0, [predict]
    on the returned best parameters and the heap the run left returns a label
    array of shape (1, m) for every input of shape (units[0], m), whatever
    the activation names. *)
Theorem predict_after_training (h : heap) (g : rng) (X : matrix) (y : vector)
  (layer_units : list Z) (acts : activations) (lr : R) (num_iteration : Z)
  (lam : option R) (params : parameters) (costs : list R) (h' : heap)
  (X' : matrix) (y' : vector) (acts' : activations) (m : nat) :
  Forall (fun u => (0 <= u)%Z) layer_units ->
  nth (length layer_units - 1) layer_units 0%Z = 1%Z ->
  train_nn h g X y layer_units acts lr num_iteration lam
    = Ok (params, costs, h') ->
  (exists c, In c costs /\ c < 1) ->
  shape X' = (Z.to_nat (nth 0 layer_units 0%Z), m) ->
  exists p, predict h' X' y' params acts' = Ok p /\ shape p = (1%nat, m).
Proof.
  intros Hu Hl H Hsome HX'. unfold train_nn in H.
  apply bind_ok in H. destruct H as [s [Hs H]].
  inversion H; subst params costs h'; clear H.
  destruct (proj2 (train_loop_best_recorded _ _ _ _ _ _ _ _ _ _ Hs) Hsome)
    as [-> ->].
  destruct (train_loop_keeps_shapes _ _ _ _ _ _ _ _ _ _ Hs)
    as [p [Hp [Ew [Eb Hsh]]]].
  assert (Hne : (1 <= length layer_units)%nat).
  { destruct layer_units as [|u l]; [simpl in Hl; lia | simpl; lia]. }
  destruct (init_params_gives_shaped layer_units h g p Hne Hp) as [Lw Hshaped].
  pose proof (shaped_same_shapes _ _ _ _ _ Hsh Hshaped) as Hfinal.
  rewrite <- Ew, <- Eb in Hfinal.
  destruct (model_forward_total (t_heap s) (map Z.to_nat layer_units)
              (t_weights s) (t_biases s) acts' m Hfinal X')
    as [probs [cs [Hf [SA _]]]].
  { rewrite nth_map_to_nat. exact HX'. }
  cbn [fst] in SA. shape_eqs SA Sr Sc. shape_eqs HX' Xr Xc.
  destruct (predict_total (t_heap s) X' y' (t_weights s) (t_biases s) acts'
              probs cs Hf) as [pm [Hpm Spm]].
  { rewrite Sr, Ew, Lw, nth_map_to_nat, Hl. simpl. lia. }
  exists pm. split; [exact Hpm|]. rewrite Spm, Xc. reflexivity.
Qed.

(** One epoch of the network with one weight: its loss is below 1. *)
Lemma one_run_one_epoch :
  exists s,
    train_loop ex_empty two_rng one_X (one_y 1) [1%Z; 1%Z] one_acts 1 1 None
      = Ok s /\
    t_costs s = [- ln (1 - epsilon)] /\ - ln (1 - epsilon) < 1.
Proof.
  pose proof epsilon_bounds as Heps.
  destruct one_init as [fw0 [fb0 [g' [Hinit [Ew0 Eb0]]]]].
  set (s0 := mk_train_state [0%nat] [1%nat] [] 1 None None 0
               [mk_matrix 1 1 fw0; mk_matrix 1 1 fb0]).
  assert (H0 : train_loop ex_empty two_rng one_X (one_y 1) [1%Z; 1%Z] one_acts
                 1 0 None = Ok s0)
    by (unfold train_loop; rewrite Hinit; reflexivity).
  destruct (one_train_body_saturated 0 s0 fw0 fb0 eq_refl eq_refl eq_refl)
    as [s1 [fw1 [fb1 [Hb1 [_ [_ [_ [Hc1 _]]]]]]]]; [lra|].
  exists s1. split; [rewrite train_loop_S, H0; exact Hb1|].
  split; [exact Hc1|]. apply loss_below_one. lra.
Qed.

Lemma predict_after_training_witness :
  exists params costs h' p,
    train_nn ex_empty two_rng one_X (one_y 1) [1%Z; 1%Z] one_acts 1 1 None
      = Ok (params, costs, h') /\
    predict h' pair_X pair_y params one_acts = Ok p /\
    shape p = (1%nat, 2%nat).
Proof.
  destruct one_run_one_epoch as [s [Hs [Hc Hlt]]].
  assert (Ht : train_nn ex_empty two_rng one_X (one_y 1) [1%Z; 1%Z] one_acts
                 1 1 None
               = Ok (mk_parameters (t_best_weights s) (t_best_biases s),
                     t_costs s, t_heap s)).
  { unfold train_nn. change (Z.to_nat 1) with 1%nat. rewrite Hs. reflexivity. }
  destruct (predict_after_training ex_empty two_rng one_X (one_y 1)
              [1%Z; 1%Z] one_acts 1 1 None _ _ _ pair_X pair_y one_acts 2
              ltac:(repeat constructor; lia) eq_refl Ht) as [p [Hp Sp]].
  - exists (- ln (1 - epsilon)). split; [rewrite Hc; left; reflexivity | exact Hlt].
  - reflexivity.
  - exists (mk_parameters (t_best_weights s) (t_best_biases s)),
           (t_costs s), (t_heap s), p.
    split; [exact Ht|]. split; assumption.
Defined.

(** ** The error signal at a sigmoid output *)

Lemma clip_inside (lo hi x : R) : lo <= x <= hi -> clip lo hi x = x.
Proof.
  intros [H1 H2]. unfold clip. rewrite Rmax_left by assumption.
  apply Rmin_left. assumption.
Qed.

(** X19: at a sigmoid output whose predictions lie inside the clamp range,
    the error signal times the activation derivative, as the backward pass
    computes it from labels reshaped to the shape of the predictions, is the
    prediction minus the label, entry by entry. *)
Theorem sigmoid_output_error_is_difference (Z : matrix) (y : vector)
  (y2 dA dZ : matrix) :
  let A := activation_function Z "sigmoid" in
  (forall i j, epsilon <= entry A i j <= 1 - epsilon) ->
  reshape y (shape A) = Ok y2 ->
  output_error y2 (mmap (clip epsilon (1 - epsilon)) A) = Ok dA ->
  mul_operand dA (derivative_activation Z "sigmoid") = Ok dZ ->
  shape dZ = shape Z /\
  forall i j, (i < nrows Z)%nat -> (j < ncols Z)%nat ->
    entry dZ i j = entry A i j - entry y2 i j.
Proof.
  intros A Hin Hy HdA HdZ.
  assert (Sy : shape y2 = shape Z).
  { unfold reshape in Hy. destruct (Nat.eqb _ _); [|discriminate].
    inversion Hy. reflexivity. }
  shape_eqs Sy Yr Yc.
  unfold output_error, map2 in HdA.
  cbn [nrows ncols mmap A activation_function String.eqb Ascii.eqb Bool.eqb
       sigmoid] in HdA.
  rewrite Yr, Yc, !bdim_same in HdA. cbn [bind nrows ncols] in HdA.
  rewrite !bdim_same in HdA. cbn [bind] in HdA.
  inversion HdA; subst dA; clear HdA.
  cbn [derivative_activation String.eqb Ascii.eqb Bool.eqb mul_operand] in HdZ.
  unfold map2 in HdZ. cbn [nrows ncols mmap sigmoid_derivative sigmoid] in HdZ.
  rewrite !bdim_same in HdZ. cbn [bind] in HdZ.
  inversion HdZ; subst dZ; clear HdZ.
  split; [reflexivity|]. intros i j Hi Hj. cbn [entry mmap].
  repeat rewrite (bidx_lt (nrows Z) i) by assumption.
  repeat rewrite (bidx_lt (ncols Z) j) by assumption.
  specialize (Hin i j). cbn in Hin.
  rewrite (clip_inside _ _ _ Hin).
  pose proof epsilon_bounds as [E0 E1].
  cbn. set (a := 1 / (1 + exp (- entry Z i j))) in *.
  field. lra.
Qed.

Lemma sigmoid_output_error_is_difference_witness :
  exists y2 dA dZ,
    reshape ex_y (shape (activation_function (zeros 1 3) "sigmoid")) = Ok y2 /\
    output_error y2
      (mmap (clip epsilon (1 - epsilon))
         (activation_function (zeros 1 3) "sigmoid")) = Ok dA /\
    mul_operand dA (derivative_activation (zeros 1 3) "sigmoid") = Ok dZ /\
    shape dZ = shape (zeros 1 3) /\
    forall i j, (i < nrows (zeros 1 3))%nat -> (j < ncols (zeros 1 3))%nat ->
      entry dZ i j =
      entry (activation_function (zeros 1 3) "sigmoid") i j - entry y2 i j.
Proof.
  do 3 eexists. split; [reflexivity|]. split; [reflexivity|].
  split; [reflexivity|].
  eapply (sigmoid_output_error_is_difference (zeros 1 3) ex_y).
  - intros i j. cbn. rewrite Ropp_0, exp_0.
    pose proof epsilon_bounds. lra.
  - reflexivity.
  - reflexivity.
  - reflexivity.
Defined.

(** ** The cycles of the training loop *)

(** What an epoch does, step by step: the forward pass, the cost, the
    backward pass and the update, each on the result of the one before. *)
Lemma epoch_train_cycle (h : heap) (units : list nat)
  (weights biases : list ref) (acts : activations) (lam : option R) (lr : R)
  (X : matrix) (y : vector) :
  shaped h units weights biases ->
  NoDup (weights ++ biases) ->
  nth (length weights) units O = 1%nat ->
  known_activation (hidden acts) ->
  shape X = (nth 0 units O, vlen y) -> (0 < vlen y)%nat ->
  exists A cs c gs h',
    model_forward_propagation h X weights biases acts = Ok (A, cs) /\
    match lam with
    | None => compute_cost y A
    | Some _ => compute_cost_regularization h y A weights 0.01
    end = Ok c /\
    model_backward_propagation h A y weights biases cs acts lam = Ok gs /\
    update_parameters h weights biases (gradients_W gs) (gradients_b gs) lr
      = Ok (weights, biases, h') /\
    epoch_train h X y acts lr weights biases lam
      = Ok (mk_epoch_result weights biases c cs h') /\
    forall l, (l < length weights)%nat ->
      gradient_step h h' weights biases gs lr l.
Proof.
  intros Hs Hnd Hlast Hk HX Hm.
  destruct (model_forward_total h units weights biases acts (vlen y) Hs X HX)
    as [A [cs [Hf [SA [_ Hcs]]]]].
  cbn [fst snd] in SA, Hcs. rewrite Hlast in SA.
  assert (Hcost : exists c,
    match lam with
    | None => compute_cost y A
    | Some _ => compute_cost_regularization h y A weights 0.01
    end = Ok c).
  { destruct lam.
    - apply (compute_cost_regularization_total h y A weights 0.01 (vlen y));
        try assumption; try reflexivity.
      intros w Hin. apply In_nth_error in Hin. destruct Hin as [l Hl].
      destruct Hs as [_ [_ Hall]].
      destruct (Hall l) as [w' [b [W [B [Hw [_ [HW _]]]]]]].
      + apply nth_error_Some. rewrite Hl. discriminate.
      + exists W. congruence.
    - apply (compute_cost_total y A (vlen y)); try assumption; reflexivity. }
  destruct Hcost as [c Hc].
  destruct (model_backward_total h units weights biases acts lam (vlen y) cs A y)
    as [gs [Hb Hgs]]; try assumption; try reflexivity.
  destruct (update_parameters_total h units weights biases gs lr Hs Hgs)
    as [h' [Hu _]].
  exists A, cs, c, gs, h'.
  split; [exact Hf|]. split; [exact Hc|]. split; [exact Hb|]. split; [exact Hu|].
  split.
  { unfold epoch_train. rewrite Hf. cbn [bind]. rewrite Hc. cbn [bind].
    rewrite Hb. cbn [bind]. rewrite Hu. reflexivity. }
  unfold update_parameters, for_range in Hu.
  apply bind_ok in Hu. destruct Hu as [h1 [Hloop E]].
  assert (E1 : h1 = h') by (inversion E; reflexivity). subst h1. clear E.
  destruct (update_parameters_loop_keeps h weights biases (gradients_W gs)
              (gradients_b gs) lr Hnd h' Hloop) as [_ Hdone].
  intros l Hl.
  destruct (Hdone l Hl)
    as [w [b [W [B [gW [gb [W' [B' [E1 [E2 [E3 [E4 [E5 [E6 [E7 [E8 [E9 E10]]]]]]]]]]]]]]]]].
  destruct (isub_inv _ _ _ E7) as [SW EW].
  destruct (isub_inv _ _ _ E8) as [SB EB].
  destruct Hgs as [_ [_ Hg]].
  destruct (Hg l Hl) as [dW [db [G1 [G2 [G3 G4]]]]].
  rewrite E3 in G1. inversion G1; subst dW; clear G1.
  rewrite E4 in G2. inversion G2; subst db; clear G2.
  destruct Hs as [_ [_ Hall]].
  destruct (Hall l Hl) as [w0 [b0 [W0 [B0 [F1 [F2 [F3 [F4 [F5 F6]]]]]]]]].
  rewrite E1 in F1. inversion F1; subst w0; clear F1.
  rewrite E2 in F2. inversion F2; subst b0; clear F2.
  rewrite E5 in F3. inversion F3; subst W0; clear F3.
  rewrite E6 in F4. inversion F4; subst B0; clear F4.
  assert (SgW : shape gW = shape W) by congruence.
  assert (Sgb : shape gb = shape B) by congruence.
  exists w, b, W, B, gW, gb, W', B'.
  repeat split; try assumption.
  - intros i j Hi Hj. rewrite EW by assumption. cbn [entry mmap nrows ncols].
    shape_eqs SgW Sr Sc. rewrite Sr, Sc, !bidx_lt by assumption. reflexivity.
  - intros i j Hi Hj. rewrite EB by assumption. cbn [entry mmap nrows ncols].
    shape_eqs Sgb Sr Sc. rewrite Sr, Sc, !bidx_lt by assumption. reflexivity.
Qed.

(** C9: when [init_params] returns, on a network with one output unit, an
    input with one column per label and a known hidden activation, [train_nn]
    (called without [verbose], its default) with an epoch count N ends
    normally after exactly N cycles.  The state before the first cycle is
    what [init_params] returned, with an empty loss history.  Cycle k + 1 runs on the state that k cycles left: the forward
    pass on the current parameters, the loss of its predictions, the backward
    pass from its caches, and the update, which moves the arrays of every
    layer by the learning rate times that layer's gradients in the same
    lists; its loss is appended to the history.  The state after N cycles is
    what [train_nn] returns: no cycle is skipped, none is added, and the
    loss history has exactly N entries, entry k being the loss of cycle
    k + 1. *)
Theorem train_nn_runs_every_epoch (h : heap) (g : rng) (X : matrix)
  (y : vector) (layer_units : list Z) (acts : activations) (lr : R)
  (num_iteration : Z) (lam : option R) (p : init_state) :
  init_params layer_units h g = Ok p ->
  nth (length layer_units - 1) layer_units 0%Z = 1%Z ->
  known_activation (hidden acts) ->
  shape X = (Z.to_nat (nth 0 layer_units 0%Z), vlen y) ->
  (0 < vlen y)%nat ->
  exists params costs h',
    train_nn h g X y layer_units acts lr num_iteration lam
      = Ok (params, costs, h') /\
    length costs = Z.to_nat num_iteration /\
    train_loop h g X y layer_units acts lr 0 lam
      = Ok (mk_train_state (i_weights p) (i_biases p) [] 1 None None 0
              (i_heap p)) /\
    (exists sN,
       train_loop h g X y layer_units acts lr (Z.to_nat num_iteration) lam
         = Ok sN /\
       params = mk_parameters (t_best_weights sN) (t_best_biases sN) /\
       costs = t_costs sN /\ h' = t_heap sN) /\
    forall k, (k < Z.to_nat num_iteration)%nat ->
      exists sk sk' A cs c gs,
        train_loop h g X y layer_units acts lr k lam = Ok sk /\
        train_loop h g X y layer_units acts lr (S k) lam = Ok sk' /\
        model_forward_propagation (t_heap sk) X (t_weights sk) (t_biases sk)
          acts = Ok (A, cs) /\
        match lam with
        | None => compute_cost y A
        | Some _ =>
            compute_cost_regularization (t_heap sk) y A (t_weights sk) 0.01
        end = Ok c /\
        model_backward_propagation (t_heap sk) A y (t_weights sk)
          (t_biases sk) cs acts lam = Ok gs /\
        update_parameters (t_heap sk) (t_weights sk) (t_biases sk)
          (gradients_W gs) (gradients_b gs) lr
          = Ok (t_weights sk', t_biases sk', t_heap sk') /\
        t_weights sk' = t_weights sk /\ t_biases sk' = t_biases sk /\
        length (t_weights sk) = (length layer_units - 1)%nat /\
        (forall l, (l < length layer_units - 1)%nat ->
           gradient_step (t_heap sk) (t_heap sk') (t_weights sk) (t_biases sk)
             gs lr l) /\
        t_costs sk' = t_costs sk ++ [c] /\
        length (t_costs sk) = k /\
        nth_error costs k = Some c.
Proof.
  intros Hp Hl Hk HX Hy. set (N := Z.to_nat num_iteration).
  destruct (train_loop_total h g X y layer_units acts lr lam p Hp Hl Hk HX Hy N)
    as [s Hs].
  exists (mk_parameters (t_best_weights s) (t_best_biases s)), (t_costs s), (t_heap s).
  split; [unfold train_nn; fold N; rewrite Hs; reflexivity|].
  pose proof (train_loop_best_inv _ _ _ _ _ _ _ _ _ _ Hs) as [Hlen _].
  split; [exact Hlen|].
  split; [unfold train_loop, for_range; rewrite Hp; reflexivity|].
  split; [exists s; repeat split; exact Hs|].
  intros k Hlt.
  destruct (train_loop_prefix h g X y layer_units acts lr lam N (S k) s)
    as [t1 [Ht1 Hrest]]; [lia | assumption |].
  pose proof Ht1 as Ht1'. rewrite train_loop_S in Ht1'.
  apply bind_ok in Ht1'. destruct Ht1' as [t [Ht Hb]].
  pose proof (train_loop_best_inv _ _ _ _ _ _ _ _ _ _ Ht) as [Hlk _].
  destruct (train_body_ok X y acts lr lam k t t1 Hb)
    as [e [He [Tw [Tb [Th [Tc _]]]]]].
  destruct (train_loop_keeps_shapes _ _ _ _ _ _ _ _ _ _ Ht)
    as [p' [Hp' [Ew [Eb Hsh]]]].
  rewrite Hp in Hp'. inversion Hp'; subst p'; clear Hp'.
  assert (Hne : (1 <= length layer_units)%nat).
  { destruct (Nat.eq_dec (length layer_units) 0) as [E|E]; [|lia].
    apply length_zero_iff_nil in E. rewrite E in Hl. discriminate Hl. }
  destruct (init_params_gives_shaped layer_units h g p Hne Hp) as [Lw Hshaped].
  pose proof (shaped_same_shapes _ _ _ _ _ Hsh Hshaped) as Hcur.
  pose proof (init_params_refs_nodup layer_units h g p Hp) as Hnd.
  rewrite <- Ew, <- Eb in Hcur, Hnd. rewrite <- Ew in Lw.
  destruct (epoch_train_cycle (t_heap t) (map Z.to_nat layer_units)
              (t_weights t) (t_biases t) acts lam lr X y Hcur Hnd)
    as [A [cs [c [gs [h1 [Hf [Hc [Hg [Hu [Hep Hstep]]]]]]]]]]; try assumption.
  { rewrite Lw, nth_map_to_nat, Hl. reflexivity. }
  { rewrite nth_map_to_nat. exact HX. }
  rewrite He in Hep. inversion Hep; subst e; clear Hep.
  cbn [e_weights e_biases e_heap e_cost] in Tw, Tb, Th, Tc.
  destruct (train_costs_grow X y acts lr lam _ _ _ _ Hrest) as [ext [Hext _]].
  exists t, t1, A, cs, c, gs.
  split; [exact Ht|]. split; [exact Ht1|]. split; [exact Hf|].
  split; [exact Hc|]. split; [exact Hg|].
  split; [rewrite Tw, Tb, Th; exact Hu|].
  split; [exact Tw|]. split; [exact Tb|]. split; [exact Lw|].
  split; [intros l Hlt'; rewrite Th; apply Hstep; lia|].
  split; [exact Tc|]. split; [exact Hlk|].
  rewrite Hext, Tc, <- app_assoc. rewrite nth_error_app2 by lia.
  rewrite Hlk, Nat.sub_diag. reflexivity.
Qed.

Lemma train_nn_runs_every_epoch_witness :
  exists p,
    init_params [2%Z; 1%Z] ex_empty ex_rng = Ok p /\
    exists params costs h',
      train_nn ex_empty ex_rng ex_X ex_y [2%Z; 1%Z] ex_acts 0.1 5 (Some 0.5)
        = Ok (params, costs, h') /\
      length costs = Z.to_nat 5 /\
      train_loop ex_empty ex_rng ex_X ex_y [2%Z; 1%Z] ex_acts 0.1 0 (Some 0.5)
        = Ok (mk_train_state (i_weights p) (i_biases p) [] 1 None None 0
                (i_heap p)) /\
      (exists sN,
         train_loop ex_empty ex_rng ex_X ex_y [2%Z; 1%Z] ex_acts 0.1
           (Z.to_nat 5) (Some 0.5) = Ok sN /\
         params = mk_parameters (t_best_weights sN) (t_best_biases sN) /\
         costs = t_costs sN /\ h' = t_heap sN) /\
      forall k, (k < Z.to_nat 5)%nat ->
        exists sk sk' A cs c gs,
          train_loop ex_empty ex_rng ex_X ex_y [2%Z; 1%Z] ex_acts 0.1 k
            (Some 0.5) = Ok sk /\
          train_loop ex_empty ex_rng ex_X ex_y [2%Z; 1%Z] ex_acts 0.1 (S k)
            (Some 0.5) = Ok sk' /\
          model_forward_propagation (t_heap sk) ex_X (t_weights sk)
            (t_biases sk) ex_acts = Ok (A, cs) /\
          compute_cost_regularization (t_heap sk) ex_y A (t_weights sk) 0.01
            = Ok c /\
          model_backward_propagation (t_heap sk) A ex_y (t_weights sk)
            (t_biases sk) cs ex_acts (Some 0.5) = Ok gs /\
          update_parameters (t_heap sk) (t_weights sk) (t_biases sk)
            (gradients_W gs) (gradients_b gs) 0.1
            = Ok (t_weights sk', t_biases sk', t_heap sk') /\
          t_weights sk' = t_weights sk /\ t_biases sk' = t_biases sk /\
          length (t_weights sk) = (length [2%Z; 1%Z] - 1)%nat /\
          (forall l, (l < length [2%Z; 1%Z] - 1)%nat ->
             gradient_step (t_heap sk) (t_heap sk') (t_weights sk)
               (t_biases sk) gs 0.1 l) /\
          t_costs sk' = t_costs sk ++ [c] /\
          length (t_costs sk) = k /\
          nth_error costs k = Some c.
Proof.
  eexists. split; [reflexivity|].
  apply (train_nn_runs_every_epoch ex_empty ex_rng ex_X ex_y [2%Z; 1%Z]
           ex_acts 0.1 5 (Some 0.5)).
  - reflexivity.
  - reflexivity.
  - right. left. reflexivity.
  - reflexivity.
  - simpl. lia.
Defined.
